(** * VotingRoom: the voting-room contract as a state machine

    A shallow embedding of the [VotingRoom] Solidity contract
    (src/Frontend/services/gaslessTransactions.ts, second document of the
    file).  Storage mappings are finite maps read with the Solidity default
    value, [require] is an error monad, a transaction that reverts leaves the
    storage untouched, and [uint256] arithmetic is checked (Solidity 0.8). *)

From Stdlib Require Import NArith Lia List.
From stdpp Require Import base option list gmap strings numbers.

Local Open Scope N_scope.

(** ** Reverting computations *)

Inductive result (A : Type) : Type :=
| Ok (a : A)
| Revert (reason : string).
Arguments Ok {A} a.
Arguments Revert {A} reason.

Definition result_bind {A B : Type} (k : A -> result B) (c : result A) : result B :=
  match c with
  | Ok a => k a
  | Revert r => Revert r
  end.

#[global] Instance result_mret : MRet result := @Ok.
#[global] Instance result_mbind : MBind result := @result_bind.

Definition require (cond : bool) (reason : string) : result unit :=
  if cond then Ok tt else Revert reason.

Definition is_ok {A : Type} (c : result A) : bool :=
  match c with Ok _ => true | Revert _ => false end.

Definition is_revert {A : Type} (c : result A) : bool := negb (is_ok c).

(** ** Machine integers *)

Definition uint256_max : N := 2 ^ 256 - 1.

(** [x++] on a [uint256]: Solidity 0.8 panics on overflow. *)
Definition checked_inc (x : N) : result N :=
  if x <? uint256_max then Ok (x + 1) else Revert "Panic(0x11)".

Definition bytes_length (s : string) : N := N.of_nat (String.length s).

(** ** Storage mappings

    A Solidity [mapping] is total: an absent key reads as the zero value. *)

Section mapping.
Context {K : Type} `{Countable K} {V : Type}.

Definition mapping_get (d : V) (m : gmap K V) (k : K) : V :=
  default d (m !! k).
End mapping.

Section mapping2.
Context {K1 : Type} `{Countable K1} {K2 : Type} `{Countable K2} {V : Type}.

Definition mapping_get2 (d : V) (m : gmap K1 (gmap K2 V)) (k1 : K1) (k2 : K2) : V :=
  mapping_get d (mapping_get ∅ m k1) k2.

Definition mapping_set2 (m : gmap K1 (gmap K2 V)) (k1 : K1) (k2 : K2) (v : V)
  : gmap K1 (gmap K2 V) :=
  <[k1 := <[k2 := v]> (mapping_get ∅ m k1)]> m.
End mapping2.

(** ** Data model *)

Definition address : Type := N.
Definition bytes32 : Type := N.
(** Ciphertext handles of the FHE library. *)
Definition euint32 : Type := N.
Definition externalEuint32 : Type := N.

Record Candidate : Type := mkCandidate {
  name : string;
  cand_description : string;
  imageUrl : string;
  votes : euint32;
  exists_ : bool
}.

Record Room : Type := mkRoom {
  code : string;
  title : string;
  description : string;
  creator : address;
  maxParticipants : N;
  participantCount : N;
  endTime : N;
  hasPassword : bool;
  passwordHash : bytes32;
  isActive : bool;
  isClosed : bool;
  candidateCount : N
}.

(** The zero values a mapping returns for a key never written. *)
Definition zero_candidate : Candidate := mkCandidate "" "" "" 0 false.
Definition zero_room : Room := mkRoom "" "" "" 0 0 0 0 false 0 false false 0.

Definition set_participantCount (n : N) (r : Room) : Room :=
  mkRoom (code r) (title r) (description r) (creator r) (maxParticipants r) n
         (endTime r) (hasPassword r) (passwordHash r) (isActive r) (isClosed r)
         (candidateCount r).

Definition set_isActive (b : bool) (r : Room) : Room :=
  mkRoom (code r) (title r) (description r) (creator r) (maxParticipants r)
         (participantCount r) (endTime r) (hasPassword r) (passwordHash r) b
         (isClosed r) (candidateCount r).

Definition set_isClosed (b : bool) (r : Room) : Room :=
  mkRoom (code r) (title r) (description r) (creator r) (maxParticipants r)
         (participantCount r) (endTime r) (hasPassword r) (passwordHash r)
         (isActive r) b (candidateCount r).

Definition set_candidateCount (n : N) (r : Room) : Room :=
  mkRoom (code r) (title r) (description r) (creator r) (maxParticipants r)
         (participantCount r) (endTime r) (hasPassword r) (passwordHash r)
         (isActive r) (isClosed r) n.

Definition set_votes (v : euint32) (c : Candidate) : Candidate :=
  mkCandidate (name c) (cand_description c) (imageUrl c) v (exists_ c).

Inductive Event : Type :=
| RoomCreated (roomCode : string) (by_ : address) (title_ : string)
| VoteCast (roomCode : string) (voter : address)
| RoomJoined (roomCode : string) (participant : address)
| RoomClosed (roomCode : string)
| RoomEnded (roomCode : string)
| ResultsPublished (roomCode : string).

(** Contract storage, the event log, and the decryption grants handed to the
    FHE access-control list. *)
Record State : Type := mkState {
  rooms : gmap string Room;
  roomCandidates : gmap string (gmap N Candidate);
  hasVoted : gmap string (gmap address bool);
  isParticipant : gmap string (gmap address bool);
  totalVotes : gmap string N;
  candidateVotes : gmap string (gmap N N);
  clearResults : gmap string (gmap N N);
  resultsPublished : gmap string bool;
  roomCodes : list string;
  roomCodeIndex : gmap string N;
  events : list Event;
  grants : list (euint32 * address)
}.

Definition init : State :=
  mkState ∅ ∅ ∅ ∅ ∅ ∅ ∅ ∅ [] ∅ [] [].

(** Transaction context: [msg.sender] and [block.timestamp]. *)
Record Env : Type := mkEnv {
  sender : address;
  timestamp : N
}.

(** *** Storage reads *)

Definition room (s : State) (roomCode : string) : Room :=
  mapping_get zero_room (rooms s) roomCode.
Definition candidate (s : State) (roomCode : string) (candidateId : N) : Candidate :=
  mapping_get2 zero_candidate (roomCandidates s) roomCode candidateId.
Definition voted (s : State) (roomCode : string) (a : address) : bool :=
  mapping_get2 false (hasVoted s) roomCode a.
Definition participant (s : State) (roomCode : string) (a : address) : bool :=
  mapping_get2 false (isParticipant s) roomCode a.
Definition total_votes (s : State) (roomCode : string) : N :=
  mapping_get 0 (totalVotes s) roomCode.
Definition candidate_votes (s : State) (roomCode : string) (candidateId : N) : N :=
  mapping_get2 0 (candidateVotes s) roomCode candidateId.
Definition clear_result (s : State) (roomCode : string) (candidateId : N) : N :=
  mapping_get2 0 (clearResults s) roomCode candidateId.
Definition published (s : State) (roomCode : string) : bool :=
  mapping_get false (resultsPublished s) roomCode.

(** *** Storage writes *)

Definition store_room (roomCode : string) (r : Room) (s : State) : State :=
  mkState (<[roomCode := r]> (rooms s)) (roomCandidates s) (hasVoted s)
          (isParticipant s) (totalVotes s) (candidateVotes s) (clearResults s)
          (resultsPublished s) (roomCodes s) (roomCodeIndex s) (events s) (grants s).

Definition store_candidate (roomCode : string) (candidateId : N) (c : Candidate)
    (s : State) : State :=
  mkState (rooms s) (mapping_set2 (roomCandidates s) roomCode candidateId c)
          (hasVoted s) (isParticipant s) (totalVotes s) (candidateVotes s)
          (clearResults s) (resultsPublished s) (roomCodes s) (roomCodeIndex s)
          (events s) (grants s).

Definition store_voted (roomCode : string) (a : address) (b : bool) (s : State) : State :=
  mkState (rooms s) (roomCandidates s) (mapping_set2 (hasVoted s) roomCode a b)
          (isParticipant s) (totalVotes s) (candidateVotes s) (clearResults s)
          (resultsPublished s) (roomCodes s) (roomCodeIndex s) (events s) (grants s).

Definition store_participant (roomCode : string) (a : address) (b : bool)
    (s : State) : State :=
  mkState (rooms s) (roomCandidates s) (hasVoted s)
          (mapping_set2 (isParticipant s) roomCode a b) (totalVotes s)
          (candidateVotes s) (clearResults s) (resultsPublished s) (roomCodes s)
          (roomCodeIndex s) (events s) (grants s).

Definition store_total_votes (roomCode : string) (n : N) (s : State) : State :=
  mkState (rooms s) (roomCandidates s) (hasVoted s) (isParticipant s)
          (<[roomCode := n]> (totalVotes s)) (candidateVotes s) (clearResults s)
          (resultsPublished s) (roomCodes s) (roomCodeIndex s) (events s) (grants s).

Definition store_candidate_votes (roomCode : string) (candidateId : N) (n : N)
    (s : State) : State :=
  mkState (rooms s) (roomCandidates s) (hasVoted s) (isParticipant s) (totalVotes s)
          (mapping_set2 (candidateVotes s) roomCode candidateId n) (clearResults s)
          (resultsPublished s) (roomCodes s) (roomCodeIndex s) (events s) (grants s).

Definition store_clear_result (roomCode : string) (candidateId : N) (n : N)
    (s : State) : State :=
  mkState (rooms s) (roomCandidates s) (hasVoted s) (isParticipant s) (totalVotes s)
          (candidateVotes s) (mapping_set2 (clearResults s) roomCode candidateId n)
          (resultsPublished s) (roomCodes s) (roomCodeIndex s) (events s) (grants s).

Definition store_published (roomCode : string) (b : bool) (s : State) : State :=
  mkState (rooms s) (roomCandidates s) (hasVoted s) (isParticipant s) (totalVotes s)
          (candidateVotes s) (clearResults s) (<[roomCode := b]> (resultsPublished s))
          (roomCodes s) (roomCodeIndex s) (events s) (grants s).

Definition push_roomCode (roomCode : string) (s : State) : State :=
  mkState (rooms s) (roomCandidates s) (hasVoted s) (isParticipant s) (totalVotes s)
          (candidateVotes s) (clearResults s) (resultsPublished s)
          (roomCodes s ++ [roomCode]) (roomCodeIndex s) (events s) (grants s).

Definition store_roomCodeIndex (roomCode : string) (i : N) (s : State) : State :=
  mkState (rooms s) (roomCandidates s) (hasVoted s) (isParticipant s) (totalVotes s)
          (candidateVotes s) (clearResults s) (resultsPublished s) (roomCodes s)
          (<[roomCode := i]> (roomCodeIndex s)) (events s) (grants s).

Definition emit (ev : Event) (s : State) : State :=
  mkState (rooms s) (roomCandidates s) (hasVoted s) (isParticipant s) (totalVotes s)
          (candidateVotes s) (clearResults s) (resultsPublished s) (roomCodes s)
          (roomCodeIndex s) (events s ++ [ev]) (grants s).

(** [FHE.allow(handle, account)]. *)
Definition allow (h : euint32) (a : address) (s : State) : State :=
  mkState (rooms s) (roomCandidates s) (hasVoted s) (isParticipant s) (totalVotes s)
          (candidateVotes s) (clearResults s) (resultsPublished s) (roomCodes s)
          (roomCodeIndex s) (events s) (grants s ++ [(h, a)]).

(** ** The contract *)

(** The calls a transaction can make (the mutating external functions). *)
Inductive Call : Type :=
| CreateRoom (roomCode title_ description_ : string) (maxParticipants_ endTime_ : N)
    (hasPassword_ : bool) (passwordHash_ : bytes32)
| CreateRoomWithCandidatesBatch (roomCode title_ description_ : string)
    (maxParticipants_ endTime_ : N) (hasPassword_ : bool) (passwordHash_ : bytes32)
    (candidateNames candidateDescriptions candidateImageUrls : list string)
| AddCandidate (roomCode name_ description_ imageUrl_ : string)
| AddCandidatesBatch (roomCode : string) (names descriptions imageUrls : list string)
| JoinRoom (roomCode password : string)
| Vote (roomCode : string) (candidateId : N) (encryptedVote : externalEuint32)
    (inputProof : list N)
| EndRoom (roomCode : string)
| CheckAndEndRoom (roomCode : string)
| PublishResults (roomCode : string) (candidateVoteCounts : list N).

Record Tx : Type := mkTx {
  tx_env : Env;
  tx_call : Call
}.

(** ** Concrete collaborators for running the contract

    A toy hash (a polynomial over the character codes) and an FHE engine
    whose ciphertexts are their cleartexts; an input proof is accepted iff it
    is non-empty. *)

Fixpoint demo_hash (h : N) (pw : string) : N :=
  match pw with
  | EmptyString => h
  | String a pw' => demo_hash (h * 257 + N.of_nat (Ascii.nat_of_ascii a) + 1) pw'
  end.
Definition demo_keccak256 (pw : string) : bytes32 := demo_hash 7 pw.
Definition demo_this : address := 1000.
Definition demo_asEuint32 (n : N) : euint32 := n.
Definition demo_add (a b : euint32) : euint32 := a + b.
Definition demo_fromExternal (_ : address) (v : externalEuint32) (proof : list N)
  : option euint32 :=
  match proof with [] => None | _ => Some v end.

(** Three accounts and the transactions of the walk-through scenarios. *)
Definition alice : address := 1.
Definition bob : address := 2.
Definition carol : address := 3.

Definition tx_create_R1 : Tx :=
  mkTx (mkEnv alice 10)
    (CreateRoomWithCandidatesBatch "R1" "Lunch" "Where to eat" 2 100 false 0
       ["A"; "B"] ["first"; "second"] ["a.png"; "b.png"]).
Definition tx_join_R1 : Tx := mkTx (mkEnv bob 11) (JoinRoom "R1" "").
Definition tx_vote_alice : Tx := mkTx (mkEnv alice 12) (Vote "R1" 0 1 [1]).
Definition tx_vote_bob : Tx := mkTx (mkEnv bob 13) (Vote "R1" 1 1 [1]).
Definition tx_revote_alice : Tx := mkTx (mkEnv alice 14) (Vote "R1" 1 1 [1]).
Definition tx_publish_R1 : Tx := mkTx (mkEnv alice 15) (PublishResults "R1" [7; 9]).

Definition tx_create_P1 : Tx :=
  mkTx (mkEnv alice 10)
    (CreateRoom "P1" "Board" "Members only" 3 100 true (demo_keccak256 "secret")).
Definition tx_join_P1_wrong : Tx := mkTx (mkEnv bob 11) (JoinRoom "P1" "guess").
Definition tx_check_P1_early : Tx := mkTx (mkEnv carol 50) (CheckAndEndRoom "P1").
Definition tx_check_P1_late : Tx := mkTx (mkEnv carol 100) (CheckAndEndRoom "P1").

Definition tx_create_S1 : Tx :=
  mkTx (mkEnv alice 10) (CreateRoom "S1" "Solo" "One seat" 1 100 false 0).
Definition tx_create_S2 : Tx :=
  mkTx (mkEnv alice 10)
    (CreateRoomWithCandidatesBatch "S2" "Solo" "One seat" 1 100 false 0
       ["A"; "B"] ["first"; "second"] ["a.png"; "b.png"]).
Definition tx_create_empty_code : Tx :=
  mkTx (mkEnv alice 10)
    (CreateRoomWithCandidatesBatch "" "Lunch" "Where to eat" 2 100 false 0
       ["A"; "B"] ["first"; "second"] ["a.png"; "b.png"]).

Definition tx_create_R2 : Tx :=
  mkTx (mkEnv bob 20) (CreateRoom "R2" "Retro" "Sprint topics" 3 60 false 0).
Definition tx_join_P1 : Tx := mkTx (mkEnv bob 12) (JoinRoom "P1" "secret").
Definition tx_end_P1 : Tx := mkTx (mkEnv alice 30) (EndRoom "P1").
Definition tx_add_P1 : Tx :=
  mkTx (mkEnv alice 14) (AddCandidate "P1" "X" "first" "x.png").
Definition tx_add_batch_P1 : Tx :=
  mkTx (mkEnv alice 15)
    (AddCandidatesBatch "P1" ["Y"; "Z"] ["second"; "third"] ["y.png"; "z.png"]).

Section VotingRoom.

(** The collaborators: the hash function, the contract's own address, and
    the FHE engine ([fromExternal] is [None] when the input proof is
    rejected). *)
Variable keccak256 : string -> bytes32.
Variable this : address.
Variable FHE_asEuint32 : N -> euint32.
Variable FHE_add : euint32 -> euint32 -> euint32.
Variable FHE_fromExternal : address -> externalEuint32 -> list N -> option euint32.

(** *** Modifiers *)

Definition roomExists (roomCode : string) (s : State) : result unit :=
  require (0 <? bytes_length (code (room s roomCode))) "Room does not exist".

Definition roomActive (roomCode : string) (e : Env) (s : State) : result unit :=
  require (isActive (room s roomCode)) "Room is not active";;
  require (timestamp e <? endTime (room s roomCode)) "Room has ended";;
  require (negb (isClosed (room s roomCode))) "Room is closed for new participants".

Definition hasNotVoted (roomCode : string) (e : Env) (s : State) : result unit :=
  require (negb (voted s roomCode (sender e))) "Already voted in this room".

Definition isRoomParticipant (roomCode : string) (e : Env) (s : State) : result unit :=
  require (participant s roomCode (sender e)) "Not a participant in this room".

(** *** Room creation *)

(** The storage writes shared verbatim by [createRoom] (lines 294-315) and
    [createRoomWithCandidatesBatch] (lines 353-374). *)
Definition register_room (roomCode title_ description_ : string)
    (maxParticipants_ endTime_ : N) (hasPassword_ : bool) (passwordHash_ : bytes32)
    (e : Env) (s : State) : State :=
  let s := store_room roomCode
             (mkRoom roomCode title_ description_ (sender e) maxParticipants_ 0
                     endTime_ hasPassword_ passwordHash_ true false 0) s in
  let s := push_roomCode roomCode s in
  let s := store_roomCodeIndex roomCode (N.of_nat (length (roomCodes s)) - 1) s in
  let s := store_participant roomCode (sender e) true s in
  store_room roomCode (set_participantCount 1 (room s roomCode)) s.

Definition createRoom (roomCode title_ description_ : string)
    (maxParticipants_ endTime_ : N) (hasPassword_ : bool) (passwordHash_ : bytes32)
    (e : Env) (s : State) : result State :=
  require (bytes_length (code (room s roomCode)) =? 0) "Room code already exists";;
  require (timestamp e <? endTime_) "End time must be in the future";;
  require (0 <? maxParticipants_) "Max participants must be > 0";;
  let s := register_room roomCode title_ description_ maxParticipants_ endTime_
             hasPassword_ passwordHash_ e s in
  mret (emit (RoomCreated roomCode (sender e) title_) s).

(** One candidate slot: the body shared by [addCandidate] and by the loops
    of [addCandidatesBatch] and [createRoomWithCandidatesBatch]. *)
Definition push_candidate (roomCode name_ description_ imageUrl_ : string)
    (e : Env) (s : State) : result State :=
  let candidateId := candidateCount (room s roomCode) in
  let initialVotes := FHE_asEuint32 0 in
  let s := allow initialVotes this s in
  let s := allow initialVotes (sender e) s in
  let s := store_candidate roomCode candidateId
             (mkCandidate name_ description_ imageUrl_ initialVotes true) s in
  n ← checked_inc (candidateCount (room s roomCode));
  mret (store_room roomCode (set_candidateCount n (room s roomCode)) s).

(** [for (i = 0; i < names.length; i++)] over three arrays that the
    preceding [require] forces to the same length. *)
Fixpoint push_candidates (roomCode : string) (names descriptions imageUrls : list string)
    (e : Env) (s : State) : result State :=
  match names, descriptions, imageUrls with
  | n :: names', d :: descriptions', u :: imageUrls' =>
      s' ← push_candidate roomCode n d u e s;
      push_candidates roomCode names' descriptions' imageUrls' e s'
  | _, _, _ => mret s
  end.

Definition createRoomWithCandidatesBatch (roomCode title_ description_ : string)
    (maxParticipants_ endTime_ : N) (hasPassword_ : bool) (passwordHash_ : bytes32)
    (candidateNames candidateDescriptions candidateImageUrls : list string)
    (e : Env) (s : State) : result State :=
  require (bytes_length (code (room s roomCode)) =? 0) "Room code already exists";;
  require (timestamp e <? endTime_) "End time must be in the future";;
  require (0 <? maxParticipants_) "Max participants must be > 0";;
  require ((length candidateNames =? length candidateDescriptions)%nat
           && (length candidateNames =? length candidateImageUrls)%nat)
          "Arrays length mismatch";;
  require (2 <=? length candidateNames)%nat "At least 2 candidates required";;
  let s := register_room roomCode title_ description_ maxParticipants_ endTime_
             hasPassword_ passwordHash_ e s in
  s ← push_candidates roomCode candidateNames candidateDescriptions
        candidateImageUrls e s;
  mret (emit (RoomCreated roomCode (sender e) title_) s).

Definition addCandidate (roomCode name_ description_ imageUrl_ : string)
    (e : Env) (s : State) : result State :=
  roomExists roomCode s;;
  require (sender e =? creator (room s roomCode)) "Only creator can add candidates";;
  require (isActive (room s roomCode)) "Room is not active";;
  push_candidate roomCode name_ description_ imageUrl_ e s.

Definition addCandidatesBatch (roomCode : string)
    (names descriptions imageUrls : list string) (e : Env) (s : State) : result State :=
  roomExists roomCode s;;
  require (sender e =? creator (room s roomCode)) "Only creator can add candidates";;
  require (isActive (room s roomCode)) "Room is not active";;
  require ((length names =? length descriptions)%nat
           && (length names =? length imageUrls)%nat) "Arrays length mismatch";;
  require (0 <? length names)%nat "At least one candidate required";;
  push_candidates roomCode names descriptions imageUrls e s.

(** *** Membership *)

Definition joinRoom (roomCode password : string) (e : Env) (s : State) : result State :=
  roomExists roomCode s;;
  roomActive roomCode e s;;
  require (negb (participant s roomCode (sender e))) "Already a participant";;
  require (participantCount (room s roomCode) <? maxParticipants (room s roomCode))
          "Room is full";;
  (if hasPassword (room s roomCode)
   then
     let providedHash := keccak256 password in
     require (providedHash =? passwordHash (room s roomCode)) "Invalid password"
   else mret tt);;
  let s := store_participant roomCode (sender e) true s in
  n ← checked_inc (participantCount (room s roomCode));
  let s := store_room roomCode (set_participantCount n (room s roomCode)) s in
  let s :=
    if maxParticipants (room s roomCode) <=? participantCount (room s roomCode)
    then emit (RoomClosed roomCode)
           (store_room roomCode (set_isClosed true (room s roomCode)) s)
    else s in
  mret (emit (RoomJoined roomCode (sender e)) s).

(** *** Voting *)

Definition fromExternal (encryptedVote : externalEuint32) (inputProof : list N)
    (e : Env) : result euint32 :=
  match FHE_fromExternal (sender e) encryptedVote inputProof with
  | Some v => Ok v
  | None => Revert "Invalid input proof"
  end.

(** Lines 515-523: the homomorphic addition into the candidate's encrypted
    total, and the three grants on the updated handle (each re-read from
    storage). *)
Definition add_encrypted_vote (roomCode : string) (candidateId : N)
    (encryptedVoteValue : euint32) (e : Env) (s : State) : State :=
  let s := store_candidate roomCode candidateId
             (set_votes (FHE_add (votes (candidate s roomCode candidateId))
                                 encryptedVoteValue)
                        (candidate s roomCode candidateId)) s in
  let s := allow (votes (candidate s roomCode candidateId)) this s in
  let s := allow (votes (candidate s roomCode candidateId)) (sender e) s in
  allow (votes (candidate s roomCode candidateId)) (creator (room s roomCode)) s.

Definition vote (roomCode : string) (candidateId : N)
    (encryptedVote : externalEuint32) (inputProof : list N)
    (e : Env) (s : State) : result State :=
  roomExists roomCode s;;
  isRoomParticipant roomCode e s;;
  hasNotVoted roomCode e s;;
  require (isActive (room s roomCode)) "Room is not active";;
  require (timestamp e <? endTime (room s roomCode)) "Room has ended";;
  require (candidateId <? candidateCount (room s roomCode)) "Invalid candidate";;
  require (exists_ (candidate s roomCode candidateId)) "Candidate does not exist";;
  encryptedVoteValue ← fromExternal encryptedVote inputProof e;
  let s := add_encrypted_vote roomCode candidateId encryptedVoteValue e s in
  let s := store_voted roomCode (sender e) true s in
  tv ← checked_inc (total_votes s roomCode);
  let s := store_total_votes roomCode tv s in
  cv ← checked_inc (candidate_votes s roomCode candidateId);
  let s := store_candidate_votes roomCode candidateId cv s in
  let s :=
    if maxParticipants (room s roomCode) <=? total_votes s roomCode
    then emit (RoomEnded roomCode)
           (store_room roomCode (set_isActive false (room s roomCode)) s)
    else s in
  mret (emit (VoteCast roomCode (sender e)) s).

(** *** Ending a room *)

Definition endRoom (roomCode : string) (e : Env) (s : State) : result State :=
  roomExists roomCode s;;
  require (sender e =? creator (room s roomCode)) "Only creator can end room";;
  require (isActive (room s roomCode)) "Room already ended";;
  let s := store_room roomCode (set_isActive false (room s roomCode)) s in
  mret (emit (RoomEnded roomCode) s).

Definition checkAndEndRoom (roomCode : string) (e : Env) (s : State) : result State :=
  roomExists roomCode s;;
  require (isActive (room s roomCode)) "Room already ended";;
  require (endTime (room s roomCode) <=? timestamp e) "Room has not ended yet";;
  let s := store_room roomCode (set_isActive false (room s roomCode)) s in
  mret (emit (RoomEnded roomCode) s).

(** *** Results *)

(** [for (i = 0; i < candidateVoteCounts.length; i++)
       clearResults[roomCode][i] = candidateVoteCounts[i]], from index [i]. *)
Fixpoint store_results (roomCode : string) (i : N) (counts : list N) (s : State) : State :=
  match counts with
  | [] => s
  | x :: counts' =>
      store_results roomCode (i + 1) counts' (store_clear_result roomCode i x s)
  end.

Definition publishResults (roomCode : string) (candidateVoteCounts : list N)
    (e : Env) (s : State) : result State :=
  roomExists roomCode s;;
  require (sender e =? creator (room s roomCode)) "Only creator can publish results";;
  require (negb (isActive (room s roomCode))) "Room must be ended to publish results";;
  require (N.of_nat (length candidateVoteCounts) =? candidateCount (room s roomCode))
          "Invalid candidate votes length";;
  let s := store_results roomCode 0 candidateVoteCounts s in
  let s := store_published roomCode true s in
  mret (emit (ResultsPublished roomCode) s).

(** *** Views *)

Definition getRoom (roomCode : string) (s : State) : result Room :=
  roomExists roomCode s;;
  mret (room s roomCode).

Definition getCandidate (roomCode : string) (candidateId : N) (s : State)
  : result (string * string * string) :=
  roomExists roomCode s;;
  require (candidateId <? candidateCount (room s roomCode)) "Invalid candidate";;
  let c := candidate s roomCode candidateId in
  mret (name c, cand_description c, imageUrl c).

Definition getTotalVotes (roomCode : string) (s : State) : result N :=
  roomExists roomCode s;;
  mret (total_votes s roomCode).

Definition getCandidateVoteCount (roomCode : string) (candidateId : N) (s : State)
  : result N :=
  roomExists roomCode s;;
  require (candidateId <? candidateCount (room s roomCode)) "Invalid candidate";;
  mret (candidate_votes s roomCode candidateId).

Definition hasUserVoted (roomCode : string) (user : address) (s : State) : result bool :=
  roomExists roomCode s;;
  mret (voted s roomCode user).

Definition isUserParticipant (roomCode : string) (user : address) (s : State)
  : result bool :=
  roomExists roomCode s;;
  mret (participant s roomCode user).

Definition getClearResults (roomCode : string) (candidateId : N) (s : State)
  : result N :=
  roomExists roomCode s;;
  require (published s roomCode) "Results not published yet";;
  require (candidateId <? candidateCount (room s roomCode)) "Invalid candidate";;
  mret (clear_result s roomCode candidateId).

Definition areResultsPublished (roomCode : string) (s : State) : result bool :=
  roomExists roomCode s;;
  mret (published s roomCode).

(** *** Transactions *)

Definition call (c : Call) : Env -> State -> result State :=
  match c with
  | CreateRoom rc t d m et hp ph => createRoom rc t d m et hp ph
  | CreateRoomWithCandidatesBatch rc t d m et hp ph ns ds us =>
      createRoomWithCandidatesBatch rc t d m et hp ph ns ds us
  | AddCandidate rc n d u => addCandidate rc n d u
  | AddCandidatesBatch rc ns ds us => addCandidatesBatch rc ns ds us
  | JoinRoom rc pw => joinRoom rc pw
  | Vote rc cid ev pf => vote rc cid ev pf
  | EndRoom rc => endRoom rc
  | CheckAndEndRoom rc => checkAndEndRoom rc
  | PublishResults rc cs => publishResults rc cs
  end.

(** A transaction either commits its writes or reverts to the state it
    started from. *)
Definition exec (s : State) (tx : Tx) : State :=
  match call (tx_call tx) (tx_env tx) s with
  | Ok s' => s'
  | Revert _ => s
  end.

Definition run (s : State) (txs : list Tx) : State := fold_left exec txs s.

(** Sum of the plaintext per-candidate counters over ids [0 .. n-1]. *)
Fixpoint sum_candidate_votes (s : State) (roomCode : string) (n : nat) : N :=
  match n with
  | O => 0
  | S n' => sum_candidate_votes s roomCode n' + candidate_votes s roomCode (N.of_nat n')
  end.

(** The identities whose [hasVoted] flag is set in a room. *)
Definition voters (s : State) (roomCode : string) : gmap address bool :=
  filter (fun kv => kv.2 = true) (mapping_get ∅ (hasVoted s) roomCode).

(** ** Derived notions used by the statements *)

(** The storage writes of a successful [joinRoom] (lines 483-492). *)
Definition joined (roomCode : string) (e : Env) (s : State) : State :=
  let s := store_participant roomCode (sender e) true s in
  let s := store_room roomCode
             (set_participantCount (participantCount (room s roomCode) + 1)
                (room s roomCode)) s in
  let s :=
    if maxParticipants (room s roomCode) <=? participantCount (room s roomCode)
    then emit (RoomClosed roomCode)
           (store_room roomCode (set_isClosed true (room s roomCode)) s)
    else s in
  emit (RoomJoined roomCode (sender e)) s.

(** The storage writes of a successful [vote] (lines 515-538), for the
    converted ciphertext [v]. *)
Definition voted_for (roomCode : string) (candidateId : N) (v : euint32)
    (e : Env) (s : State) : State :=
  let s := add_encrypted_vote roomCode candidateId v e s in
  let s := store_voted roomCode (sender e) true s in
  let s := store_total_votes roomCode (total_votes s roomCode + 1) s in
  let s := store_candidate_votes roomCode candidateId
             (candidate_votes s roomCode candidateId + 1) s in
  let s :=
    if maxParticipants (room s roomCode) <=? total_votes s roomCode
    then emit (RoomEnded roomCode)
           (store_room roomCode (set_isActive false (room s roomCode)) s)
    else s in
  emit (VoteCast roomCode (sender e)) s.

(** The room record after [participantCount++] and the closing test. *)
Definition close_if_full (r : Room) : Room :=
  if maxParticipants r <=? participantCount r then set_isClosed true r else r.

(** The room record after the auto-close test of [vote], given the new
    value of [totalVotes]. *)
Definition end_if_all_voted (tv : N) (r : Room) : Room :=
  if maxParticipants r <=? tv then set_isActive false r else r.

(** The candidate written at position [j] of a batch. *)
Definition nth_candidate (ns ds us : list string) (j : nat) : Candidate :=
  mkCandidate (nth j ns "") (nth j ds "") (nth j us "") (FHE_asEuint32 0) true.

(** Fields no candidate addition touches. *)
Definition same_ledger (s s' : State) : Prop :=
  hasVoted s' = hasVoted s /\ isParticipant s' = isParticipant s /\
  totalVotes s' = totalVotes s /\ candidateVotes s' = candidateVotes s /\
  clearResults s' = clearResults s /\ resultsPublished s' = resultsPublished s.

(** The transition relation: one constructor per kind of committed writes;
    a reverted transaction is [step_revert]. *)
Inductive step (s : State) : State -> Prop :=
| step_revert : step s s
| step_createRoom rc t d m et hp ph e :
    code (room s rc) = "" -> timestamp e < et -> 0 < m ->
    step s (emit (RoomCreated rc (sender e) t) (register_room rc t d m et hp ph e s))
| step_createBatch rc t d m et hp ph ns ds us e s1 :
    code (room s rc) = "" -> timestamp e < et -> 0 < m ->
    length ns = length ds -> length ns = length us -> (2 <= length ns)%nat ->
    push_candidates rc ns ds us e (register_room rc t d m et hp ph e s) = Ok s1 ->
    step s (emit (RoomCreated rc (sender e) t) s1)
| step_addCandidates rc ns ds us e s' :
    code (room s rc) <> "" -> sender e = creator (room s rc) ->
    isActive (room s rc) = true ->
    length ns = length ds -> length ns = length us ->
    push_candidates rc ns ds us e s = Ok s' ->
    step s s'
| step_joinRoom rc e :
    code (room s rc) <> "" -> isActive (room s rc) = true ->
    timestamp e < endTime (room s rc) -> isClosed (room s rc) = false ->
    participant s rc (sender e) = false ->
    participantCount (room s rc) < maxParticipants (room s rc) ->
    step s (joined rc e s)
| step_vote rc k v e :
    code (room s rc) <> "" -> participant s rc (sender e) = true ->
    voted s rc (sender e) = false -> isActive (room s rc) = true ->
    timestamp e < endTime (room s rc) -> k < candidateCount (room s rc) ->
    step s (voted_for rc k v e s)
| step_end rc :
    code (room s rc) <> "" -> isActive (room s rc) = true ->
    step s (emit (RoomEnded rc) (store_room rc (set_isActive false (room s rc)) s))
| step_publish rc counts e :
    code (room s rc) <> "" -> sender e = creator (room s rc) ->
    isActive (room s rc) = false ->
    N.of_nat (length counts) = candidateCount (room s rc) ->
    step s (emit (ResultsPublished rc)
              (store_published rc true (store_results rc 0 counts s))).

(** What one transaction can do to the record of room [c]. *)
Inductive room_step (c : string) (r : Room) : Room -> Prop :=
| rs_same : room_step c r r
| rs_create t d a m et hp ph n :
    code r = "" -> 0 < m ->
    room_step c r (mkRoom c t d a m 1 et hp ph true false n)
| rs_candidates n :
    code r <> "" -> isActive r = true -> candidateCount r <= n ->
    room_step c r (set_candidateCount n r)
| rs_join :
    code r <> "" -> isActive r = true -> isClosed r = false ->
    participantCount r < maxParticipants r ->
    room_step c r (close_if_full (set_participantCount (participantCount r + 1) r))
| rs_end :
    code r <> "" -> isActive r = true ->
    room_step c r (set_isActive false r).

(** The fields fixed at creation. *)
Definition same_identity (r r' : Room) : Prop :=
  code r' = code r /\ title r' = title r /\ description r' = description r /\
  creator r' = creator r /\ maxParticipants r' = maxParticipants r /\
  endTime r' = endTime r /\ hasPassword r' = hasPassword r /\
  passwordHash r' = passwordHash r.

(** The closed flag against the head count: what holds in every reachable
    state.  A closed room is full; a full room with room for at least two
    is closed. *)
Definition closed_consistent (r : Room) : Prop :=
  (isClosed r = true -> participantCount r = maxParticipants r) /\
  (participantCount r = maxParticipants r -> 2 <= maxParticipants r ->
   isClosed r = true) /\
  (participantCount r <= maxParticipants r).

(** The value of [isActive] of a room in each state along a run: after
    each transaction ([flags_after]) and with the starting state first
    ([flags]). *)
Fixpoint flags_after (s : State) (txs : list Tx) (c : string) : list bool :=
  match txs with
  | [] => []
  | tx :: txs' => isActive (room (exec s tx) c) :: flags_after (exec s tx) txs' c
  end.

Definition flags (s : State) (txs : list Tx) (c : string) : list bool :=
  isActive (room s c) :: flags_after s txs c.

(** Number of true-to-false and of false-to-true changes in a sequence. *)
Fixpoint falls_from (a : bool) (l : list bool) : nat :=
  match l with
  | [] => 0
  | b :: l' => (if a && negb b then 1 else 0) + falls_from b l'
  end.

Definition falls (l : list bool) : nat :=
  match l with [] => 0%nat | a :: l' => falls_from a l' end.

Fixpoint rises_from (a : bool) (l : list bool) : nat :=
  match l with
  | [] => 0
  | b :: l' => (if negb a && b then 1 else 0) + rises_from b l'
  end.

Definition rises (l : list bool) : nat :=
  match l with [] => 0%nat | a :: l' => rises_from a l' end.

(** The gates of [joinRoom] in the order the specification lists them:
    existence, then active / time / closed, then already-participant, then
    capacity, then password.  [None] when every gate is passed. *)
Definition joinRoom_first_failure (rc pw : string) (e : Env) (s : State)
  : option string :=
  let r := room s rc in
  if decide (code r = "") then Some "Room does not exist"
  else if negb (isActive r) then Some "Room is not active"
  else if negb (timestamp e <? endTime r) then Some "Room has ended"
  else if isClosed r then Some "Room is closed for new participants"
  else if participant s rc (sender e) then Some "Already a participant"
  else if negb (participantCount r <? maxParticipants r) then Some "Room is full"
  else if hasPassword r && negb (keccak256 pw =? passwordHash r)
       then Some "Invalid password"
  else None.

(** What one transaction does to the vote accounting of one room. *)
Inductive tally_step (c : string) (s s' : State) : Prop :=
| ts_same :
    total_votes s' c = total_votes s c ->
    (forall i, candidate_votes s' c i = candidate_votes s c i) ->
    mapping_get ∅ (hasVoted s') c = mapping_get ∅ (hasVoted s) c ->
    tally_step c s s'
| ts_vote k a :
    code (room s c) <> "" -> k < candidateCount (room s c) ->
    candidateCount (room s' c) = candidateCount (room s c) ->
    voted s c a = false ->
    total_votes s' c = total_votes s c + 1 ->
    candidate_votes s' c k = candidate_votes s c k + 1 ->
    (forall i, i <> k -> candidate_votes s' c i = candidate_votes s c i) ->
    mapping_get ∅ (hasVoted s') c = <[a := true]> (mapping_get ∅ (hasVoted s) c) ->
    tally_step c s s'.

(** The accounting invariant of one room. *)
Definition tally_consistent (s : State) (c : string) : Prop :=
  total_votes s c
  = sum_candidate_votes s c (N.to_nat (candidateCount (room s c))) /\
  total_votes s c = N.of_nat (size (voters s c)) /\
  (forall i, candidateCount (room s c) <= i -> candidate_votes s c i = 0) /\
  (code (room s c) = "" -> forall i, candidate_votes s c i = 0).

(** Two candidate records with the same public profile. *)
Definition same_profile (c c' : Candidate) : Prop :=
  name c' = name c /\ cand_description c' = cand_description c /\
  imageUrl c' = imageUrl c.

(** ** The remaining views *)

(** A memory array: a write or read past the end panics. *)
Definition array_set {A : Type} (arr : list A) (i : N) (x : A) : result (list A) :=
  if i <? N.of_nat (length arr) then Ok (<[N.to_nat i := x]> arr)
  else Revert "Panic(0x32)".

Definition array_get {A : Type} (arr : list A) (i : N) : result A :=
  match arr !! N.to_nat i with
  | Some x => Ok x
  | None => Revert "Panic(0x32)"
  end.

Definition getCandidateVotes (roomCode : string) (candidateId : N) (s : State)
  : result euint32 :=
  roomExists roomCode s;;
  require (candidateId <? candidateCount (room s roomCode)) "Invalid candidate";;
  mret (votes (candidate s roomCode candidateId)).

Definition getTotalRoomsCount (s : State) : N := N.of_nat (length (roomCodes s)).

Definition getAllRoomCodes (s : State) : list string := roomCodes s.

(** The test both loops of [getActiveRooms] apply to [roomCodes[i]]. *)
Definition listed_active (now : N) (s : State) (c : string) : bool :=
  isActive (room s c) && (now <? endTime (room s c)).

(** First loop of [getActiveRooms]: count the active rooms.  The counter is
    bounded by the array length, itself a [uint256]. *)
Fixpoint count_active (now : N) (s : State) (codes : list string) (activeCount : N) : N :=
  match codes with
  | [] => activeCount
  | c :: codes' =>
      count_active now s codes'
        (if listed_active now s c then activeCount + 1 else activeCount)
  end.

(** Second loop of [getActiveRooms]: write the active codes into the array
    allocated from the count. *)
Fixpoint fill_active (now : N) (s : State) (codes : list string)
    (activeRooms : list string) (currentIndex : N) : result (list string) :=
  match codes with
  | [] => Ok activeRooms
  | c :: codes' =>
      if listed_active now s c
      then activeRooms' ← array_set activeRooms currentIndex c;
           fill_active now s codes' activeRooms' (currentIndex + 1)
      else fill_active now s codes' activeRooms currentIndex
  end.

Definition getActiveRooms (e : Env) (s : State) : result (list string) :=
  let activeCount := count_active (timestamp e) s (roomCodes s) 0 in
  let activeRooms := replicate (N.to_nat activeCount) "" in
  fill_active (timestamp e) s (roomCodes s) activeRooms 0.

(** The loop of [getRoomsPaginated], [n] iterations left from index [i]:
    [paginatedRooms[i] = roomCodes[offset + i]]. *)
Fixpoint copy_page (codes : list string) (offset : N) (n : nat) (i : N)
    (paginatedRooms : list string) : result (list string) :=
  match n with
  | O => Ok paginatedRooms
  | S n' =>
      c ← array_get codes (offset + i);
      paginatedRooms' ← array_set paginatedRooms i c;
      copy_page codes offset n' (i + 1) paginatedRooms'
  end.

Definition getRoomsPaginated (offset limit : N) (s : State)
  : result (list string * bool) :=
  require (0 <? limit) "Limit must be greater than 0";;
  let totalRooms := N.of_nat (length (roomCodes s)) in
  if totalRooms <=? offset then mret ([], false)
  else
    let remainingRooms := totalRooms - offset in
    let returnCount := if limit <? remainingRooms then limit else remainingRooms in
    paginatedRooms ← copy_page (roomCodes s) offset (N.to_nat returnCount) 0
                       (replicate (N.to_nat returnCount) "");
    let hasMore := offset + returnCount <? totalRooms in
    mret (paginatedRooms, hasMore).

(** The loop of [getAllVotingResults], [n] iterations left from index [i]. *)
Fixpoint fill_results (s : State) (roomCode : string) (n : nat) (i : N)
    (candidateIds : list N) (candidateNames : list string) (voteCounts : list N)
  : result (list N * list string * list N) :=
  match n with
  | O => Ok (candidateIds, candidateNames, voteCounts)
  | S n' =>
      candidateIds' ← array_set candidateIds i i;
      candidateNames' ← array_set candidateNames i (name (candidate s roomCode i));
      voteCounts' ← array_set voteCounts i (candidate_votes s roomCode i);
      fill_results s roomCode n' (i + 1) candidateIds' candidateNames' voteCounts'
  end.

Definition getAllVotingResults (roomCode : string) (s : State)
  : result (list N * list string * list N * N) :=
  roomExists roomCode s;;
  let n := N.to_nat (candidateCount (room s roomCode)) in
  let candidateIds := replicate n 0 in
  let candidateNames := replicate n "" in
  let voteCounts := replicate n 0 in
  let roomTotalVotes := total_votes s roomCode in
  r ← fill_results s roomCode n 0 candidateIds candidateNames voteCounts;
  mret (r, roomTotalVotes).

(** ** Further derived notions *)

(** The identities whose [isParticipant] flag is set in a room. *)
Definition participants (s : State) (roomCode : string) : gmap address bool :=
  filter (fun kv => kv.2 = true) (mapping_get ∅ (isParticipant s) roomCode).

Definition sum_list (l : list N) : N := foldr N.add 0 l.

(** The registry against the room table: a stored code is empty or the key
    it is stored under; the index of an existing room points at its code in
    [roomCodes]; a listed non-empty code names an existing room and is listed
    once. *)
Definition registry_consistent (s : State) : Prop :=
  (forall c, code (room s c) = "" \/ code (room s c) = c) /\
  (forall c, code (room s c) <> "" ->
             roomCodes s !! N.to_nat (mapping_get 0 (roomCodeIndex s) c) = Some c) /\
  (forall c, In c (roomCodes s) -> c <> "" -> code (room s c) = c) /\
  (forall c i j, c <> "" -> roomCodes s !! i = Some c -> roomCodes s !! j = Some c ->
                 i = j).

(** The membership roll of a room against its counters: voters are
    participants; under a non-empty stored code [participantCount] counts the
    participants; a non-empty key never created has none. *)
Definition roll_consistent (s : State) (c : string) : Prop :=
  (forall a, voted s c a = true -> participant s c a = true) /\
  (code (room s c) <> "" ->
   N.of_nat (size (participants s c)) = participantCount (room s c)) /\
  (code (room s c) = "" -> c <> "" -> forall a, participant s c a = false).

(** The guards of [vote] in source order: the three modifiers, then the four
    [require]s of the body.  [None] when every guard is passed. *)
Definition vote_first_failure (rc : string) (k : N) (e : Env) (s : State)
  : option string :=
  let r := room s rc in
  if decide (code r = "") then Some "Room does not exist"
  else if negb (participant s rc (sender e)) then Some "Not a participant in this room"
  else if voted s rc (sender e) then Some "Already voted in this room"
  else if negb (isActive r) then Some "Room is not active"
  else if negb (timestamp e <? endTime r) then Some "Room has ended"
  else if negb (k <? candidateCount r) then Some "Invalid candidate"
  else if negb (exists_ (candidate s rc k)) then Some "Candidate does not exist"
  else None.

(** One [addCandidate] transaction per entry of a batch. *)
Fixpoint single_adds (rc : string) (e : Env) (ns ds us : list string) : list Tx :=
  match ns, ds, us with
  | n :: ns', d :: ds', u :: us' =>
      mkTx e (AddCandidate rc n d u) :: single_adds rc e ns' ds' us'
  | _, _, _ => []
  end.



(** ** Facts about storage mappings *)

Section mapping_facts.
Context {K : Type} `{Countable K} {V : Type}.

Lemma mapping_get_insert_eq (d : V) (m : gmap K V) (k : K) (v : V) :
  mapping_get d (<[k := v]> m) k = v.
Proof. unfold mapping_get. by rewrite lookup_insert_eq. Qed.

Lemma mapping_get_insert_ne (d : V) (m : gmap K V) (k k' : K) (v : V) :
  k <> k' -> mapping_get d (<[k := v]> m) k' = mapping_get d m k'.
Proof. intros Hne. unfold mapping_get. by rewrite lookup_insert_ne. Qed.

Lemma mapping_get_empty (d : V) (k : K) : mapping_get d (∅ : gmap K V) k = d.
Proof. unfold mapping_get. by rewrite lookup_empty. Qed.

End mapping_facts.

Section mapping2_facts.
Context {K1 : Type} `{Countable K1} {K2 : Type} `{Countable K2} {V : Type}.

Lemma mapping_get2_set2_eq (d : V) (m : gmap K1 (gmap K2 V)) (k1 : K1) (k2 : K2)
    (v : V) :
  mapping_get2 d (mapping_set2 m k1 k2 v) k1 k2 = v.
Proof.
  unfold mapping_get2, mapping_set2.
  by rewrite !mapping_get_insert_eq.
Qed.

Lemma mapping_get2_set2_ne (d : V) (m : gmap K1 (gmap K2 V)) (k1 k1' : K1)
    (k2 k2' : K2) (v : V) :
  (k1, k2) <> (k1', k2') ->
  mapping_get2 d (mapping_set2 m k1 k2 v) k1' k2' = mapping_get2 d m k1' k2'.
Proof.
  intros Hne. unfold mapping_get2, mapping_set2.
  destruct (decide (k1 = k1')) as [->|Hk1].
  - rewrite mapping_get_insert_eq.
    rewrite mapping_get_insert_ne; [done|congruence].
  - by rewrite mapping_get_insert_ne.
Qed.

Lemma mapping_get_set2_ne (m : gmap K1 (gmap K2 V)) (k1 k1' : K1) (k2 : K2) (v : V) :
  k1 <> k1' ->
  mapping_get ∅ (mapping_set2 m k1 k2 v) k1' = mapping_get ∅ m k1'.
Proof. intros Hne. unfold mapping_set2. by rewrite mapping_get_insert_ne. Qed.

Lemma mapping_get_set2_eq (m : gmap K1 (gmap K2 V)) (k1 : K1) (k2 : K2) (v : V) :
  mapping_get ∅ (mapping_set2 m k1 k2 v) k1 = <[k2 := v]> (mapping_get ∅ m k1).
Proof. unfold mapping_set2. by rewrite mapping_get_insert_eq. Qed.

End mapping2_facts.

(** ** Inversion of successful computations *)

Lemma bind_Ok {A B : Type} (c : result A) (k : A -> result B) (b : B) :
  (c ≫= k) = Ok b <-> exists a, c = Ok a /\ k a = Ok b.
Proof.
  unfold mbind, result_mbind.
  destruct c as [a|r]; cbn; split.
  - intros Hk. by exists a.
  - by intros (a' & [= <-] & Hk).
  - discriminate.
  - by intros (a' & [=] & _).
Qed.

Lemma bind_Revert {A B : Type} (c : result A) (k : A -> result B) (r : string) :
  c = Revert r -> (c ≫= k) = Revert r.
Proof. by intros ->. Qed.

Lemma require_Ok (b : bool) (m : string) (u : unit) : require b m = Ok u <-> b = true.
Proof. destruct b, u; cbn; split; (done || discriminate). Qed.

Lemma require_true (m : string) : require true m = Ok tt.
Proof. done. Qed.

Lemma require_false (m : string) : require false m = Revert m.
Proof. done. Qed.

Lemma checked_inc_Ok (x y : N) :
  checked_inc x = Ok y <-> x < uint256_max /\ y = x + 1.
Proof.
  unfold checked_inc. destruct (N.ltb_spec x uint256_max); split.
  - by intros [= <-].
  - by intros [_ ->].
  - discriminate.
  - intros [Hlt _]. lia.
Qed.

Lemma bytes_length_pos (str : string) :
  (0 <? bytes_length str) = true <-> str <> "".
Proof.
  unfold bytes_length. rewrite N.ltb_lt.
  destruct str; cbn [String.length]; split; try done; lia.
Qed.

Lemma bytes_length_zero (str : string) :
  (bytes_length str =? 0) = true <-> str = "".
Proof.
  unfold bytes_length. rewrite N.eqb_eq.
  destruct str; cbn [String.length]; split; try done; lia.
Qed.

Lemma roomExists_Ok (roomCode : string) (s : State) (u : unit) :
  roomExists roomCode s = Ok u <-> code (room s roomCode) <> "".
Proof. unfold roomExists. by rewrite require_Ok, bytes_length_pos. Qed.

Lemma roomExists_Revert (roomCode : string) (s : State) :
  code (room s roomCode) = "" -> roomExists roomCode s = Revert "Room does not exist".
Proof. unfold roomExists. by intros ->. Qed.

(** Peel a successful chain of binds, requires and checked increments. *)
Ltac inv_ok H :=
  cbv zeta in H;
  lazymatch type of H with
  | mbind _ _ = Ok _ =>
      let a := fresh "a" in
      let Ha := fresh "Hq" in
      apply bind_Ok in H; destruct H as (a & Ha & H); inv_ok Ha; inv_ok H
  | roomExists _ _ = Ok _ => apply roomExists_Ok in H
  | require _ _ = Ok _ => apply require_Ok in H
  | checked_inc _ = Ok _ =>
      let Hlt := fresh "Hlt" in
      apply checked_inc_Ok in H; destruct H as [Hlt H]
  | mret _ = Ok _ => injection H as H
  | (if ?b then _ else _) = Ok _ =>
      let Hb := fresh "Hb" in destruct b eqn:Hb; inv_ok H
  | _ => idtac
  end.

(** Turn the boolean tests of the [require]s into propositions. *)
Ltac boolp :=
  repeat match goal with
  | H : N.ltb _ _ = true |- _ => apply N.ltb_lt in H
  | H : N.leb _ _ = true |- _ => apply N.leb_le in H
  | H : N.eqb _ _ = true |- _ => apply N.eqb_eq in H
  | H : N.ltb _ _ = false |- _ => apply N.ltb_ge in H
  | H : N.leb _ _ = false |- _ => apply N.leb_gt in H
  | H : N.eqb _ _ = false |- _ => apply N.eqb_neq in H
  | H : Nat.ltb _ _ = true |- _ => apply Nat.ltb_lt in H
  | H : Nat.leb _ _ = true |- _ => apply Nat.leb_le in H
  | H : Nat.eqb _ _ = true |- _ => apply Nat.eqb_eq in H
  | H : negb _ = true |- _ => apply negb_true_iff in H
  | H : andb _ _ = true |- _ => apply andb_true_iff in H; destruct H
  end.

(** Reduce storage reads over storage writes to the underlying maps. *)
Ltac reads_once :=
  unfold register_room;
  unfold room, candidate, voted, participant, total_votes, candidate_votes,
    clear_result, published;
  unfold store_room, store_candidate, store_voted,
    store_participant, store_total_votes, store_candidate_votes,
    store_clear_result, store_published, push_roomCode, store_roomCodeIndex,
    emit, allow;
  cbn [rooms roomCandidates hasVoted isParticipant totalVotes candidateVotes
       clearResults resultsPublished roomCodes roomCodeIndex events grants];
  rewrite ?mapping_get_insert_eq;
  cbn [set_participantCount set_isActive set_isClosed set_candidateCount
       code title description creator maxParticipants participantCount endTime
       hasPassword passwordHash isActive isClosed candidateCount].
Ltac reads := repeat progress reads_once.

(** Case split on whether a written key is the key being read. *)
Ltac same_key :=
  repeat match goal with
  | |- context [decide (?a = ?b)] =>
      destruct (decide (a = b)); simplify_eq
  end;
  rewrite ?mapping_get_insert_eq;
  rewrite ?mapping_get_insert_ne by congruence;
  try done.

Lemma add_encrypted_vote_fields rc k v e s :
  let s' := add_encrypted_vote rc k v e s in
  rooms s' = rooms s /\
  roomCandidates s' =
    mapping_set2 (roomCandidates s) rc k
      (set_votes (FHE_add (votes (candidate s rc k)) v) (candidate s rc k)) /\
  hasVoted s' = hasVoted s /\ isParticipant s' = isParticipant s /\
  totalVotes s' = totalVotes s /\ candidateVotes s' = candidateVotes s /\
  clearResults s' = clearResults s /\ resultsPublished s' = resultsPublished s.
Proof. cbv zeta. unfold add_encrypted_vote. cbn. by repeat split. Qed.

(** ** What a successful call does *)

Lemma createRoom_Ok roomCode t d m et hp ph e s s' :
  createRoom roomCode t d m et hp ph e s = Ok s' ->
  code (room s roomCode) = "" /\ timestamp e < et /\ 0 < m /\
  s' = emit (RoomCreated roomCode (sender e) t)
         (register_room roomCode t d m et hp ph e s).
Proof.
  intros Hok. unfold createRoom in Hok. inv_ok Hok.
  apply bytes_length_zero in Hq. apply N.ltb_lt in Hq0, Hq1. done.
Qed.

Lemma endRoom_Ok roomCode e s s' :
  endRoom roomCode e s = Ok s' ->
  code (room s roomCode) <> "" /\ sender e = creator (room s roomCode) /\
  isActive (room s roomCode) = true /\
  s' = emit (RoomEnded roomCode)
         (store_room roomCode (set_isActive false (room s roomCode)) s).
Proof.
  intros Hok. unfold endRoom in Hok. inv_ok Hok.
  apply N.eqb_eq in Hq0. done.
Qed.

Lemma checkAndEndRoom_Ok roomCode e s s' :
  checkAndEndRoom roomCode e s = Ok s' ->
  code (room s roomCode) <> "" /\ isActive (room s roomCode) = true /\
  endTime (room s roomCode) <= timestamp e /\
  s' = emit (RoomEnded roomCode)
         (store_room roomCode (set_isActive false (room s roomCode)) s).
Proof.
  intros Hok. unfold checkAndEndRoom in Hok. inv_ok Hok.
  apply N.leb_le in Hq1. done.
Qed.

Lemma publishResults_Ok roomCode counts e s s' :
  publishResults roomCode counts e s = Ok s' ->
  code (room s roomCode) <> "" /\ sender e = creator (room s roomCode) /\
  isActive (room s roomCode) = false /\
  N.of_nat (length counts) = candidateCount (room s roomCode) /\
  s' = emit (ResultsPublished roomCode)
         (store_published roomCode true (store_results roomCode 0 counts s)).
Proof.
  intros Hok. unfold publishResults in Hok. inv_ok Hok.
  apply N.eqb_eq in Hq0, Hq2. apply negb_true_iff in Hq1. done.
Qed.

Lemma push_candidate_Ok roomCode n d u e s s' :
  push_candidate roomCode n d u e s = Ok s' ->
  candidateCount (room s roomCode) < uint256_max /\
  s' = store_room roomCode
         (set_candidateCount (candidateCount (room s roomCode) + 1) (room s roomCode))
         (store_candidate roomCode (candidateCount (room s roomCode))
            (mkCandidate n d u (FHE_asEuint32 0) true)
            (allow (FHE_asEuint32 0) (sender e) (allow (FHE_asEuint32 0) this s))).
Proof.
  intros Hok. unfold push_candidate in Hok. inv_ok Hok.
  subst. done.
Qed.

Lemma addCandidate_Ok roomCode n d u e s s' :
  addCandidate roomCode n d u e s = Ok s' ->
  code (room s roomCode) <> "" /\ sender e = creator (room s roomCode) /\
  isActive (room s roomCode) = true /\
  push_candidate roomCode n d u e s = Ok s'.
Proof.
  intros Hok. unfold addCandidate in Hok.
  apply bind_Ok in Hok as (? & Hq & Hok). inv_ok Hq.
  apply bind_Ok in Hok as (? & Hq0 & Hok). inv_ok Hq0.
  apply bind_Ok in Hok as (? & Hq1 & Hok). inv_ok Hq1.
  apply N.eqb_eq in Hq0. done.
Qed.

Lemma addCandidatesBatch_Ok roomCode ns ds us e s s' :
  addCandidatesBatch roomCode ns ds us e s = Ok s' ->
  code (room s roomCode) <> "" /\ sender e = creator (room s roomCode) /\
  isActive (room s roomCode) = true /\
  length ns = length ds /\ length ns = length us /\ (0 < length ns)%nat /\
  push_candidates roomCode ns ds us e s = Ok s'.
Proof.
  intros Hok. unfold addCandidatesBatch in Hok.
  apply bind_Ok in Hok as (? & Hq & Hok). inv_ok Hq.
  apply bind_Ok in Hok as (? & Hq0 & Hok). inv_ok Hq0.
  apply bind_Ok in Hok as (? & Hq1 & Hok). inv_ok Hq1.
  apply bind_Ok in Hok as (? & Hq2 & Hok). inv_ok Hq2.
  apply bind_Ok in Hok as (? & Hq3 & Hok). inv_ok Hq3.
  apply N.eqb_eq in Hq0. apply andb_true_iff in Hq2 as [Hl1 Hl2].
  apply Nat.eqb_eq in Hl1, Hl2. apply Nat.ltb_lt in Hq3. done.
Qed.

Lemma createRoomWithCandidatesBatch_Ok roomCode t d m et hp ph ns ds us e s s' :
  createRoomWithCandidatesBatch roomCode t d m et hp ph ns ds us e s = Ok s' ->
  code (room s roomCode) = "" /\ timestamp e < et /\ 0 < m /\
  length ns = length ds /\ length ns = length us /\ (2 <= length ns)%nat /\
  exists s1,
    push_candidates roomCode ns ds us e
      (register_room roomCode t d m et hp ph e s) = Ok s1 /\
    s' = emit (RoomCreated roomCode (sender e) t) s1.
Proof.
  intros Hok. unfold createRoomWithCandidatesBatch in Hok.
  apply bind_Ok in Hok as (? & Hq & Hok). inv_ok Hq.
  apply bind_Ok in Hok as (? & Hq0 & Hok). inv_ok Hq0.
  apply bind_Ok in Hok as (? & Hq1 & Hok). inv_ok Hq1.
  apply bind_Ok in Hok as (? & Hq2 & Hok). inv_ok Hq2.
  apply bind_Ok in Hok as (? & Hq3 & Hok). inv_ok Hq3.
  cbv zeta in Hok. apply bind_Ok in Hok as (s1 & Hq4 & Hok).
  injection Hok as <-.
  apply bytes_length_zero in Hq. apply N.ltb_lt in Hq0, Hq1.
  apply andb_true_iff in Hq2 as [Hl1 Hl2].
  apply Nat.eqb_eq in Hl1, Hl2. apply Nat.leb_le in Hq3.
  repeat split; try done. by exists s1.
Qed.

Lemma joinRoom_Ok roomCode pw e s s' :
  joinRoom roomCode pw e s = Ok s' ->
  code (room s roomCode) <> "" /\
  isActive (room s roomCode) = true /\
  timestamp e < endTime (room s roomCode) /\
  isClosed (room s roomCode) = false /\
  participant s roomCode (sender e) = false /\
  participantCount (room s roomCode) < maxParticipants (room s roomCode) /\
  (hasPassword (room s roomCode) = true ->
   keccak256 pw = passwordHash (room s roomCode)) /\
  s' = joined roomCode e s.
Proof.
  intros Hok. unfold joinRoom, roomActive in Hok.
  apply bind_Ok in Hok as (? & Hex & Hok). inv_ok Hex.
  apply bind_Ok in Hok as (? & Hact & Hok). inv_ok Hact.
  apply bind_Ok in Hok as (? & Hnp & Hok). inv_ok Hnp.
  apply bind_Ok in Hok as (? & Hfull & Hok). inv_ok Hfull.
  apply bind_Ok in Hok as (? & Hpw & Hok).
  apply bind_Ok in Hok as (n & Hn & Hok).
  apply checked_inc_Ok in Hn as [_ ->].
  injection Hok as <-.
  boolp. repeat split; try done.
  intros Hhp. rewrite Hhp in Hpw. inv_ok Hpw. by apply N.eqb_eq in Hpw.
Qed.

Lemma vote_Ok roomCode candidateId ev pf e s s' :
  vote roomCode candidateId ev pf e s = Ok s' ->
  code (room s roomCode) <> "" /\
  participant s roomCode (sender e) = true /\
  voted s roomCode (sender e) = false /\
  isActive (room s roomCode) = true /\
  timestamp e < endTime (room s roomCode) /\
  candidateId < candidateCount (room s roomCode) /\
  exists_ (candidate s roomCode candidateId) = true /\
  exists v, FHE_fromExternal (sender e) ev pf = Some v /\
    s' = voted_for roomCode candidateId v e s.
Proof.
  intros Hok. unfold vote, isRoomParticipant, hasNotVoted in Hok.
  apply bind_Ok in Hok as (? & Hex & Hok). inv_ok Hex.
  apply bind_Ok in Hok as (? & Hp & Hok). inv_ok Hp.
  apply bind_Ok in Hok as (? & Hnv & Hok). inv_ok Hnv.
  apply bind_Ok in Hok as (? & Hact & Hok). inv_ok Hact.
  apply bind_Ok in Hok as (? & Htime & Hok). inv_ok Htime.
  apply bind_Ok in Hok as (? & Hid & Hok). inv_ok Hid.
  apply bind_Ok in Hok as (? & Hexc & Hok). inv_ok Hexc.
  apply bind_Ok in Hok as (v & Hv & Hok).
  apply bind_Ok in Hok as (tv & Htv & Hok).
  apply checked_inc_Ok in Htv as [_ ->].
  apply bind_Ok in Hok as (cv & Hcv & Hok).
  apply checked_inc_Ok in Hcv as [_ ->].
  injection Hok as <-.
  unfold fromExternal in Hv.
  destruct (FHE_fromExternal _ _ _) as [v'|] eqn:Hfe; [|discriminate].
  injection Hv as ->.
  boolp. repeat split; try done. by exists v.
Qed.

(** ** Reading the state after each group of writes *)

Lemma room_store_room rc r s c :
  room (store_room rc r s) c = if decide (rc = c) then r else room s c.
Proof. reads. same_key. Qed.

Lemma room_register_room rc t d m et hp ph e s c :
  room (register_room rc t d m et hp ph e s) c =
  if decide (rc = c)
  then mkRoom rc t d (sender e) m 1 et hp ph true false 0
  else room s c.
Proof. reads. same_key. Qed.

Lemma room_joined rc e s c :
  room (joined rc e s) c =
  if decide (rc = c)
  then close_if_full
         (set_participantCount (participantCount (room s rc) + 1) (room s rc))
  else room s c.
Proof.
  unfold joined, close_if_full. cbv zeta. reads.
  destruct (_ <=? _); reads; same_key.
Qed.

Lemma joined_fields rc e s :
  isParticipant (joined rc e s) = mapping_set2 (isParticipant s) rc (sender e) true /\
  roomCandidates (joined rc e s) = roomCandidates s /\
  hasVoted (joined rc e s) = hasVoted s /\
  totalVotes (joined rc e s) = totalVotes s /\
  candidateVotes (joined rc e s) = candidateVotes s /\
  clearResults (joined rc e s) = clearResults s /\
  resultsPublished (joined rc e s) = resultsPublished s.
Proof. unfold joined. cbv zeta. by destruct (_ <=? _). Qed.

Lemma room_voted_for rc k v e s c :
  room (voted_for rc k v e s) c =
  if decide (rc = c)
  then end_if_all_voted (total_votes s rc + 1) (room s rc)
  else room s c.
Proof.
  unfold voted_for, end_if_all_voted. cbv zeta.
  change (room (store_candidate_votes ?a ?b ?n (store_total_votes ?a' ?m
            (store_voted ?a'' ?x ?y (add_encrypted_vote ?r ?i ?w ?e' ?s0)))) ?c')
    with (room s0 c').
  change (total_votes (store_candidate_votes ?a ?b ?n (store_total_votes ?a' ?m
            (store_voted ?a'' ?x ?y (add_encrypted_vote ?r ?i ?w ?e' ?s0)))) ?c')
    with (mapping_get 0 (<[a' := m]> (totalVotes s0)) c').
  rewrite mapping_get_insert_eq.
  change (total_votes (store_voted ?a'' ?x ?y (add_encrypted_vote ?r ?i ?w ?e' ?s0)) ?c')
    with (total_votes s0 c').
  destruct (_ <=? _).
  - change (room (emit ?ev (emit ?ev' (store_room ?a ?r ?s0))) ?c')
      with (room (store_room a r s0) c').
    rewrite room_store_room. destruct (decide (rc = c)) as [<-|]; reflexivity.
  - destruct (decide (rc = c)) as [<-|]; reflexivity.
Qed.

Lemma voted_for_fields rc k v e s :
  let s' := voted_for rc k v e s in
  hasVoted s' = mapping_set2 (hasVoted s) rc (sender e) true /\
  totalVotes s' = <[rc := total_votes s rc + 1]> (totalVotes s) /\
  candidateVotes s' =
    mapping_set2 (candidateVotes s) rc k (candidate_votes s rc k + 1) /\
  roomCandidates s' =
    mapping_set2 (roomCandidates s) rc k
      (set_votes (FHE_add (votes (candidate s rc k)) v) (candidate s rc k)) /\
  isParticipant s' = isParticipant s /\
  clearResults s' = clearResults s /\ resultsPublished s' = resultsPublished s.
Proof. unfold voted_for. cbv zeta. by destruct (_ <=? _). Qed.

Lemma set_candidateCount_id (r : Room) : set_candidateCount (candidateCount r) r = r.
Proof. by destruct r. Qed.

Lemma set_candidateCount_twice (n m : N) (r : Room) :
  set_candidateCount n (set_candidateCount m r) = set_candidateCount n r.
Proof. done. Qed.

Lemma same_ledger_refl s : same_ledger s s.
Proof. by repeat split. Qed.

Lemma same_ledger_trans s1 s2 s3 :
  same_ledger s1 s2 -> same_ledger s2 s3 -> same_ledger s1 s3.
Proof.
  unfold same_ledger. intros (?&?&?&?&?&?) (?&?&?&?&?&?).
  repeat split; congruence.
Qed.

Lemma push_candidate_reads rc n d u e s s' :
  push_candidate rc n d u e s = Ok s' ->
  (forall c, room s' c =
             if decide (rc = c)
             then set_candidateCount (candidateCount (room s rc) + 1) (room s rc)
             else room s c) /\
  (forall c i, candidate s' c i =
               if decide ((rc, candidateCount (room s rc)) = (c, i))
               then mkCandidate n d u (FHE_asEuint32 0) true
               else candidate s c i) /\
  same_ledger s s'.
Proof.
  intros Hok. apply push_candidate_Ok in Hok as [_ ->].
  split; [|split].
  - intros c. by rewrite room_store_room.
  - intros c i. unfold candidate, store_room, store_candidate.
    cbn [roomCandidates]. destruct (decide _) as [[= <- <-]|Hne].
    + by rewrite mapping_get2_set2_eq.
    + by rewrite mapping_get2_set2_ne.
  - by repeat split.
Qed.

Lemma push_candidates_reads rc ns : forall ds us e s s',
  length ns = length ds -> length ns = length us ->
  push_candidates rc ns ds us e s = Ok s' ->
  (forall c, room s' c =
             if decide (rc = c)
             then set_candidateCount
                    (candidateCount (room s rc) + N.of_nat (length ns)) (room s rc)
             else room s c) /\
  (forall c i, candidate s' c i =
               if decide (rc = c /\ candidateCount (room s rc) <= i
                          < candidateCount (room s rc) + N.of_nat (length ns))
               then nth_candidate ns ds us (N.to_nat (i - candidateCount (room s rc)))
               else candidate s c i) /\
  same_ledger s s'.
Proof.
  induction ns as [|n ns IH]; intros [|d ds] [|u us] e s s' Hl1 Hl2 Hok;
    try discriminate.
  - injection Hok as <-. split; [|split].
    + intros c. destruct (decide _) as [<-|]; [|done].
      cbn [length N.of_nat]. by rewrite N.add_0_r, set_candidateCount_id.
    + intros c i. destruct (decide _) as [(_ & Hlo & Hhi)|]; [|done].
      cbn [length N.of_nat] in Hhi. lia.
    + apply same_ledger_refl.
  - cbn [push_candidates] in Hok. apply bind_Ok in Hok as (s1 & H1 & Hok).
    apply push_candidate_reads in H1 as (Hr1 & Hc1 & Hl).
    injection Hl1 as Hl1. injection Hl2 as Hl2.
    apply IH in Hok as (Hr & Hc & Hl'); [|done..].
    assert (Hcc : candidateCount (room s1 rc) = candidateCount (room s rc) + 1).
    { rewrite Hr1. by destruct (decide _). }
    split; [|split].
    + intros c. rewrite Hr, Hcc, !Hr1.
      destruct (decide (rc = c)) as [<-|]; [|done].
      rewrite decide_True by done.
      rewrite set_candidateCount_twice. f_equal. cbn [length]. lia.
    + intros c i. rewrite Hc, Hc1, Hcc.
      destruct (decide (rc = c)) as [<-|Hne].
      * destruct (decide (candidateCount (room s rc) = i)) as [<-|Hi].
        -- rewrite decide_False by (intros (_ & ? & ?); lia).
           rewrite decide_True by done.
           rewrite decide_True by (cbn [length]; split; [done|lia]).
           by rewrite N.sub_diag.
        -- rewrite (decide_False (P := (_, _) = (_, _))) by congruence.
           cbn [length].
           destruct (decide (rc = rc /\ candidateCount (room s rc) + 1 <= i
                             < candidateCount (room s rc) + 1
                               + N.of_nat (length ns))) as [(_ & Hlo & Hhi)|Hout].
           ++ rewrite decide_True by (split; [done|lia]).
              replace (N.to_nat (i - candidateCount (room s rc)))
                with (S (N.to_nat (i - (candidateCount (room s rc) + 1)))) by lia.
              done.
           ++ rewrite decide_False; [done|].
              intros (_ & ? & ?). apply Hout. split; [done|lia].
      * destruct (decide ((rc, candidateCount (room s rc)) = (c, i)));
          [congruence|].
        by rewrite !decide_False by tauto.
    + by eapply same_ledger_trans.
Qed.

Lemma store_results_reads rc counts : forall i s,
  let s' := store_results rc i counts s in
  rooms s' = rooms s /\ roomCandidates s' = roomCandidates s /\
  hasVoted s' = hasVoted s /\ isParticipant s' = isParticipant s /\
  totalVotes s' = totalVotes s /\ candidateVotes s' = candidateVotes s /\
  resultsPublished s' = resultsPublished s /\
  forall c j, clear_result s' c j =
              if decide (rc = c /\ i <= j < i + N.of_nat (length counts))
              then nth (N.to_nat (j - i)) counts 0
              else clear_result s c j.
Proof.
  induction counts as [|x counts IH]; intros i s; cbv zeta.
  - cbn [store_results]. repeat split. intros c j.
    rewrite decide_False; [done|]. cbn [length N.of_nat]. intros (_ & ? & ?). lia.
  - cbn [store_results].
    destruct (IH (i + 1) (store_clear_result rc i x s))
      as (H1 & H2 & H3 & H4 & H5 & H6 & H7 & H8).
    repeat split; try done. intros c j. rewrite H8.
    assert (Hbase : clear_result (store_clear_result rc i x s) c j =
                    if decide ((rc, i) = (c, j)) then x else clear_result s c j).
    { unfold clear_result, store_clear_result. cbn [clearResults].
      destruct (decide _) as [[= <- <-]|Hne].
      - by rewrite mapping_get2_set2_eq.
      - by rewrite mapping_get2_set2_ne. }
    rewrite Hbase. cbn [length].
    destruct (decide (rc = c)) as [<-|Hne].
    + destruct (decide (i = j)) as [<-|Hij].
      * rewrite decide_False by (intros (_ & ? & ?); lia).
        rewrite decide_True by done.
        rewrite decide_True by (split; [done|lia]).
        by rewrite N.sub_diag.
      * rewrite (decide_False (P := (_, _) = (_, _))) by congruence.
        destruct (decide (rc = rc /\ i + 1 <= j < i + 1 + N.of_nat (length counts)))
          as [(_ & Hlo & Hhi)|Hout].
        -- rewrite decide_True by (split; [done|lia]).
           replace (N.to_nat (j - i)) with (S (N.to_nat (j - (i + 1)))) by lia.
           done.
        -- rewrite decide_False; [done|].
           intros (_ & ? & ?). apply Hout. split; [done|lia].
    + destruct (decide ((rc, i) = (c, j))); [congruence|].
      by rewrite !decide_False by tauto.
Qed.

(** ** Every transaction is a step *)

Lemma call_step c e s s' : call c e s = Ok s' -> step s s'.
Proof.
  destruct c; cbn [call]; intros Hok.
  - apply createRoom_Ok in Hok as (? & ? & ? & ->). by apply step_createRoom.
  - apply createRoomWithCandidatesBatch_Ok in Hok
      as (? & ? & ? & ? & ? & ? & s1 & ? & ->).
    by apply (step_createBatch s roomCode title_ description_ maxParticipants_
                endTime_ hasPassword_ passwordHash_ candidateNames
                candidateDescriptions candidateImageUrls e s1).
  - apply addCandidate_Ok in Hok as (? & ? & ? & Hp).
    apply (step_addCandidates s roomCode [name_] [description_] [imageUrl_] e);
      try done.
    cbn [push_candidates]. rewrite Hp. done.
  - apply addCandidatesBatch_Ok in Hok as (? & ? & ? & ? & ? & ? & ?).
    by apply (step_addCandidates s roomCode names descriptions imageUrls e s').
  - apply joinRoom_Ok in Hok as (? & ? & ? & ? & ? & ? & ? & ->).
    by apply step_joinRoom.
  - apply vote_Ok in Hok as (? & ? & ? & ? & ? & ? & ? & v & ? & ->).
    by apply step_vote.
  - apply endRoom_Ok in Hok as (? & ? & ? & ->). by apply step_end.
  - apply checkAndEndRoom_Ok in Hok as (? & ? & ? & ->). by apply step_end.
  - apply publishResults_Ok in Hok as (? & ? & ? & ? & ->). by apply (step_publish s roomCode candidateVoteCounts e).
Qed.

Lemma exec_step s tx : step s (exec s tx).
Proof.
  unfold exec. destruct (call _ _ _) eqn:Hc.
  - by eapply call_step.
  - constructor.
Qed.

(** Facts that hold along every run follow from the single step. *)
Lemma run_ind (P : State -> State -> Prop) :
  (forall s, P s s) ->
  (forall s1 s2 s3, P s1 s2 -> step s2 s3 -> P s1 s3) ->
  forall txs s, P s (run s txs).
Proof.
  intros Hrefl Hstep txs. induction txs as [|tx txs IH] using rev_ind; intros s.
  - apply Hrefl.
  - unfold run. rewrite fold_left_app. cbn [fold_left].
    eapply Hstep; [apply IH|apply exec_step].
Qed.

Lemma run_app s txs1 txs2 : run s (txs1 ++ txs2) = run (run s txs1) txs2.
Proof. unfold run. apply fold_left_app. Qed.

(** ** One transaction seen from one room record *)

Lemma room_emit ev s c : room (emit ev s) c = room s c.
Proof. done. Qed.

Lemma room_published rc counts s c :
  room (store_published rc true (store_results rc 0 counts s)) c = room s c.
Proof.
  destruct (store_results_reads rc counts 0 s) as (Hr & _).
  unfold room, store_published. cbn [rooms]. by rewrite Hr.
Qed.

Lemma step_room_step s s' c : step s s' -> room_step c (room s c) (room s' c).
Proof.
  intros [ | rc t d m et hp ph e Hc Ht Hm
           | rc t d m et hp ph ns ds us e s1 Hc Ht Hm Hl1 Hl2 Hn Hp
           | rc ns ds us e s1 Hc Hs Ha Hl1 Hl2 Hp
           | rc e Hc Ha Ht Hcl Hnp Hfull
           | rc k v e Hc Hpa Hnv Ha Ht Hk
           | rc Hc Ha
           | rc counts e Hc Hs Ha Hl ].
  - constructor.
  - rewrite room_emit, room_register_room.
    destruct (decide (rc = c)) as [<-|]; [by apply rs_create|constructor].
  - rewrite room_emit.
    apply push_candidates_reads in Hp as (Hr & _ & _); [|done..].
    rewrite Hr, !room_register_room.
    destruct (decide (rc = c)) as [<-|]; [|constructor].
    rewrite decide_True by done. by apply rs_create.
  - apply push_candidates_reads in Hp as (Hr & _ & _); [|done..].
    rewrite Hr. destruct (decide (rc = c)) as [<-|]; [|constructor].
    apply rs_candidates; [done..|lia].
  - rewrite room_joined.
    destruct (decide (rc = c)) as [<-|]; [by apply rs_join|constructor].
  - rewrite room_voted_for.
    destruct (decide (rc = c)) as [<-|]; [|constructor].
    unfold end_if_all_voted. destruct (_ <=? _); [by apply rs_end|constructor].
  - rewrite room_emit, room_store_room.
    destruct (decide (rc = c)) as [<-|]; [by apply rs_end|constructor].
  - rewrite room_emit, room_published. constructor.
Qed.

Lemma room_step_identity c r r' :
  room_step c r r' -> code r <> "" -> same_identity r r'.
Proof.
  intros [ | | | | ] Hex; unfold same_identity, close_if_full;
    try destruct (_ <=? _); try done.
Qed.

Lemma room_step_inactive c r r' :
  room_step c r r' -> code r <> "" -> isActive r = false -> isActive r' = false.
Proof. intros [ | | | | ] Hex Hin; try done; congruence. Qed.

Lemma room_step_candidateCount c r r' :
  room_step c r r' -> code r <> "" -> candidateCount r <= candidateCount r'.
Proof.
  intros [ | | | | ] Hex; unfold close_if_full; try destruct (_ <=? _);
    try done; cbn; lia.
Qed.

Lemma room_step_bound c r r' :
  room_step c r r' ->
  participantCount r <= maxParticipants r ->
  participantCount r' <= maxParticipants r'.
Proof.
  intros [ | | | | ] Hle; unfold close_if_full; try destruct (_ <=? _);
    try done; cbn; lia.
Qed.

(** ** Monotone flags *)

Lemma step_participant s s' c a :
  step s s' -> participant s c a = true -> participant s' c a = true.
Proof.
  intros [ | rc t d m et hp ph e Hc Ht Hm
           | rc t d m et hp ph ns ds us e s1 Hc Ht Hm Hl1 Hl2 Hn Hp
           | rc ns ds us e s1 Hc Hs Ha Hl1 Hl2 Hp
           | rc e Hc Ha Ht Hcl Hnp Hfull
           | rc k v e Hc Hpa Hnv Ha Ht Hk
           | rc Hc Ha
           | rc counts e Hc Hs Ha Hl ] Hin; try done.
  - unfold participant, emit, register_room, store_room, store_participant.
    cbn [isParticipant].
    destruct (decide ((rc, sender e) = (c, a))) as [[= <- <-]|Hne].
    + by rewrite mapping_get2_set2_eq.
    + by rewrite mapping_get2_set2_ne.
  - apply push_candidates_reads in Hp as (_ & _ & _ & Hip & _); [|done..].
    unfold participant, emit. cbn [isParticipant]. rewrite Hip.
    unfold register_room, store_room, store_participant. cbn [isParticipant].
    destruct (decide ((rc, sender e) = (c, a))) as [[= <- <-]|Hne].
    + by rewrite mapping_get2_set2_eq.
    + by rewrite mapping_get2_set2_ne.
  - apply push_candidates_reads in Hp as (_ & _ & _ & Hip & _); [|done..].
    unfold participant. by rewrite Hip.
  - destruct (joined_fields rc e s) as (Hip & _).
    unfold participant. rewrite Hip.
    destruct (decide ((rc, sender e) = (c, a))) as [[= <- <-]|Hne].
    + by rewrite mapping_get2_set2_eq.
    + by rewrite mapping_get2_set2_ne.
  - destruct (voted_for_fields rc k v e s) as (_ & _ & _ & _ & Hip & _).
    unfold participant. by rewrite Hip.
  - destruct (store_results_reads rc counts 0 s) as (_ & _ & _ & Hip & _).
    unfold participant, emit, store_published. cbn [isParticipant]. by rewrite Hip.
Qed.

Lemma step_voted s s' c a :
  step s s' -> voted s c a = true -> voted s' c a = true.
Proof.
  intros [ | rc t d m et hp ph e Hc Ht Hm
           | rc t d m et hp ph ns ds us e s1 Hc Ht Hm Hl1 Hl2 Hn Hp
           | rc ns ds us e s1 Hc Hs Ha Hl1 Hl2 Hp
           | rc e Hc Ha Ht Hcl Hnp Hfull
           | rc k v e Hc Hpa Hnv Ha Ht Hk
           | rc Hc Ha
           | rc counts e Hc Hs Ha Hl ] Hin; try done.
  - apply push_candidates_reads in Hp as (_ & _ & Hhv & _); [|done..].
    unfold voted, emit. cbn [hasVoted]. by rewrite Hhv.
  - apply push_candidates_reads in Hp as (_ & _ & Hhv & _); [|done..].
    unfold voted. by rewrite Hhv.
  - destruct (joined_fields rc e s) as (_ & _ & Hhv & _).
    unfold voted. by rewrite Hhv.
  - destruct (voted_for_fields rc k v e s) as (Hhv & _).
    unfold voted. rewrite Hhv.
    destruct (decide ((rc, sender e) = (c, a))) as [[= <- <-]|Hne].
    + by rewrite mapping_get2_set2_eq.
    + by rewrite mapping_get2_set2_ne.
  - destruct (store_results_reads rc counts 0 s) as (_ & _ & Hhv & _).
    unfold voted, emit, store_published. cbn [hasVoted]. by rewrite Hhv.
Qed.

(** ** Facts along runs *)

Lemma step_identity s s' c :
  step s s' -> code (room s c) <> "" -> same_identity (room s c) (room s' c).
Proof. intros Hst. eapply room_step_identity, step_room_step, Hst. Qed.

Lemma step_exists s s' c :
  step s s' -> code (room s c) <> "" -> code (room s' c) <> "".
Proof. intros Hst Hex. destruct (step_identity s s' c Hst Hex) as (-> & _). done. Qed.

Lemma step_inactive s s' c :
  step s s' -> code (room s c) <> "" -> isActive (room s c) = false ->
  isActive (room s' c) = false.
Proof. intros Hst. eapply room_step_inactive, step_room_step, Hst. Qed.

Lemma run_exists s txs c :
  code (room s c) <> "" -> code (room (run s txs) c) <> "".
Proof.
  revert txs s. apply (run_ind (fun s s' => code (room s c) <> "" ->
                                            code (room s' c) <> "")).
  - done.
  - intros s1 s2 s3 H12 H23 Hex. eapply step_exists; eauto.
Qed.

Lemma run_identity s txs c :
  code (room s c) <> "" -> same_identity (room s c) (room (run s txs) c).
Proof.
  revert txs s. apply (run_ind (fun s s' => code (room s c) <> "" ->
                                            same_identity (room s c) (room s' c))).
  - intros s _. by repeat split.
  - intros s1 s2 s3 H12 H23 Hex. specialize (H12 Hex).
    assert (Hex2 : code (room s2 c) <> "") by (destruct H12 as (-> & _); done).
    pose proof (step_identity s2 s3 c H23 Hex2) as H.
    unfold same_identity in *.
    destruct H12 as (?&?&?&?&?&?&?&?), H as (?&?&?&?&?&?&?&?).
    repeat split; congruence.
Qed.

Lemma run_inactive s txs c :
  code (room s c) <> "" -> isActive (room s c) = false ->
  isActive (room (run s txs) c) = false.
Proof.
  revert txs s.
  apply (run_ind (fun s s' => code (room s c) <> "" -> isActive (room s c) = false ->
                              code (room s' c) <> "" /\ isActive (room s' c) = false)).
  - done.
  - intros s1 s2 s3 H12 H23 Hex Hin. destruct (H12 Hex Hin) as [Hex2 Hin2].
    split; [by eapply step_exists|by eapply step_inactive].
Qed.

Lemma run_participant s txs c a :
  participant s c a = true -> participant (run s txs) c a = true.
Proof.
  revert txs s. apply (run_ind (fun s s' => participant s c a = true ->
                                            participant s' c a = true)).
  - done.
  - intros s1 s2 s3 H12 H23 Hp. eapply step_participant; eauto.
Qed.

Lemma run_voted s txs c a :
  voted s c a = true -> voted (run s txs) c a = true.
Proof.
  revert txs s. apply (run_ind (fun s s' => voted s c a = true ->
                                            voted s' c a = true)).
  - done.
  - intros s1 s2 s3 H12 H23 Hp. eapply step_voted; eauto.
Qed.

(** ** Rejected calls *)

Lemma exec_Revert s e c r : call c e s = Revert r -> exec s (mkTx e c) = s.
Proof. unfold exec. cbn [tx_call tx_env]. by intros ->. Qed.

Lemma exec_Ok s e c s' : call c e s = Ok s' -> exec s (mkTx e c) = s'.
Proof. unfold exec. cbn [tx_call tx_env]. by intros ->. Qed.

Lemma roomExists_pass {B : Type} rc s (k : unit -> result B)
    (Hex : code (room s rc) <> "") :
  (roomExists rc s ≫= k) = k tt.
Proof.
  unfold roomExists. apply bytes_length_pos in Hex. by rewrite Hex.
Qed.

Lemma vote_Revert_voted rc k ev pf e s :
  code (room s rc) <> "" -> participant s rc (sender e) = true ->
  voted s rc (sender e) = true ->
  vote rc k ev pf e s = Revert "Already voted in this room".
Proof.
  intros Hex Hp Hv. unfold vote. rewrite roomExists_pass by done.
  unfold isRoomParticipant, hasNotVoted. by rewrite Hp, Hv.
Qed.

Lemma vote_Revert_inactive rc k ev pf e s :
  isActive (room s rc) = false -> is_revert (vote rc k ev pf e s) = true.
Proof.
  intros Hin. unfold vote, roomExists, isRoomParticipant, hasNotVoted.
  rewrite Hin.
  destruct (0 <? _); [|done]. destruct (participant _ _ _); [|done].
  by destruct (voted _ _ _).
Qed.

(** ** Voting *)

(** [C1] Once an identity has voted successfully in a room, every later
    [vote] call by that identity on that room, after any sequence of
    intervening transactions, reverts with "Already voted in this room",
    and the reverted transaction leaves the state, hence [totalVotes] of
    the room and every [candidateVotes] entry of the room, as it was. *)
Theorem vote_at_most_once rc k ev pf e s s1 txs e2 k2 ev2 pf2 :
  vote rc k ev pf e s = Ok s1 ->
  sender e2 = sender e ->
  let s2 := run s1 txs in
  let s3 := exec s2 (mkTx e2 (Vote rc k2 ev2 pf2)) in
  vote rc k2 ev2 pf2 e2 s2 = Revert "Already voted in this room" /\
  s3 = s2 /\
  total_votes s3 rc = total_votes s2 rc /\
  forall i, candidate_votes s3 rc i = candidate_votes s2 rc i.
Proof.
  intros Hok Hsame s2 s3.
  apply vote_Ok in Hok as (Hex & Hp & _ & _ & _ & _ & _ & v & _ & ->).
  assert (Hrev : vote rc k2 ev2 pf2 e2 s2 = Revert "Already voted in this room").
  { apply vote_Revert_voted; subst s2; rewrite ?Hsame.
    - apply run_exists. rewrite room_voted_for, decide_True by done.
      unfold end_if_all_voted. by destruct (_ <=? _).
    - apply run_participant.
      destruct (voted_for_fields rc k v e s) as (_ & _ & _ & _ & Hip & _).
      unfold participant. by rewrite Hip.
    - apply run_voted.
      destruct (voted_for_fields rc k v e s) as (Hhv & _).
      unfold voted. by rewrite Hhv, mapping_get2_set2_eq. }
  assert (Hs3 : s3 = s2) by (subst s3; by eapply exec_Revert).
  rewrite Hs3. done.
Qed.

(** [C2] When a successful [vote] brings [totalVotes] of the room to at
    least [maxParticipants], the state it returns already has [isActive]
    false, and every [vote] call on that room after any later sequence of
    transactions reverts. *)
Theorem vote_auto_close rc k ev pf e s s1 :
  vote rc k ev pf e s = Ok s1 ->
  maxParticipants (room s1 rc) <= total_votes s1 rc ->
  isActive (room s1 rc) = false /\
  forall txs e2 k2 ev2 pf2,
    is_revert (vote rc k2 ev2 pf2 e2 (run s1 txs)) = true.
Proof.
  intros Hok Hfull.
  apply vote_Ok in Hok as (Hex & _ & _ & _ & _ & _ & _ & v & _ & ->).
  destruct (voted_for_fields rc k v e s) as (_ & Htv & _).
  assert (Htot : total_votes (voted_for rc k v e s) rc = total_votes s rc + 1).
  { unfold total_votes at 1. by rewrite Htv, mapping_get_insert_eq. }
  rewrite Htot in Hfull.
  rewrite room_voted_for, decide_True in Hfull |- * by done.
  unfold end_if_all_voted in *.
  destruct (N.leb_spec (maxParticipants (room s rc)) (total_votes s rc + 1))
    as [Hle|Hgt]; [|lia].
  split; [done|]. intros txs e2 k2 ev2 pf2.
  apply vote_Revert_inactive, run_inactive.
  - rewrite room_voted_for, decide_True by done.
    unfold end_if_all_voted. by destruct (_ <=? _).
  - rewrite room_voted_for, decide_True by done.
    unfold end_if_all_voted. apply N.leb_le in Hle. by rewrite Hle.
Qed.

(** ** Capacity *)

Lemma room_init c : room init c = zero_room.
Proof. unfold room, init. cbn [rooms]. apply mapping_get_empty. Qed.

(** [C4] In every state reached from the empty contract, every room has
    [participantCount <= maxParticipants]; and every transaction, whatever
    the call it carries, preserves the bound of every room. *)
Theorem participantCount_le_maxParticipants :
  (forall txs c,
     participantCount (room (run init txs) c)
     <= maxParticipants (room (run init txs) c)) /\
  (forall s tx c,
     participantCount (room s c) <= maxParticipants (room s c) ->
     participantCount (room (exec s tx) c) <= maxParticipants (room (exec s tx) c)).
Proof.
  assert (Hstep : forall s s' c, step s s' ->
            participantCount (room s c) <= maxParticipants (room s c) ->
            participantCount (room s' c) <= maxParticipants (room s' c)).
  { intros s s' c Hst. eapply room_step_bound, step_room_step, Hst. }
  split.
  - intros txs c.
    pose proof (run_ind (fun s s' =>
      participantCount (room s c) <= maxParticipants (room s c) ->
      participantCount (room s' c) <= maxParticipants (room s' c))) as Hrun.
    apply Hrun.
    + done.
    + intros s1 s2 s3 H12 H23 H1. eapply Hstep; eauto.
    + by rewrite room_init.
  - intros s tx c. apply Hstep, exec_step.
Qed.

Lemma room_step_closed c r r' :
  room_step c r r' -> closed_consistent r -> closed_consistent r'.
Proof.
  unfold closed_consistent.
  intros [ | | | | ] (Hcf & Hfc & Hle); try done.
  - cbn. repeat split; intros; try congruence; lia.
  - unfold close_if_full. cbn.
    destruct (N.leb_spec (maxParticipants r) (participantCount r + 1)); cbn;
      repeat split; intros; try congruence; lia.
Qed.

Lemma closed_consistent_reachable txs c :
  closed_consistent (room (run init txs) c).
Proof.
  pose proof (run_ind (fun s s' => closed_consistent (room s c) ->
                                   closed_consistent (room s' c))) as Hrun.
  apply Hrun.
  - done.
  - intros s1 s2 s3 H12 H23 H1.
    eapply room_step_closed; [eapply step_room_step, H23|by apply H12].
  - rewrite room_init. unfold closed_consistent. cbn. repeat split; (done || lia).
Qed.

(** ** Room lifetime *)

Lemma endRoom_Revert_inactive rc e s :
  isActive (room s rc) = false -> is_revert (endRoom rc e s) = true.
Proof.
  intros Hin. unfold endRoom, roomExists. rewrite Hin.
  destruct (0 <? _); [|done]. by destruct (_ =? _).
Qed.

Lemma checkAndEndRoom_Revert_ended rc e s :
  code (room s rc) <> "" -> isActive (room s rc) = false ->
  checkAndEndRoom rc e s = Revert "Room already ended".
Proof.
  intros Hex Hin. unfold checkAndEndRoom. rewrite roomExists_pass by done.
  by rewrite Hin.
Qed.

Lemma checkAndEndRoom_Revert_inactive rc e s :
  isActive (room s rc) = false -> is_revert (checkAndEndRoom rc e s) = true.
Proof.
  intros Hin. unfold checkAndEndRoom, roomExists. rewrite Hin.
  by destruct (0 <? _).
Qed.

Lemma flags_ended s txs c :
  code (room s c) <> "" -> isActive (room s c) = false ->
  falls (flags s txs c) = 0%nat /\ rises (flags s txs c) = 0%nat.
Proof.
  unfold flags. cbn [falls rises].
  revert s. induction txs as [|tx txs IH]; intros s Hex Hin; [done|].
  pose proof (exec_step s tx) as Hst.
  pose proof (step_exists _ _ c Hst Hex) as Hex'.
  pose proof (step_inactive _ _ c Hst Hex Hin) as Hin'.
  destruct (IH _ Hex' Hin') as [Hf Hr].
  cbn [flags_after falls_from rises_from]. rewrite Hf, Hr, Hin, Hin'. done.
Qed.

Lemma step_active_or_exists s s' c :
  step s s' -> isActive (room s c) = true ->
  isActive (room s' c) = true \/
  (code (room s' c) <> "" /\ isActive (room s' c) = false).
Proof.
  intros Hst Hact. pose proof (step_room_step s s' c Hst) as Hrs.
  destruct Hrs; unfold close_if_full; try destruct (_ <=? _); cbn; auto.
Qed.

Lemma flags_active s txs c :
  isActive (room s c) = true ->
  (falls (flags s txs c) <= 1)%nat /\ rises (flags s txs c) = 0%nat.
Proof.
  unfold flags. cbn [falls rises].
  revert s. induction txs as [|tx txs IH]; intros s Hact; [cbn; lia|].
  pose proof (exec_step s tx) as Hst.
  cbn [flags_after falls_from rises_from].
  destruct (step_active_or_exists _ _ c Hst Hact) as [Hact'|[Hex' Hin']].
  - destruct (IH _ Hact') as [Hf Hr]. rewrite Hact, Hact' in *. cbn. lia.
  - destruct (flags_ended (exec s tx) txs c Hex' Hin') as [Hf Hr].
    unfold flags in Hf, Hr. cbn [falls rises] in Hf, Hr.
    rewrite Hact, Hin' in *. cbn. lia.
Qed.

Lemma flags_falls s txs c : (falls (flags s txs c) <= 1)%nat.
Proof.
  revert s. induction txs as [|tx txs IH]; intros s; [cbn; lia|].
  destruct (isActive (room s c)) eqn:Hact.
  - by apply flags_active.
  - specialize (IH (exec s tx)). unfold flags in *. cbn [falls] in *.
    cbn [flags_after falls_from]. rewrite Hact. cbn [andb]. lia.
Qed.

(** [C6] Along every sequence of transactions, from any state, the
    [isActive] flag of a room goes from true to false at most once; once it
    has been true it never goes from false to true, and no transaction
    reactivates an ended room; and [vote], [endRoom] and [checkAndEndRoom]
    each revert on a room whose [isActive] is false. *)
Theorem isActive_falls_once s txs c :
  (falls (flags s txs c) <= 1)%nat /\
  (isActive (room s c) = true -> rises (flags s txs c) = 0%nat) /\
  (code (room s c) <> "" -> isActive (room s c) = false ->
   isActive (room (run s txs) c) = false) /\
  (isActive (room s c) = false ->
   forall e k ev pf,
     is_revert (vote c k ev pf e s) = true /\
     is_revert (endRoom c e s) = true /\
     is_revert (checkAndEndRoom c e s) = true).
Proof.
  split; [apply flags_falls|]. split; [intros Hact; by apply flags_active|].
  split; [apply run_inactive|].
  intros Hin e k ev pf.
  split; [by apply vote_Revert_inactive|].
  split; [by apply endRoom_Revert_inactive|by apply checkAndEndRoom_Revert_inactive].
Qed.

(** [C7] On an existing active room [checkAndEndRoom], whoever sends it,
    reverts with "Room has not ended yet" while the timestamp is before
    [endTime], and from [endTime] on it succeeds and leaves [isActive]
    false; after that every [checkAndEndRoom] on the room, after any
    sequence of transactions, reverts with "Room already ended". *)
Theorem checkAndEndRoom_after_endTime rc e s :
  code (room s rc) <> "" -> isActive (room s rc) = true ->
  (timestamp e < endTime (room s rc) ->
   checkAndEndRoom rc e s = Revert "Room has not ended yet") /\
  (endTime (room s rc) <= timestamp e ->
   exists s', checkAndEndRoom rc e s = Ok s' /\
     isActive (room s' rc) = false /\
     forall txs e', checkAndEndRoom rc e' (run s' txs) = Revert "Room already ended").
Proof.
  intros Hex Hact. split.
  - intros Hlt. unfold checkAndEndRoom. rewrite roomExists_pass by done.
    rewrite Hact. apply N.leb_gt in Hlt. by rewrite Hlt.
  - intros Hge. eexists. split.
    + unfold checkAndEndRoom. rewrite roomExists_pass by done.
      rewrite Hact. apply N.leb_le in Hge. rewrite Hge. reflexivity.
    + cbv zeta. rewrite room_emit, room_store_room, decide_True by done.
      split; [done|]. intros txs e'.
      assert (Hex1 : code (room (emit (RoomEnded rc)
                (store_room rc (set_isActive false (room s rc)) s)) rc) <> "").
      { by rewrite room_emit, room_store_room, decide_True by done. }
      apply checkAndEndRoom_Revert_ended.
      * by apply run_exists.
      * apply run_inactive; [done|].
        by rewrite room_emit, room_store_room, decide_True by done.
Qed.

(** ** Joining *)

Lemma joinRoom_gates rc pw e s m :
  joinRoom_first_failure rc pw e s = Some m -> joinRoom rc pw e s = Revert m.
Proof.
  unfold joinRoom_first_failure, joinRoom, roomActive. cbv zeta.
  destruct (decide (code (room s rc) = "")) as [Hno|Hex].
  { intros [= <-]. unfold roomExists. by rewrite Hno. }
  rewrite roomExists_pass by done.
  destruct (isActive (room s rc)); [|by intros [= <-]].
  destruct (timestamp e <? endTime (room s rc)); [|by intros [= <-]].
  destruct (isClosed (room s rc)); [by intros [= <-]|].
  destruct (participant s rc (sender e)); [by intros [= <-]|].
  destruct (participantCount (room s rc) <? maxParticipants (room s rc));
    [|by intros [= <-]].
  destruct (hasPassword (room s rc)); [|done].
  destruct (keccak256 pw =? passwordHash (room s rc)); [done|].
  by intros [= <-].
Qed.

Lemma joinRoom_passed rc pw e s :
  joinRoom_first_failure rc pw e s = None ->
  joinRoom rc pw e s <> Revert "Invalid password".
Proof.
  unfold joinRoom_first_failure, joinRoom, roomActive. cbv zeta.
  destruct (decide (code (room s rc) = "")) as [Hno|Hex]; [done|].
  rewrite roomExists_pass by done.
  destruct (isActive (room s rc)); [|done].
  destruct (timestamp e <? endTime (room s rc)); [|done].
  destruct (isClosed (room s rc)); [done|].
  destruct (participant s rc (sender e)); [done|].
  destruct (participantCount (room s rc) <? maxParticipants (room s rc)); [|done].
  intros Hpw.
  assert (Hgate : (if hasPassword (room s rc)
                   then require (keccak256 pw =? passwordHash (room s rc))
                          "Invalid password"
                   else mret tt) = Ok tt).
  { destruct (hasPassword (room s rc)); [|done].
    by destruct (keccak256 pw =? passwordHash (room s rc)). }
  cbn [require mbind result_mbind result_bind]. rewrite Hgate.
  cbn [mbind result_mbind result_bind].
  unfold checked_inc. by destruct (_ <? uint256_max).
Qed.

(** [C5] [joinRoom] reverts with "Invalid password" exactly when the room
    exists, is active, has not reached [endTime], is not closed, the caller
    is not yet a participant, the room is not full, it has a password, and
    the hash of the supplied password differs from the stored one.  The
    gates are tried in the order existence, active / time / closed,
    already-participant, capacity, password: the call reverts with the
    message of the first gate it fails.  A reverted call leaves the state,
    hence [participantCount], unchanged. *)
Theorem joinRoom_invalid_password rc pw e s :
  (joinRoom rc pw e s = Revert "Invalid password" <->
   code (room s rc) <> "" /\
   isActive (room s rc) = true /\
   timestamp e < endTime (room s rc) /\
   isClosed (room s rc) = false /\
   participant s rc (sender e) = false /\
   participantCount (room s rc) < maxParticipants (room s rc) /\
   hasPassword (room s rc) = true /\
   keccak256 pw <> passwordHash (room s rc)) /\
  (forall m, joinRoom_first_failure rc pw e s = Some m ->
             joinRoom rc pw e s = Revert m) /\
  (forall m, joinRoom rc pw e s = Revert m ->
             exec s (mkTx e (JoinRoom rc pw)) = s /\
             participantCount (room (exec s (mkTx e (JoinRoom rc pw))) rc)
             = participantCount (room s rc)).
Proof.
  split; [|split].
  - split.
    + intros Hrev.
      destruct (joinRoom_first_failure rc pw e s) as [m|] eqn:Hff.
      * pose proof (joinRoom_gates _ _ _ _ _ Hff) as Hm.
        rewrite Hm in Hrev. injection Hrev as ->.
        unfold joinRoom_first_failure in Hff. cbv zeta in Hff.
        destruct (decide (code (room s rc) = "")); [discriminate|].
        destruct (isActive (room s rc)); [|discriminate].
        destruct (N.ltb_spec (timestamp e) (endTime (room s rc))); [|discriminate].
        destruct (isClosed (room s rc)); [discriminate|].
        destruct (participant s rc (sender e)); [discriminate|].
        destruct (N.ltb_spec (participantCount (room s rc))
                             (maxParticipants (room s rc))); [|discriminate].
        destruct (hasPassword (room s rc)); [|discriminate].
        destruct (N.eqb_spec (keccak256 pw) (passwordHash (room s rc)));
          [discriminate|].
        done.
      * by apply joinRoom_passed in Hff.
    + intros (Hex & Ha & Ht & Hc & Hp & Hf & Hhp & Hne).
      apply joinRoom_gates. unfold joinRoom_first_failure. cbv zeta.
      rewrite decide_False by done. rewrite Ha, Hc, Hp, Hhp.
      apply N.ltb_lt in Ht, Hf. apply N.eqb_neq in Hne.
      by rewrite Ht, Hf, Hne.
  - intros m. apply joinRoom_gates.
  - intros m Hrev.
    assert (Hs : exec s (mkTx e (JoinRoom rc pw)) = s)
      by (by eapply exec_Revert).
    by rewrite Hs.
Qed.

(** ** Publishing results *)

Lemma publishResults_pass rc counts e s :
  code (room s rc) <> "" -> sender e = creator (room s rc) ->
  isActive (room s rc) = false ->
  N.of_nat (length counts) = candidateCount (room s rc) ->
  publishResults rc counts e s =
  Ok (emit (ResultsPublished rc)
        (store_published rc true (store_results rc 0 counts s))).
Proof.
  intros Hex Hcr Hin Hlen. unfold publishResults.
  rewrite roomExists_pass by done.
  rewrite Hcr, Hin, Hlen, !N.eqb_refl. done.
Qed.

Lemma getClearResults_published rc counts s i :
  code (room s rc) <> "" ->
  N.of_nat (length counts) = candidateCount (room s rc) ->
  i < candidateCount (room s rc) ->
  getClearResults rc i
    (emit (ResultsPublished rc)
       (store_published rc true (store_results rc 0 counts s)))
  = Ok (nth (N.to_nat i) counts 0).
Proof.
  intros Hex Hlen Hi. unfold getClearResults.
  rewrite roomExists_pass by (by rewrite room_emit, room_published).
  rewrite room_emit, room_published.
  destruct (store_results_reads rc counts 0 s) as (_ & _ & _ & _ & _ & _ & _ & Hcr).
  replace (published _ rc) with true
    by (unfold published, emit, store_published; cbn [resultsPublished];
        by rewrite mapping_get_insert_eq).
  apply N.ltb_lt in Hi as Hi'. rewrite Hi'.
  cbn [require mbind result_mbind result_bind mret result_mret].
  f_equal.
  change (clear_result (emit ?ev (store_published ?a ?b ?s0)) ?c ?j)
    with (clear_result s0 c j).
  rewrite Hcr, decide_True by (split; [done|lia]).
  by rewrite N.sub_0_r.
Qed.

(** [C8] [publishResults] reverts when the caller is not the creator, when
    the room is still active, and when the array length differs from
    [candidateCount].  For an existing ended room, the creator and an array
    of the right length it succeeds whatever the numbers are: afterwards
    [resultsPublished] is set and [getClearResults] returns the supplied
    number at every candidate index, and a second call with other numbers
    succeeds likewise and replaces them. *)
Theorem publishResults_stores rc counts e s :
  (sender e <> creator (room s rc) ->
   is_revert (publishResults rc counts e s) = true) /\
  (isActive (room s rc) = true ->
   is_revert (publishResults rc counts e s) = true) /\
  (N.of_nat (length counts) <> candidateCount (room s rc) ->
   is_revert (publishResults rc counts e s) = true) /\
  (code (room s rc) <> "" -> sender e = creator (room s rc) ->
   isActive (room s rc) = false ->
   N.of_nat (length counts) = candidateCount (room s rc) ->
   exists s',
     publishResults rc counts e s = Ok s' /\
     published s' rc = true /\
     (forall i, i < candidateCount (room s rc) ->
                getClearResults rc i s' = Ok (nth (N.to_nat i) counts 0)) /\
     forall counts2,
       N.of_nat (length counts2) = candidateCount (room s rc) ->
       exists s'',
         publishResults rc counts2 e s' = Ok s'' /\
         published s'' rc = true /\
         forall i, i < candidateCount (room s rc) ->
                   getClearResults rc i s'' = Ok (nth (N.to_nat i) counts2 0)).
Proof.
  split; [|split; [|split]].
  - intros Hne. unfold publishResults, roomExists.
    destruct (0 <? _); [|done]. apply N.eqb_neq in Hne. by rewrite Hne.
  - intros Hact. unfold publishResults, roomExists.
    destruct (0 <? _); [|done].
    destruct (sender e =? creator (room s rc)); [|done]. by rewrite Hact.
  - intros Hne. unfold publishResults, roomExists.
    destruct (0 <? _); [|done].
    destruct (sender e =? creator (room s rc)); [|done].
    destruct (negb _); [|done]. apply N.eqb_neq in Hne. by rewrite Hne.
  - intros Hex Hcr Hin Hlen.
    assert (Hpub : forall cs st, published (emit (ResultsPublished rc)
              (store_published rc true (store_results rc 0 cs st))) rc = true).
    { intros cs st. unfold published, emit, store_published.
      cbn [resultsPublished]. by rewrite mapping_get_insert_eq. }
    eexists. split; [by apply publishResults_pass|].
    split; [apply Hpub|]. split.
    + intros i Hi. by apply getClearResults_published.
    + intros counts2 Hlen2.
      set (s' := emit (ResultsPublished rc)
                   (store_published rc true (store_results rc 0 counts s))).
      assert (Hroom : room s' rc = room s rc)
        by (subst s'; by rewrite room_emit, room_published).
      eexists. split; [|split].
      * apply publishResults_pass; by rewrite Hroom.
      * apply Hpub.
      * intros i Hi. rewrite <- Hroom in Hi, Hlen2, Hex.
        by apply getClearResults_published.
Qed.

(** ** Vote accounting *)

Lemma sum_candidate_votes_ext s s' c n :
  (forall i, i < N.of_nat n -> candidate_votes s' c i = candidate_votes s c i) ->
  sum_candidate_votes s' c n = sum_candidate_votes s c n.
Proof.
  induction n as [|n IH]; intros Hsame; [done|].
  cbn [sum_candidate_votes]. rewrite IH, Hsame; [done|lia|].
  intros i Hi. apply Hsame. lia.
Qed.

Lemma sum_candidate_votes_bump s s' c n k :
  k < N.of_nat n ->
  candidate_votes s' c k = candidate_votes s c k + 1 ->
  (forall i, i <> k -> candidate_votes s' c i = candidate_votes s c i) ->
  sum_candidate_votes s' c n = sum_candidate_votes s c n + 1.
Proof.
  induction n as [|n IH]; intros Hk Hbump Hsame; [lia|].
  cbn [sum_candidate_votes].
  destruct (decide (k = N.of_nat n)) as [->|Hne].
  - rewrite Hbump.
    rewrite (sum_candidate_votes_ext s s' c n); [lia|].
    intros i Hi. apply Hsame. lia.
  - rewrite IH, Hsame; [lia|congruence|lia|done|done].
Qed.

Lemma sum_candidate_votes_zero s c n :
  (forall i, candidate_votes s c i = 0) -> sum_candidate_votes s c n = 0.
Proof.
  intros Hz. induction n as [|n IH]; [done|].
  cbn [sum_candidate_votes]. by rewrite IH, Hz.
Qed.

Lemma sum_candidate_votes_tail s c n m :
  (forall i, N.of_nat n <= i -> candidate_votes s c i = 0) ->
  (n <= m)%nat ->
  sum_candidate_votes s c m = sum_candidate_votes s c n.
Proof.
  intros Hz Hle. induction Hle as [|m Hle IH]; [done|].
  cbn [sum_candidate_votes]. rewrite IH, Hz; lia.
Qed.

Lemma voters_insert (m : gmap address bool) (a : address) :
  default false (m !! a) = false ->
  size (filter (fun kv : address * bool => kv.2 = true) (<[a := true]> m))
  = S (size (filter (fun kv : address * bool => kv.2 = true) m)).
Proof.
  intros Hnot. rewrite map_filter_insert_True by done.
  apply map_size_insert_None. apply map_lookup_filter_None.
  destruct (m !! a) as [b|] eqn:Hma; [|by left].
  right. intros x [= <-]. cbn in Hnot |- *. congruence.
Qed.

Lemma tally_same_fields c s s' :
  totalVotes s' = totalVotes s -> candidateVotes s' = candidateVotes s ->
  hasVoted s' = hasVoted s -> tally_step c s s'.
Proof.
  intros Ht Hc Hv. apply ts_same.
  - unfold total_votes. by rewrite Ht.
  - intros i. unfold candidate_votes. by rewrite Hc.
  - by rewrite Hv.
Qed.

Lemma voted_for_tally rc k v e s :
  let s' := voted_for rc k v e s in
  total_votes s' rc = total_votes s rc + 1 /\
  candidate_votes s' rc k = candidate_votes s rc k + 1 /\
  (forall c i, (c, i) <> (rc, k) -> candidate_votes s' c i = candidate_votes s c i) /\
  mapping_get ∅ (hasVoted s') rc = <[sender e := true]> (mapping_get ∅ (hasVoted s) rc) /\
  (forall c, c <> rc ->
     total_votes s' c = total_votes s c /\
     mapping_get ∅ (hasVoted s') c = mapping_get ∅ (hasVoted s) c).
Proof.
  cbv zeta. destruct (voted_for_fields rc k v e s) as (Hhv & Htv & Hcv & _).
  unfold total_votes, candidate_votes. rewrite Hhv, Htv, Hcv.
  split; [by rewrite mapping_get_insert_eq|].
  split; [by rewrite mapping_get2_set2_eq|].
  split; [intros c i Hne; by rewrite mapping_get2_set2_ne by congruence|].
  split; [by rewrite mapping_get_set2_eq|].
  intros c Hne. split.
  - by rewrite mapping_get_insert_ne.
  - by rewrite mapping_get_set2_ne.
Qed.

Lemma step_tally s s' c : step s s' -> tally_step c s s'.
Proof.
  intros [ | rc t d m et hp ph e Hc Ht Hm
           | rc t d m et hp ph ns ds us e s1 Hc Ht Hm Hl1 Hl2 Hn Hp
           | rc ns ds us e s1 Hc Hs Ha Hl1 Hl2 Hp
           | rc e Hc Ha Ht Hcl Hnp Hfull
           | rc k v e Hc Hpa Hnv Ha Ht Hk
           | rc Hc Ha
           | rc counts e Hc Hs Ha Hl ].
  - by apply tally_same_fields.
  - by apply tally_same_fields.
  - apply push_candidates_reads in Hp as (_ & _ & Hhv & _ & Htv & Hcv & _);
      [|done..].
    apply tally_same_fields; unfold emit; cbn [totalVotes candidateVotes hasVoted];
      by rewrite ?Hhv, ?Htv, ?Hcv.
  - apply push_candidates_reads in Hp as (_ & _ & Hhv & _ & Htv & Hcv & _);
      [|done..].
    by apply tally_same_fields.
  - destruct (joined_fields rc e s) as (_ & _ & Hhv & Htv & Hcv & _).
    by apply tally_same_fields.
  - destruct (voted_for_tally rc k v e s) as (Htv & Hcv & Hoth & Hhv & Hne).
    destruct (decide (c = rc)) as [->|Hc'].
    + apply (ts_vote rc s _ k (sender e)); try done.
      * rewrite room_voted_for, decide_True by done.
        unfold end_if_all_voted. by destruct (_ <=? _).
      * intros i Hi. apply Hoth. congruence.
    + destruct (Hne c Hc') as [Htv' Hhv'].
      apply ts_same; [done| |done].
      intros i. apply Hoth. congruence.
  - by apply tally_same_fields.
  - destruct (store_results_reads rc counts 0 s)
      as (_ & _ & Hhv & _ & Htv & Hcv & _).
    apply tally_same_fields;
      unfold emit, store_published; cbn [totalVotes candidateVotes hasVoted];
      done.
Qed.

Lemma tally_consistent_init c : tally_consistent init c.
Proof.
  assert (Hz : forall i, candidate_votes init c i = 0).
  { intros i. unfold candidate_votes, mapping_get2, init. cbn [candidateVotes].
    by rewrite !mapping_get_empty. }
  unfold tally_consistent. rewrite room_init. cbn [candidateCount zero_room].
  repeat split; done.
Qed.

Lemma step_tally_consistent s s' c :
  step s s' -> tally_consistent s c -> tally_consistent s' c.
Proof.
  intros Hst (Hsum & Hsize & Htail & Hfresh).
  pose proof (step_room_step s s' c Hst) as Hroom.
  destruct (step_tally s s' c Hst)
    as [Htv Hcv Hhv | k a Hex Hk Hcc Hnv Htv Hcv Hoth Hhv].
  - (* the accounting of the room is untouched; its record may change *)
    assert (Hsum' : forall n, sum_candidate_votes s' c n = sum_candidate_votes s c n).
    { intros n. apply sum_candidate_votes_ext. intros i _. apply Hcv. }
    unfold tally_consistent, voters. rewrite Htv, Hhv, Hsum'.
    destruct Hroom as [ | t d a m et hp ph n Hno Hm | n Hex Hact Hle
                        | Hex Hact Hcl Hfull | Hex Hact ].
    + repeat split; try done; intros; rewrite Hcv; auto.
    + (* creation: nothing was ever counted under this code *)
      cbn [candidateCount code].
      assert (Hz : forall i, candidate_votes s c i = 0) by auto.
      assert (Ht0 : total_votes s c = 0)
        by (by rewrite Hsum, sum_candidate_votes_zero).
      unfold voters in Hsize.
      repeat split.
      * by rewrite Ht0, sum_candidate_votes_zero.
      * done.
      * intros; by rewrite Hcv.
      * intros; by rewrite Hcv.
    + cbn [set_candidateCount candidateCount code].
      repeat split; try done.
      * rewrite Hsum. symmetry. apply sum_candidate_votes_tail; [|lia].
        intros i Hi. apply Htail. lia.
      * intros i Hi. rewrite Hcv. apply Htail. lia.
    + unfold close_if_full. destruct (_ <=? _);
        cbn [set_isClosed set_participantCount candidateCount code];
        repeat split; try done; intros; rewrite Hcv; auto.
    + cbn [set_isActive candidateCount code].
      repeat split; try done; intros; rewrite Hcv; auto.
  - (* a vote counted in this room *)
    unfold tally_consistent, voters. rewrite Hcc, Htv, Hhv.
    assert (Hex' : code (room s' c) <> "") by (by eapply step_exists).
    repeat split.
    + rewrite (sum_candidate_votes_bump s s' c _ k); [lia|lia|done|done].
    + rewrite voters_insert by done. unfold voters in Hsize. lia.
    + intros i Hi. rewrite Hoth by lia. by apply Htail.
    + done.
Qed.

Lemma tally_consistent_reachable txs c : tally_consistent (run init txs) c.
Proof.
  pose proof (run_ind (fun s s' => tally_consistent s c -> tally_consistent s' c))
    as Hrun.
  apply Hrun.
  - done.
  - intros s1 s2 s3 H12 H23 H1. eapply step_tally_consistent; eauto.
  - apply tally_consistent_init.
Qed.

Lemma call_ledger c e s s' :
  call c e s = Ok s' ->
  (forall rc k ev pf, c <> Vote rc k ev pf) ->
  totalVotes s' = totalVotes s /\ candidateVotes s' = candidateVotes s /\
  hasVoted s' = hasVoted s.
Proof.
  destruct c; cbn [call]; intros Hok Hnv.
  - by apply createRoom_Ok in Hok as (? & ? & ? & ->).
  - apply createRoomWithCandidatesBatch_Ok in Hok
      as (? & ? & ? & ? & ? & ? & s1 & Hp & ->).
    apply push_candidates_reads in Hp as (_ & _ & Hhv & _ & Htv & Hcv & _);
      [|done..].
    unfold emit; cbn [totalVotes candidateVotes hasVoted].
    by rewrite Hhv, Htv, Hcv.
  - apply addCandidate_Ok in Hok as (? & ? & ? & Hp).
    by apply push_candidate_reads in Hp as (_ & _ & Hhv & _ & Htv & Hcv & _).
  - apply addCandidatesBatch_Ok in Hok as (? & ? & ? & ? & ? & ? & Hp).
    by apply push_candidates_reads in Hp as (_ & _ & Hhv & _ & Htv & Hcv & _).
  - apply joinRoom_Ok in Hok as (? & ? & ? & ? & ? & ? & ? & ->).
    by destruct (joined_fields roomCode e s) as (_ & _ & Hhv & Htv & Hcv & _).
  - by destruct (Hnv roomCode candidateId encryptedVote inputProof).
  - by apply endRoom_Ok in Hok as (? & ? & ? & ->).
  - by apply checkAndEndRoom_Ok in Hok as (? & ? & ? & ->).
  - apply publishResults_Ok in Hok as (? & ? & ? & ? & ->).
    by destruct (store_results_reads roomCode candidateVoteCounts 0 s)
      as (_ & _ & Hhv & _ & Htv & Hcv & _).
Qed.

(** [C10] In every state reached from the empty contract, [totalVotes] of
    a room equals the sum of its [candidateVotes] over the candidate ids
    below [candidateCount], and equals the number of identities whose
    [hasVoted] flag is set in the room.  A successful [vote] adds one to
    [totalVotes] of the room, one to the [candidateVotes] entry voted for
    and to no other, and one identity to the voters of the room, and
    touches no other room; a transaction carrying any other call, and any
    reverted transaction, changes none of the three tables. *)
Theorem vote_accounting :
  (forall txs c,
     total_votes (run init txs) c
     = sum_candidate_votes (run init txs) c
         (N.to_nat (candidateCount (room (run init txs) c))) /\
     total_votes (run init txs) c = N.of_nat (size (voters (run init txs) c))) /\
  (forall rc k ev pf e s s',
     vote rc k ev pf e s = Ok s' ->
     total_votes s' rc = total_votes s rc + 1 /\
     candidate_votes s' rc k = candidate_votes s rc k + 1 /\
     (forall c i, (c, i) <> (rc, k) ->
                  candidate_votes s' c i = candidate_votes s c i) /\
     size (voters s' rc) = S (size (voters s rc)) /\
     (forall c, c <> rc ->
        total_votes s' c = total_votes s c /\ voters s' c = voters s c)) /\
  (forall s tx,
     (forall rc k ev pf, tx_call tx <> Vote rc k ev pf) ->
     totalVotes (exec s tx) = totalVotes s /\
     candidateVotes (exec s tx) = candidateVotes s /\
     hasVoted (exec s tx) = hasVoted s) /\
  (forall s e c r, call c e s = Revert r -> exec s (mkTx e c) = s).
Proof.
  split; [|split; [|split]].
  - intros txs c.
    destruct (tally_consistent_reachable txs c) as (Hsum & Hsize & _). done.
  - intros rc k ev pf e s s' Hok.
    apply vote_Ok in Hok as (_ & _ & Hnv & _ & _ & _ & _ & v & _ & ->).
    destruct (voted_for_tally rc k v e s) as (Htv & Hcv & Hoth & Hhv & Hne).
    repeat split; try done.
    + unfold voters. rewrite Hhv. by apply voters_insert.
    + by apply Hne.
    + unfold voters. destruct (Hne c) as [_ ->]; done.
  - intros s tx Hnv. unfold exec.
    destruct (call _ _ _) eqn:Hc; [|done].
    by eapply call_ledger.
  - intros s e c r. apply exec_Revert.
Qed.

(** ** Candidates *)

Lemma candidate_same_table s s' c i :
  roomCandidates s' = roomCandidates s -> candidate s' c i = candidate s c i.
Proof. intros Heq. unfold candidate. by rewrite Heq. Qed.

Lemma step_candidate s s' c i :
  step s s' -> code (room s c) <> "" -> i < candidateCount (room s c) ->
  same_profile (candidate s c i) (candidate s' c i).
Proof.
  intros [ | rc t d m et hp ph e Hc Ht Hm
           | rc t d m et hp ph ns ds us e s1 Hc Ht Hm Hl1 Hl2 Hn Hp
           | rc ns ds us e s1 Hc Hs Ha Hl1 Hl2 Hp
           | rc e Hc Ha Ht Hcl Hnp Hfull
           | rc k v e Hc Hpa Hnv Ha Ht Hk
           | rc Hc Ha
           | rc counts e Hc Hs Ha Hl ] Hex Hi; try done.
  - apply push_candidates_reads in Hp as (_ & Hcand & _); [|done..].
    change (candidate (emit ?ev ?s0) c i) with (candidate s0 c i).
    rewrite Hcand. rewrite decide_False; [done|].
    intros (-> & _). done.
  - apply push_candidates_reads in Hp as (_ & Hcand & _); [|done..].
    rewrite Hcand. rewrite decide_False; [done|].
    intros (-> & ? & _). lia.
  - destruct (joined_fields rc e s) as (_ & Hrc & _).
    by rewrite (candidate_same_table _ _ _ _ Hrc).
  - destruct (voted_for_fields rc k v e s) as (_ & _ & _ & Hrc & _).
    unfold candidate at 2. rewrite Hrc.
    destruct (decide ((rc, k) = (c, i))) as [[= <- <-]|Hne].
    + by rewrite mapping_get2_set2_eq.
    + by rewrite mapping_get2_set2_ne.
  - destruct (store_results_reads rc counts 0 s) as (_ & Hrc & _).
    change (candidate (emit ?ev (store_published ?a ?b ?s0)) c i)
      with (candidate s0 c i).
    by rewrite (candidate_same_table _ _ _ _ Hrc).
Qed.

Lemma run_candidate s txs c i :
  code (room s c) <> "" -> i < candidateCount (room s c) ->
  code (room (run s txs) c) <> "" /\
  i < candidateCount (room (run s txs) c) /\
  same_profile (candidate s c i) (candidate (run s txs) c i).
Proof.
  revert txs s.
  apply (run_ind (fun s s' =>
    code (room s c) <> "" -> i < candidateCount (room s c) ->
    code (room s' c) <> "" /\ i < candidateCount (room s' c) /\
    same_profile (candidate s c i) (candidate s' c i))).
  - intros s Hex Hi. by repeat split.
  - intros s1 s2 s3 H12 H23 Hex Hi.
    destruct (H12 Hex Hi) as (Hex2 & Hi2 & Hp2).
    pose proof (step_candidate s2 s3 c i H23 Hex2 Hi2) as Hp3.
    pose proof (room_step_candidateCount c _ _ (step_room_step s2 s3 c H23) Hex2).
    split; [by eapply step_exists|]. split; [lia|].
    unfold same_profile in *. destruct Hp2 as (?&?&?), Hp3 as (?&?&?).
    repeat split; congruence.
Qed.

(** Round trip of a batch creation under a non-empty room code: the
    candidates read back, after any later transactions, as they were
    supplied. *)
Lemma getCandidate_after_batch rc t d m et hp ph ns ds us e s s' txs i :
  createRoomWithCandidatesBatch rc t d m et hp ph ns ds us e s = Ok s' ->
  rc <> "" -> (i < length ns)%nat ->
  getCandidate rc (N.of_nat i) (run s' txs)
  = Ok (nth i ns "", nth i ds "", nth i us "").
Proof.
  intros Hok Hrc Hi.
  apply createRoomWithCandidatesBatch_Ok in Hok
    as (Hno & _ & _ & Hl1 & Hl2 & _ & s1 & Hp & ->).
  apply push_candidates_reads in Hp as (Hroom & Hcand & _); [|done..].
  set (s' := emit (RoomCreated rc (sender e) t) s1).
  assert (Hr : room s' rc
               = mkRoom rc t d (sender e) m 1 et hp ph true false
                        (0 + N.of_nat (length ns))).
  { subst s'. rewrite room_emit, Hroom, decide_True by done.
    by rewrite room_register_room, decide_True by done. }
  assert (Hc : candidate s' rc (N.of_nat i) = nth_candidate ns ds us i).
  { subst s'. change (candidate (emit ?ev ?s0) ?c ?j) with (candidate s0 c j).
    rewrite Hcand, room_register_room.
    rewrite (decide_True (P := rc = rc)) by done.
    cbn [candidateCount]. rewrite decide_True by (split; [done|lia]).
    f_equal. lia. }
  destruct (run_candidate s' txs rc (N.of_nat i)) as (Hex & Hlt & Hn & Hd & Hu).
  { by rewrite Hr. }
  { rewrite Hr. cbn [candidateCount]. lia. }
  unfold getCandidate. rewrite roomExists_pass by done.
  apply N.ltb_lt in Hlt. rewrite Hlt.
  cbn [require mbind result_mbind result_bind mret result_mret].
  rewrite Hn, Hd, Hu, Hc. done.
Qed.

(** ** Enumeration views *)

Lemma array_set_middle {A : Type} (pre rest : list A) (d x : A) :
  array_set (pre ++ d :: rest) (N.of_nat (length pre)) x = Ok (pre ++ x :: rest).
Proof.
  unfold array_set. rewrite length_app. cbn [length].
  destruct (N.ltb_spec (N.of_nat (length pre))
                       (N.of_nat (length pre + S (length rest)))); [|lia].
  rewrite Nat2N.id, insert_app_r_alt by lia.
  by rewrite Nat.sub_diag.
Qed.

Lemma array_set_snoc {A : Type} (pre rest : list A) (d x : A) :
  array_set (pre ++ d :: rest) (N.of_nat (length pre)) x = Ok ((pre ++ [x]) ++ rest).
Proof. by rewrite array_set_middle, <- app_assoc. Qed.

Lemma index_snoc {A : Type} (pre : list A) (x : A) :
  N.of_nat (length pre) + 1 = N.of_nat (length (pre ++ [x])).
Proof. rewrite length_app. cbn [length]. lia. Qed.

Lemma count_active_acc now s codes acc :
  count_active now s codes acc
  = acc + N.of_nat (length (List.filter (listed_active now s) codes)).
Proof.
  revert acc. induction codes as [|c codes IH]; intros acc; cbn [count_active List.filter].
  - cbn. lia.
  - rewrite IH. destruct (listed_active now s c); cbn [length]; lia.
Qed.

Lemma fill_active_spec now s codes : forall pre,
  fill_active now s codes
    (pre ++ replicate (length (List.filter (listed_active now s) codes)) "")
    (N.of_nat (length pre))
  = Ok (pre ++ List.filter (listed_active now s) codes).
Proof.
  induction codes as [|c codes IH]; intros pre; cbn [fill_active List.filter].
  - done.
  - destruct (listed_active now s c); [|apply IH].
    cbn [length replicate]. rewrite array_set_snoc.
    cbn [mbind result_mbind result_bind].
    rewrite (index_snoc pre c), IH. by rewrite <- app_assoc.
Qed.

(** [X6] [getActiveRooms] never runs past the array it allocated: it returns
    exactly the codes of the registry, in registration order, whose room is
    active and whose [endTime] is still ahead of the block timestamp.  A code
    is listed iff it is registered and passes both tests, so a room past its
    [endTime] is left out even while its [isActive] flag is still set. *)
Theorem getActiveRooms_filter e s :
  getActiveRooms e s = Ok (List.filter (listed_active (timestamp e) s) (roomCodes s)) /\
  (forall c, In c (List.filter (listed_active (timestamp e) s) (roomCodes s)) <->
             In c (roomCodes s) /\ isActive (room s c) = true /\
             timestamp e < endTime (room s c)).
Proof.
  split.
  - unfold getActiveRooms. cbv zeta. rewrite count_active_acc, N.add_0_l, Nat2N.id.
    apply (fill_active_spec (timestamp e) s (roomCodes s) []).
  - intros c. rewrite filter_In. unfold listed_active.
    by rewrite andb_true_iff, N.ltb_lt.
Qed.

Lemma array_get_lookup {A : Type} (arr : list A) (i : nat) (x : A) :
  arr !! i = Some x -> array_get arr (N.of_nat i) = Ok x.
Proof. intros Hl. unfold array_get. by rewrite Nat2N.id, Hl. Qed.

Lemma copy_page_spec codes offset n : forall pre,
  (offset + length pre + n <= length codes)%nat ->
  copy_page codes (N.of_nat offset) n (N.of_nat (length pre)) (pre ++ replicate n "")
  = Ok (pre ++ take n (drop (offset + length pre) codes)).
Proof.
  induction n as [|n IH]; intros pre Hlen; cbn [copy_page replicate take].
  - done.
  - destruct (lookup_lt_is_Some_2 codes (offset + length pre)) as [c Hc]; [lia|].
    replace (N.of_nat offset + N.of_nat (length pre))
      with (N.of_nat (offset + length pre)) by lia.
    rewrite (array_get_lookup _ _ _ Hc). cbn [mbind result_mbind result_bind].
    rewrite array_set_snoc. cbn [mbind result_mbind result_bind].
    rewrite (index_snoc pre c), IH by (rewrite length_app; cbn [length]; lia).
    rewrite (drop_S _ _ _ Hc). cbn [take].
    rewrite <- app_assoc. cbn [app]. do 3 f_equal.
    rewrite length_app. cbn [length]. do 2 f_equal. lia.
Qed.

Lemma getRoomsPaginated_Ok offset limit s :
  0 < limit ->
  getRoomsPaginated offset limit s
  = Ok (take (N.to_nat limit) (drop (N.to_nat offset) (roomCodes s)),
        offset + limit <? getTotalRoomsCount s).
Proof.
  intros Hlim. unfold getRoomsPaginated, getTotalRoomsCount.
  apply N.ltb_lt in Hlim as Hlim'. rewrite Hlim'.
  cbn [require mbind result_mbind result_bind]. cbv zeta.
  destruct (N.leb_spec (N.of_nat (length (roomCodes s))) offset) as [Hout|Hin].
  - rewrite drop_ge by lia. rewrite take_nil.
    destruct (N.ltb_spec (offset + limit) (N.of_nat (length (roomCodes s)))); [lia|done].
  - set (total := N.of_nat (length (roomCodes s))) in *.
    set (returnCount := if limit <? total - offset then limit else total - offset).
    assert (Hrc : (N.to_nat offset + N.to_nat returnCount <= length (roomCodes s))%nat).
    { subst returnCount total. destruct (N.ltb_spec limit
        (N.of_nat (length (roomCodes s)) - offset)); lia. }
    pose proof (copy_page_spec (roomCodes s) (N.to_nat offset)
                  (N.to_nat returnCount) []) as Hcopy.
    cbn [length app] in Hcopy. change (N.of_nat 0) with 0 in Hcopy.
    rewrite Nat.add_0_r, N2Nat.id in Hcopy.
    rewrite Hcopy by lia. cbn [mbind result_mbind result_bind mret result_mret].
    f_equal. f_equal.
    + subst returnCount.
      destruct (N.ltb_spec limit (total - offset)); [done|].
      rewrite !take_ge; [done|rewrite length_drop; lia|rewrite length_drop; lia].
    + subst returnCount.
      destruct (N.ltb_spec limit (total - offset)).
      * destruct (N.ltb_spec (offset + limit) total),
                 (N.ltb_spec (offset + limit) total); (done || lia).
      * destruct (N.ltb_spec (offset + (total - offset)) total),
                 (N.ltb_spec (offset + limit) total); (done || lia).
Qed.

(** [X7] [getRoomsPaginated] reverts on a zero limit; otherwise it returns
    the slice of the registry of at most [limit] codes starting at [offset]
    (empty when [offset] is at or past the end), and [hasMore] tells exactly
    whether registered codes remain after the slice. *)
Theorem getRoomsPaginated_slice offset limit s :
  (limit = 0 ->
   getRoomsPaginated offset limit s = Revert "Limit must be greater than 0") /\
  (0 < limit ->
   exists page hasMore,
     getRoomsPaginated offset limit s = Ok (page, hasMore) /\
     page = take (N.to_nat limit) (drop (N.to_nat offset) (getAllRoomCodes s)) /\
     (hasMore = true <-> offset + limit < getTotalRoomsCount s) /\
     (getTotalRoomsCount s <= offset -> page = [] /\ hasMore = false)).
Proof.
  split.
  - intros ->. done.
  - intros Hlim. eexists _, _. split; [by apply getRoomsPaginated_Ok|].
    split; [done|]. split; [apply N.ltb_lt|].
    intros Hout. unfold getTotalRoomsCount, getAllRoomCodes in *.
    rewrite drop_ge by lia. rewrite take_nil. split; [done|].
    apply N.ltb_ge. lia.
Qed.

(** [X8] Pages compose: a page of [l1] codes from [offset] followed by the
    page of [l2] codes from [offset + l1] is the page of [l1 + l2] codes from
    [offset], with the [hasMore] flag of the second page. *)
Theorem getRoomsPaginated_concat offset l1 l2 s p1 h1 p2 h2 :
  0 < l1 -> 0 < l2 ->
  getRoomsPaginated offset l1 s = Ok (p1, h1) ->
  getRoomsPaginated (offset + l1) l2 s = Ok (p2, h2) ->
  getRoomsPaginated offset (l1 + l2) s = Ok (p1 ++ p2, h2).
Proof.
  intros H1 H2 Hp1 Hp2.
  rewrite getRoomsPaginated_Ok in Hp1, Hp2 by done.
  rewrite getRoomsPaginated_Ok by lia.
  injection Hp1 as <- <-. injection Hp2 as <- <-.
  f_equal. f_equal.
  - replace (N.to_nat (offset + l1)) with (N.to_nat offset + N.to_nat l1)%nat by lia.
    rewrite <- drop_drop, take_take_drop. f_equal. lia.
  - f_equal. lia.
Qed.

Lemma fill_results_spec s rc n : forall p1 p2 p3,
  length p2 = length p1 -> length p3 = length p1 ->
  fill_results s rc n (N.of_nat (length p1))
    (p1 ++ replicate n 0) (p2 ++ replicate n "") (p3 ++ replicate n 0)
  = Ok (p1 ++ map N.of_nat (seq (length p1) n),
        p2 ++ map (fun k => name (candidate s rc (N.of_nat k))) (seq (length p1) n),
        p3 ++ map (fun k => candidate_votes s rc (N.of_nat k)) (seq (length p1) n)).
Proof.
  induction n as [|n IH]; intros p1 p2 p3 Hl2 Hl3; cbn [fill_results replicate seq map].
  - done.
  - set (x1 := N.of_nat (length p1)).
    set (x2 := name (candidate s rc x1)).
    set (x3 := candidate_votes s rc x1).
    rewrite (array_set_snoc p1 _ 0 x1). cbn [mbind result_mbind result_bind].
    assert (H2 : array_set (p2 ++ "" :: replicate n "") x1 x2
                 = Ok ((p2 ++ [x2]) ++ replicate n ""))
      by (subst x1; rewrite <- Hl2; apply array_set_snoc).
    assert (H3 : array_set (p3 ++ 0 :: replicate n 0) x1 x3
                 = Ok ((p3 ++ [x3]) ++ replicate n 0))
      by (subst x1; rewrite <- Hl3; apply array_set_snoc).
    rewrite H2. cbn [mbind result_mbind result_bind].
    rewrite H3. cbn [mbind result_mbind result_bind].
    unfold x1 at 1. rewrite (index_snoc p1 x1).
    rewrite IH by (rewrite !length_app; cbn [length]; lia).
    rewrite <- !app_assoc. cbn [app].
    replace (length (p1 ++ [x1])) with (S (length p1))
      by (rewrite length_app; cbn [length]; lia).
    done.
Qed.

Lemma sum_list_candidate_votes s rc n :
  sum_list (map (fun k => candidate_votes s rc (N.of_nat k)) (seq 0 n))
  = sum_candidate_votes s rc n.
Proof.
  induction n as [|n IH]; [done|].
  rewrite seq_S, map_app. cbn [map sum_candidate_votes plus].
  rewrite <- IH. unfold sum_list. rewrite foldr_app. cbn [foldr].
  generalize (map (fun k => candidate_votes s rc (N.of_nat k)) (seq 0 n)) as l.
  intros l. rewrite N.add_0_r.
  induction l as [|x l IHl]; cbn [foldr]; lia.
Qed.

(** [X9] On an existing room [getAllVotingResults] never runs past its
    arrays: it returns the ids [0 .. candidateCount-1], the candidates'
    names and their plaintext counts in id order, together with
    [totalVotes]; in every state reached from the empty contract the
    returned counts add up to the returned total. *)
Theorem getAllVotingResults_table rc s :
  code (room s rc) <> "" ->
  let n := N.to_nat (candidateCount (room s rc)) in
  getAllVotingResults rc s
  = Ok (map N.of_nat (seq 0 n),
        map (fun k => name (candidate s rc (N.of_nat k))) (seq 0 n),
        map (fun k => candidate_votes s rc (N.of_nat k)) (seq 0 n),
        total_votes s rc) /\
  ((exists txs, s = run init txs) ->
   sum_list (map (fun k => candidate_votes s rc (N.of_nat k)) (seq 0 n))
   = total_votes s rc).
Proof.
  intros Hex n. split.
  - unfold getAllVotingResults. rewrite roomExists_pass by done. cbv zeta.
    fold n. pose proof (fill_results_spec s rc n [] [] [] eq_refl eq_refl) as Hfill.
    cbn [length app] in Hfill. change (N.of_nat 0) with 0 in Hfill.
    rewrite Hfill. done.
  - intros [txs ->]. rewrite sum_list_candidate_votes.
    destruct (tally_consistent_reachable txs rc) as (Hsum & _). by rewrite Hsum.
Qed.

(** ** The registry of room codes *)

Lemma push_candidates_registry rc ns : forall ds us e s s',
  push_candidates rc ns ds us e s = Ok s' ->
  roomCodes s' = roomCodes s /\ roomCodeIndex s' = roomCodeIndex s.
Proof.
  induction ns as [|n ns IH]; intros [|d ds] [|u us] e s s' Hok;
    try (by injection Hok as <-).
  cbn [push_candidates] in Hok. apply bind_Ok in Hok as (s1 & H1 & Hok).
  apply push_candidate_Ok in H1 as [_ ->].
  apply IH in Hok as [-> ->]. done.
Qed.

Lemma store_results_registry rc counts : forall i s,
  roomCodes (store_results rc i counts s) = roomCodes s /\
  roomCodeIndex (store_results rc i counts s) = roomCodeIndex s.
Proof.
  induction counts as [|x counts IH]; intros i s; cbn [store_results]; [done|].
  destruct (IH (i + 1) (store_clear_result rc i x s)) as [-> ->]. done.
Qed.

Lemma register_room_registry rc t d m et hp ph e s :
  roomCodes (register_room rc t d m et hp ph e s) = roomCodes s ++ [rc] /\
  roomCodeIndex (register_room rc t d m et hp ph e s)
  = <[rc := N.of_nat (length (roomCodes s))]> (roomCodeIndex s).
Proof.
  split; [done|].
  transitivity (<[rc := N.of_nat (length (roomCodes s ++ [rc])) - 1]> (roomCodeIndex s));
    [done|].
  f_equal. rewrite length_app. cbn [length]. lia.
Qed.

(** What one transaction does to the registry. *)
Lemma step_registry s s' :
  step s s' ->
  (roomCodes s' = roomCodes s /\ roomCodeIndex s' = roomCodeIndex s /\
   forall c, code (room s' c) = code (room s c)) \/
  (exists rc,
     code (room s rc) = "" /\
     roomCodes s' = roomCodes s ++ [rc] /\
     roomCodeIndex s' = <[rc := N.of_nat (length (roomCodes s))]> (roomCodeIndex s) /\
     code (room s' rc) = rc /\
     forall c, c <> rc -> code (room s' c) = code (room s c)).
Proof.
  intros Hst.
  destruct Hst as [ | rc t d m et hp ph e Hc Ht Hm
             | rc t d m et hp ph ns ds us e s1 Hc Ht Hm Hl1 Hl2 Hn Hp
             | rc ns ds us e s1 Hc Hs Ha Hl1 Hl2 Hp
             | rc e Hc Ha Ht Hcl Hnp Hfull
             | rc k v e Hc Hpa Hnv Ha Ht Hk
             | rc Hc Ha
             | rc counts e Hc Hs Ha Hl ].
  - left. done.
  - right. exists rc. split; [done|].
    destruct (register_room_registry rc t d m et hp ph e s) as [Hrc Hri].
    split; [exact Hrc|]. split; [exact Hri|].
    rewrite room_emit, room_register_room, decide_True by done.
    split; [done|]. intros c Hne.
    by rewrite room_emit, room_register_room, decide_False by done.
  - right. exists rc. split; [done|].
    apply push_candidates_registry in Hp as Hreg. destruct Hreg as [Hrc Hri].
    apply push_candidates_reads in Hp as (Hr & _ & _); [|done..].
    destruct (register_room_registry rc t d m et hp ph e s) as [Hrc0 Hri0].
    split; [exact (eq_trans Hrc Hrc0)|]. split; [exact (eq_trans Hri Hri0)|].
    split.
    + rewrite room_emit, Hr, decide_True by done.
      by rewrite room_register_room, decide_True by done.
    + intros c Hne. rewrite room_emit, Hr, decide_False by done.
      by rewrite room_register_room, decide_False by done.
  - left. apply push_candidates_registry in Hp as Hreg. destruct Hreg as [-> ->].
    apply push_candidates_reads in Hp as (Hr & _ & _); [|done..].
    split; [done|]. split; [done|]. intros c.
    rewrite Hr. by destruct (decide (rc = c)) as [<-|].
  - left. split; [|split].
    + unfold joined. cbv zeta. by destruct (_ <=? _).
    + unfold joined. cbv zeta. by destruct (_ <=? _).
    + intros c. rewrite room_joined. destruct (decide (rc = c)) as [<-|]; [|done].
      unfold close_if_full. by destruct (_ <=? _).
  - left. split; [|split].
    + unfold voted_for. cbv zeta. by destruct (_ <=? _).
    + unfold voted_for. cbv zeta. by destruct (_ <=? _).
    + intros c. rewrite room_voted_for. destruct (decide (rc = c)) as [<-|]; [|done].
      unfold end_if_all_voted. by destruct (_ <=? _).
  - left. split; [done|]. split; [done|]. intros c.
    rewrite room_emit, room_store_room. by destruct (decide (rc = c)) as [<-|].
  - left. destruct (store_results_registry rc counts 0 s) as [Hrc Hri].
    split; [by unfold emit, store_published; cbn [roomCodes]|].
    split; [by unfold emit, store_published; cbn [roomCodeIndex]|].
    intros c. by rewrite room_emit, room_published.
Qed.

(** [X4] The registry is append-only: along any run from any state the old
    [roomCodes] list is a prefix of the new one, so [getTotalRoomsCount]
    never decreases and every index keeps its code; one transaction adds at
    most one code, and adds none when it reverts. *)
Theorem roomCodes_append_only s txs :
  (exists added, getAllRoomCodes (run s txs) = getAllRoomCodes s ++ added) /\
  getTotalRoomsCount s <= getTotalRoomsCount (run s txs) /\
  (forall i c, getAllRoomCodes s !! i = Some c ->
               getAllRoomCodes (run s txs) !! i = Some c) /\
  (forall tx, getTotalRoomsCount (exec s tx) <= getTotalRoomsCount s + 1) /\
  (forall e c r, call c e s = Revert r ->
                 getAllRoomCodes (exec s (mkTx e c)) = getAllRoomCodes s).
Proof.
  unfold getAllRoomCodes, getTotalRoomsCount.
  assert (Hpre : exists added, roomCodes (run s txs) = roomCodes s ++ added).
  { revert txs s.
    apply (run_ind (fun s s' => exists added, roomCodes s' = roomCodes s ++ added)).
    - intros s. exists []. by rewrite app_nil_r.
    - intros s1 s2 s3 [added H12] H23.
      destruct (step_registry s2 s3 H23) as [(-> & _)|(rc & _ & -> & _)].
      + by exists added.
      + exists (added ++ [rc]). by rewrite H12, app_assoc. }
  split; [done|]. destruct Hpre as [added Hadd]. split; [|split; [|split]].
  - rewrite Hadd, length_app. lia.
  - intros i c Hi. rewrite Hadd. apply lookup_app_l_Some. done.
  - intros tx.
    destruct (step_registry s (exec s tx) (exec_step s tx)) as [(-> & _)|(rc & _ & -> & _)].
    + lia.
    + rewrite length_app. cbn [length]. lia.
  - intros e c r Hrev. by rewrite (exec_Revert _ _ _ _ Hrev).
Qed.

Lemma step_registry_consistent s s' :
  step s s' -> registry_consistent s -> registry_consistent s'.
Proof.
  intros Hst (Hkey & Hidx & Hlisted & Honce).
  destruct (step_registry s s' Hst)
    as [(Hrc & Hri & Hcode)|(rc & Hno & Hrc & Hri & Hnew & Hold)].
  - unfold registry_consistent. rewrite Hrc, Hri.
    repeat split; try done; intros c; rewrite Hcode; auto.
  - assert (Hfresh : rc <> "" -> ~ In rc (roomCodes s)).
    { intros Hne Hin. specialize (Hlisted rc Hin Hne). congruence. }
    unfold registry_consistent. rewrite Hrc, Hri. split; [|split; [|split]].
    + intros c. destruct (decide (c = rc)) as [->|Hne]; [by right|].
      rewrite Hold by done. apply Hkey.
    + intros c Hex. destruct (decide (c = rc)) as [->|Hne].
      * rewrite mapping_get_insert_eq, Nat2N.id.
        by rewrite list_lookup_middle.
      * rewrite mapping_get_insert_ne by done. rewrite Hold in Hex by done.
        apply lookup_app_l_Some. by apply Hidx.
    + intros c Hin Hne. destruct (decide (c = rc)) as [->|Hne']; [done|].
      rewrite Hold by done. apply Hlisted; [|done].
      apply in_app_or in Hin as [Hin|[Hin|[]]]; [done|congruence].
    + intros c i j Hne Hi Hj.
      assert (Hcase : forall k, (roomCodes s ++ [rc]) !! k = Some c ->
                 roomCodes s !! k = Some c \/ (k = length (roomCodes s) /\ c = rc)).
      { intros k Hk. apply lookup_app_Some in Hk as [Hk|[Hge Hk]]; [by left|].
        right. apply list_lookup_singleton_Some in Hk as [Hk0 ->]. split; [lia|done]. }
      destruct (Hcase i Hi) as [Hi'|[-> ->]], (Hcase j Hj) as [Hj'|[-> Heq]].
      * by eapply Honce.
      * subst c. destruct (Hfresh Hne).
        apply list_elem_of_In, list_elem_of_lookup. by exists i.
      * destruct (Hfresh Hne).
        apply list_elem_of_In, list_elem_of_lookup. by exists j.
      * done.
Qed.

(** [X5] In every state reached from the empty contract the registry agrees
    with the room table: the code stored in a room record is empty or its
    own key; [roomCodeIndex] of an existing room is the position of its code
    in [roomCodes]; every non-empty listed code names an existing room, and
    is listed at one position only. *)
Theorem registry_consistent_reachable txs :
  registry_consistent (run init txs).
Proof.
  pose proof (run_ind (fun s s' => registry_consistent s -> registry_consistent s'))
    as Hrun.
  apply Hrun.
  - done.
  - intros s1 s2 s3 H12 H23 H1. eapply step_registry_consistent; eauto.
  - unfold registry_consistent. repeat split.
    + intros c. left. by rewrite room_init.
    + intros c. by rewrite room_init.
    + intros c [].
    + intros c i j _ Hi. cbn [init roomCodes] in Hi. by rewrite lookup_nil in Hi.
Qed.

(** ** Membership *)

Lemma flagged_none (m : gmap address bool) :
  (forall a, default false (m !! a) = false) ->
  size (filter (fun kv : address * bool => kv.2 = true) m) = 0%nat.
Proof.
  intros Hnone. apply map_size_empty_iff, map_empty. intros a.
  apply map_lookup_filter_None.
  destruct (m !! a) as [b|] eqn:Hma; [|by left].
  right. intros x [= <-]. specialize (Hnone a). rewrite Hma in Hnone.
  cbn in *. congruence.
Qed.

Lemma flagged_subset (m1 m2 : gmap address bool) :
  (forall a, default false (m1 !! a) = true -> default false (m2 !! a) = true) ->
  (size (filter (fun kv : address * bool => kv.2 = true) m1)
   <= size (filter (fun kv : address * bool => kv.2 = true) m2))%nat.
Proof.
  intros Hsub.
  rewrite <- !(size_dom (D := gset address)). apply subseteq_size.
  intros a. rewrite !elem_of_dom. intros [b Hb].
  apply map_lookup_filter_Some in Hb as [Hb Htrue]. cbn in Htrue. subst b.
  specialize (Hsub a). rewrite Hb in Hsub. specialize (Hsub eq_refl).
  destruct (m2 !! a) as [b2|] eqn:Hm2; cbn in Hsub; [|discriminate]. subst b2.
  exists true. by apply map_lookup_filter_Some.
Qed.

(** What one transaction does to the membership of one room. *)
Lemma step_members s s' c :
  step s s' ->
  (mapping_get ∅ (isParticipant s') c = mapping_get ∅ (isParticipant s) c /\
   participantCount (room s' c) = participantCount (room s c) /\
   code (room s' c) = code (room s c)) \/
  (exists a,
     code (room s c) = "" /\ code (room s' c) = c /\
     participantCount (room s' c) = 1 /\
     mapping_get ∅ (isParticipant s') c
     = <[a := true]> (mapping_get ∅ (isParticipant s) c)) \/
  (exists a,
     code (room s c) <> "" /\ code (room s' c) = code (room s c) /\
     participant s c a = false /\
     participantCount (room s' c) = participantCount (room s c) + 1 /\
     mapping_get ∅ (isParticipant s') c
     = <[a := true]> (mapping_get ∅ (isParticipant s) c)).
Proof.
  intros [ | rc t d m et hp ph e Hc Ht Hm
           | rc t d m et hp ph ns ds us e s1 Hc Ht Hm Hl1 Hl2 Hn Hp
           | rc ns ds us e s1 Hc Hs Ha Hl1 Hl2 Hp
           | rc e Hc Ha Ht Hcl Hnp Hfull
           | rc k v e Hc Hpa Hnv Ha Ht Hk
           | rc Hc Ha
           | rc counts e Hc Hs Ha Hl ].
  - by left.
  - rewrite room_emit, room_register_room.
    change (isParticipant (emit ?ev (register_room rc t d m et hp ph e s)))
      with (mapping_set2 (isParticipant s) rc (sender e) true).
    destruct (decide (rc = c)) as [<-|Hne].
    + right. left. exists (sender e). by rewrite mapping_get_set2_eq.
    + left. by rewrite mapping_get_set2_ne.
  - apply push_candidates_reads in Hp as (Hr & _ & _ & Hip & _); [|done..].
    rewrite room_emit, Hr, !room_register_room.
    change (isParticipant (emit ?ev s1)) with (isParticipant s1). rewrite Hip.
    change (isParticipant (register_room rc t d m et hp ph e s))
      with (mapping_set2 (isParticipant s) rc (sender e) true).
    destruct (decide (rc = c)) as [<-|Hne].
    + right. left. exists (sender e). rewrite decide_True by done.
      by rewrite mapping_get_set2_eq.
    + left. by rewrite mapping_get_set2_ne.
  - apply push_candidates_reads in Hp as (Hr & _ & _ & Hip & _); [|done..].
    left. rewrite Hr, Hip. by destruct (decide (rc = c)) as [<-|].
  - destruct (joined_fields rc e s) as (Hip & _).
    rewrite room_joined, Hip. destruct (decide (rc = c)) as [<-|Hne].
    + right. right. exists (sender e). rewrite mapping_get_set2_eq.
      unfold close_if_full. by destruct (_ <=? _).
    + left. by rewrite mapping_get_set2_ne.
  - destruct (voted_for_fields rc k v e s) as (_ & _ & _ & _ & Hip & _).
    left. rewrite room_voted_for, Hip. destruct (decide (rc = c)) as [<-|]; [|done].
    unfold end_if_all_voted. by destruct (_ <=? _).
  - left. rewrite room_emit, room_store_room. by destruct (decide (rc = c)) as [<-|].
  - destruct (store_results_reads rc counts 0 s) as (_ & _ & _ & Hip & _).
    left. rewrite room_emit, room_published.
    change (isParticipant (emit ?ev (store_published ?a ?b ?s0)))
      with (isParticipant s0). by rewrite Hip.
Qed.

Lemma voted_same_table s s' c a :
  hasVoted s' = hasVoted s -> voted s' c a = voted s c a.
Proof. intros Heq. unfold voted. by rewrite Heq. Qed.

Lemma voted_table s (tbl : gmap string (gmap address bool)) c a :
  hasVoted s = tbl -> voted s c a = mapping_get2 false tbl c a.
Proof. by intros <-. Qed.

Lemma step_newly_voted s s' c a :
  step s s' -> voted s' c a = true ->
  voted s c a = true \/ participant s c a = true.
Proof.
  intros [ | rc t d m et hp ph e Hc Ht Hm
           | rc t d m et hp ph ns ds us e s1 Hc Ht Hm Hl1 Hl2 Hn Hp
           | rc ns ds us e s1 Hc Hs Ha Hl1 Hl2 Hp
           | rc e Hc Ha Ht Hcl Hnp Hfull
           | rc k v e Hc Hpa Hnv Ha Ht Hk
           | rc Hc Ha
           | rc counts e Hc Hs Ha Hl ] Hv.
  - by left.
  - left. rewrite <- Hv. symmetry. by apply voted_same_table.
  - apply push_candidates_reads in Hp as (_ & _ & Hhv & _); [|done..].
    left. rewrite <- Hv. symmetry.
    transitivity (voted s1 c a); [by apply voted_same_table|].
    transitivity (voted (register_room rc t d m et hp ph e s) c a);
      by apply voted_same_table.
  - apply push_candidates_reads in Hp as (_ & _ & Hhv & _); [|done..].
    left. by rewrite (voted_same_table _ _ c a Hhv) in Hv.
  - destruct (joined_fields rc e s) as (_ & _ & Hhv & _).
    left. by rewrite (voted_same_table _ _ c a Hhv) in Hv.
  - destruct (voted_for_fields rc k v e s) as (Hhv & _).
    rewrite (voted_table _ _ c a Hhv) in Hv.
    destruct (decide ((rc, sender e) = (c, a))) as [Heq|Hne].
    + right. injection Heq as <- <-. exact Hpa.
    + left. rewrite mapping_get2_set2_ne in Hv by done. exact Hv.
  - left. rewrite <- Hv. symmetry. by apply voted_same_table.
  - destruct (store_results_reads rc counts 0 s) as (_ & _ & Hhv & _).
    left. rewrite <- Hv. symmetry.
    transitivity (voted (store_results rc 0 counts s) c a);
      by apply voted_same_table.
Qed.

Lemma step_roll_consistent s s' c :
  step s s' -> roll_consistent s c -> roll_consistent s' c.
Proof.
  intros Hst (Hvp & Hcount & Hnone).
  split; [|split].
  - intros a Hv. destruct (step_newly_voted s s' c a Hst Hv) as [Hv0|Hp0];
      eapply step_participant; eauto.
  - destruct (step_members s s' c Hst)
      as [(Hip & Hpc & Hcode)|[(a & Hno & Hnew & Hpc & Hip)
                              |(a & Hex & Hcode & Hnp & Hpc & Hip)]];
      unfold participants; rewrite Hip, Hpc.
    + rewrite Hcode. apply Hcount.
    + intros Hex'. rewrite Hnew in Hex'.
      assert (Hnobody : forall b, default false
                (mapping_get ∅ (isParticipant s) c !! b) = false)
        by (intros b; by apply Hnone).
      rewrite voters_insert by apply Hnobody.
      by rewrite flagged_none.
    + intros _. rewrite voters_insert by done.
      specialize (Hcount Hex). unfold participants in Hcount. lia.
  - intros Hno Hne b.
    destruct (step_members s s' c Hst)
      as [(Hip & Hpc & Hcode)|[(a & Hno' & Hnew & Hpc & Hip)
                              |(a & Hex & Hcode & Hnp & Hpc & Hip)]].
    + unfold participant, mapping_get2. rewrite Hip. apply Hnone; congruence.
    + congruence.
    + congruence.
Qed.

Lemma roll_consistent_reachable txs c : roll_consistent (run init txs) c.
Proof.
  pose proof (run_ind (fun s s' => roll_consistent s c -> roll_consistent s' c))
    as Hrun.
  apply Hrun.
  - done.
  - intros s1 s2 s3 H12 H23 H1. eapply step_roll_consistent; eauto.
  - split; [|split].
    + intros a. unfold voted, mapping_get2, init. cbn [hasVoted].
      by rewrite !mapping_get_empty.
    + by rewrite room_init.
    + intros _ _ a. unfold participant, mapping_get2, init. cbn [isParticipant].
      by rewrite !mapping_get_empty.
Qed.

(** [X11] In every state reached from the empty contract, whoever has voted
    in a room is a participant of it, and under a non-empty room code
    [participantCount] is exactly the number of identities whose
    [isParticipant] flag is set. *)
Theorem participantCount_counts_participants txs c :
  (forall a, hasUserVoted c a (run init txs) = Ok true ->
             isUserParticipant c a (run init txs) = Ok true) /\
  (code (room (run init txs) c) <> "" ->
   N.of_nat (size (participants (run init txs) c))
   = participantCount (room (run init txs) c)).
Proof.
  destruct (roll_consistent_reachable txs c) as (Hvp & Hcount & _).
  split; [|done].
  intros a. unfold hasUserVoted, isUserParticipant, roomExists.
  destruct (0 <? _); [|done].
  cbn [require mbind result_mbind result_bind mret result_mret].
  intros [= Hv]. by rewrite Hvp.
Qed.

(** [X12] In every state reached from the empty contract
    [totalVotes <= participantCount <= maxParticipants] for every room.  So
    the auto-close of [vote] fires only at full turnout: when a successful
    vote leaves the room inactive, the room is full and every participant
    has voted ([totalVotes = participantCount = maxParticipants]). *)
Theorem totalVotes_le_participantCount txs c :
  let s := run init txs in
  (total_votes s c <= participantCount (room s c) /\
   participantCount (room s c) <= maxParticipants (room s c)) /\
  (forall k ev pf e s',
     vote c k ev pf e s = Ok s' -> isActive (room s' c) = false ->
     total_votes s' c = maxParticipants (room s' c) /\
     participantCount (room s' c) = maxParticipants (room s' c)).
Proof.
  assert (Hbound : forall txs0,
            total_votes (run init txs0) c <= participantCount (room (run init txs0) c) /\
            participantCount (room (run init txs0) c)
            <= maxParticipants (room (run init txs0) c)).
  { intros txs0.
    destruct (closed_consistent_reachable txs0 c) as (_ & _ & Hle).
    split; [|done].
    destruct (tally_consistent_reachable txs0 c) as (Hsum & Hsize & _ & Hfresh).
    destruct (roll_consistent_reachable txs0 c) as (Hvp & Hcount & _).
    destruct (decide (code (room (run init txs0) c) = "")) as [Hno|Hex].
    - rewrite Hsum, sum_candidate_votes_zero by auto. lia.
    - rewrite Hsize, <- Hcount by done. unfold voters, participants.
      pose proof (flagged_subset
                    (mapping_get ∅ (hasVoted (run init txs0)) c)
                    (mapping_get ∅ (isParticipant (run init txs0)) c)
                    (fun a => Hvp a)) as Hsub.
      lia. }
  cbv zeta. split; [apply Hbound|].
  intros k ev pf e s' Hok Hin.
  assert (Hrun : s' = run init (txs ++ [mkTx e (Vote c k ev pf)])).
  { rewrite run_app. cbn [run fold_left]. symmetry. by apply exec_Ok. }
  destruct (Hbound (txs ++ [mkTx e (Vote c k ev pf)])) as [Htp Hpm].
  rewrite <- Hrun in Htp, Hpm.
  apply vote_Ok in Hok as (Hex & _ & _ & Hact & _ & _ & _ & v & _ & ->).
  destruct (voted_for_tally c k v e (run init txs)) as (Htv & _).
  rewrite room_voted_for, decide_True in Hin, Htp, Hpm |- * by done.
  unfold end_if_all_voted in *.
  destruct (N.leb_spec (maxParticipants (room (run init txs) c))
                       (total_votes (run init txs) c + 1)) as [Hge|Hlt].
  - cbn [set_isActive maxParticipants participantCount] in *. lia.
  - congruence.
Qed.

Lemma joinRoom_Revert_participant rc pw e s :
  participant s rc (sender e) = true ->
  is_revert (joinRoom rc pw e s) = true /\
  (code (room s rc) <> "" -> isActive (room s rc) = true ->
   timestamp e < endTime (room s rc) -> isClosed (room s rc) = false ->
   joinRoom rc pw e s = Revert "Already a participant").
Proof.
  intros Hp. split.
  - unfold joinRoom, roomExists, roomActive. rewrite Hp.
    destruct (0 <? _); [|done]. destruct (isActive _); [|done].
    destruct (timestamp e <? _); [|done]. by destruct (isClosed _).
  - intros Hex Ha Ht Hc. apply joinRoom_gates.
    unfold joinRoom_first_failure. cbv zeta.
    rewrite decide_False by done. apply N.ltb_lt in Ht.
    by rewrite Ha, Ht, Hc, Hp.
Qed.

(** [X1] An identity joins a room at most once: after a successful
    [joinRoom], every later [joinRoom] on that room by the same identity,
    after any sequence of transactions, reverts; while the room is still
    open to newcomers the message is "Already a participant".  The identity
    stays a participant for good. *)
Theorem joinRoom_at_most_once rc pw e s s1 txs e2 pw2 :
  joinRoom rc pw e s = Ok s1 ->
  sender e2 = sender e ->
  let s2 := run s1 txs in
  isUserParticipant rc (sender e) s2 = Ok true /\
  is_revert (joinRoom rc pw2 e2 s2) = true /\
  (isActive (room s2 rc) = true -> timestamp e2 < endTime (room s2 rc) ->
   isClosed (room s2 rc) = false ->
   joinRoom rc pw2 e2 s2 = Revert "Already a participant").
Proof.
  intros Hok Hsame s2.
  apply joinRoom_Ok in Hok as (Hex & _ & _ & _ & _ & _ & _ & ->).
  assert (Hex2 : code (room s2 rc) <> "").
  { apply run_exists. rewrite room_joined, decide_True by done.
    unfold close_if_full. by destruct (_ <=? _). }
  assert (Hp2 : participant s2 rc (sender e) = true).
  { apply run_participant. destruct (joined_fields rc e s) as (Hip & _).
    unfold participant. by rewrite Hip, mapping_get2_set2_eq. }
  split; [|split].
  - unfold isUserParticipant. rewrite roomExists_pass by done. by rewrite Hp2.
  - apply joinRoom_Revert_participant. by rewrite Hsame.
  - intros Ha Ht Hc. apply joinRoom_Revert_participant; by rewrite ?Hsame.
Qed.

(** [X2] A room created by [createRoom] under a non-empty code is fixed for
    good: after any sequence of transactions [getRoom] still returns the
    code, title, description, creator, capacity, end time and password
    settings of the creation call, the creator is a participant, and every
    further creation under that code, by either creation function, reverts
    with "Room code already exists". *)
Theorem createRoom_fixes_identity rc t d m et hp ph e s s1 txs :
  createRoom rc t d m et hp ph e s = Ok s1 ->
  rc <> "" ->
  let s2 := run s1 txs in
  (exists r, getRoom rc s2 = Ok r /\
     code r = rc /\ title r = t /\ description r = d /\ creator r = sender e /\
     maxParticipants r = m /\ endTime r = et /\ hasPassword r = hp /\
     passwordHash r = ph) /\
  isUserParticipant rc (sender e) s2 = Ok true /\
  (forall t' d' m' et' hp' ph' e',
     createRoom rc t' d' m' et' hp' ph' e' s2 = Revert "Room code already exists") /\
  (forall t' d' m' et' hp' ph' ns ds us e',
     createRoomWithCandidatesBatch rc t' d' m' et' hp' ph' ns ds us e' s2
     = Revert "Room code already exists").
Proof.
  intros Hok Hrc s2.
  apply createRoom_Ok in Hok as (_ & _ & _ & ->).
  set (s1 := emit (RoomCreated rc (sender e) t) (register_room rc t d m et hp ph e s))
    in *.
  assert (Hr1 : room s1 rc = mkRoom rc t d (sender e) m 1 et hp ph true false 0)
    by (subst s1; by rewrite room_emit, room_register_room, decide_True).
  assert (Hex1 : code (room s1 rc) <> "") by (by rewrite Hr1).
  pose proof (run_identity s1 txs rc Hex1) as Hid. fold s2 in Hid.
  rewrite Hr1 in Hid. cbn in Hid.
  destruct Hid as (Hc & Ht & Hd & Hcr & Hm & Het & Hhp & Hph).
  assert (Hex2 : code (room s2 rc) <> "") by (by rewrite Hc).
  assert (Hlen : (bytes_length (code (room s2 rc)) =? 0) = false).
  { destruct (bytes_length (code (room s2 rc)) =? 0) eqn:Hz; [|done].
    by apply bytes_length_zero in Hz. }
  split; [|split; [|split]].
  - exists (room s2 rc). split; [|done].
    unfold getRoom. by rewrite roomExists_pass.
  - unfold isUserParticipant. rewrite roomExists_pass by done.
    replace (participant s2 rc (sender e)) with true; [done|].
    symmetry. apply run_participant. subst s1.
    unfold participant, emit, register_room, store_room, store_participant.
    cbn [isParticipant]. by rewrite mapping_get2_set2_eq.
  - intros. unfold createRoom. by rewrite Hlen.
  - intros. unfold createRoomWithCandidatesBatch. by rewrite Hlen.
Qed.

(** ** Candidates are materialised *)

Lemma bind_Revert_inv {A B : Type} (c : result A) (k : A -> result B) (r : string) :
  (c ≫= k) = Revert r -> c = Revert r \/ exists a, c = Ok a /\ k a = Revert r.
Proof.
  unfold mbind, result_mbind, result_bind. destruct c as [a|r']; intros Hk.
  - right. by exists a.
  - left. by injection Hk as ->.
Qed.

Lemma require_Revert_inv (b : bool) (m r : string) :
  require b m = Revert r -> b = false /\ m = r.
Proof. destruct b; [discriminate|]. by intros [= ->]. Qed.

Lemma checked_inc_Revert_inv (x : N) (r : string) :
  checked_inc x = Revert r -> r = "Panic(0x11)".
Proof. unfold checked_inc. destruct (_ <? _); [discriminate|]. by intros [= <-]. Qed.

Lemma step_candidates_exist s s' :
  step s s' ->
  (forall c i, i < candidateCount (room s c) -> exists_ (candidate s c i) = true) ->
  forall c i, i < candidateCount (room s' c) -> exists_ (candidate s' c i) = true.
Proof.
  intros [ | rc t d m et hp ph e Hc Ht Hm
           | rc t d m et hp ph ns ds us e s1 Hc Ht Hm Hl1 Hl2 Hn Hp
           | rc ns ds us e s1 Hc Hs Ha Hl1 Hl2 Hp
           | rc e Hc Ha Ht Hcl Hnp Hfull
           | rc k v e Hc Hpa Hnv Ha Ht Hk
           | rc Hc Ha
           | rc counts e Hc Hs Ha Hl ] Hinv c i.
  - apply Hinv.
  - rewrite room_emit, room_register_room.
    change (candidate (emit ?ev (register_room rc t d m et hp ph e s)) c i)
      with (candidate s c i).
    destruct (decide (rc = c)) as [<-|]; [cbn; lia|apply Hinv].
  - apply push_candidates_reads in Hp as (Hr & Hcand & _); [|done..].
    rewrite room_emit, Hr.
    change (candidate (emit ?ev s1) c i) with (candidate s1 c i).
    rewrite Hcand, !room_register_room.
    change (candidate (register_room rc t d m et hp ph e s) c i)
      with (candidate s c i).
    destruct (decide (rc = c)) as [<-|Hne].
    + rewrite decide_True by done. cbn [set_candidateCount candidateCount].
      intros Hi. by rewrite decide_True by (split; [done|lia]).
    + rewrite decide_False by tauto. apply Hinv.
  - apply push_candidates_reads in Hp as (Hr & Hcand & _); [|done..].
    rewrite Hr, Hcand. destruct (decide (rc = c)) as [<-|Hne].
    + cbn [set_candidateCount candidateCount]. intros Hi.
      destruct (decide (rc = rc /\ candidateCount (room s rc) <= i
                        < candidateCount (room s rc) + N.of_nat (length ns)))
        as [_|Hout]; [done|].
      apply Hinv. destruct (N.lt_ge_cases i (candidateCount (room s rc))); [done|].
      destruct Hout. split; [done|lia].
    + rewrite decide_False by tauto. apply Hinv.
  - destruct (joined_fields rc e s) as (_ & Hrc & _).
    rewrite room_joined, (candidate_same_table _ _ _ _ Hrc).
    destruct (decide (rc = c)) as [<-|]; [|apply Hinv].
    unfold close_if_full. destruct (_ <=? _); apply Hinv.
  - destruct (voted_for_fields rc k v e s) as (_ & _ & _ & Hrc & _).
    rewrite room_voted_for. unfold candidate at 1. rewrite Hrc.
    intros Hi.
    assert (Hi' : i < candidateCount (room s c)).
    { destruct (decide (rc = c)) as [<-|]; [|done].
      unfold end_if_all_voted in Hi. by destruct (_ <=? _). }
    destruct (decide ((rc, k) = (c, i))) as [[= <- <-]|Hne].
    + rewrite mapping_get2_set2_eq. cbn [set_votes exists_]. by apply Hinv.
    + rewrite mapping_get2_set2_ne by done. by apply Hinv.
  - rewrite room_emit, room_store_room.
    change (candidate (emit ?ev (store_room ?a ?r ?s0)) c i) with (candidate s0 c i).
    destruct (decide (rc = c)) as [<-|]; apply Hinv.
  - destruct (store_results_reads rc counts 0 s) as (_ & Hrc & _).
    rewrite room_emit, room_published.
    change (candidate (emit ?ev (store_published ?a ?b ?s0)) c i)
      with (candidate s0 c i).
    rewrite (candidate_same_table _ _ _ _ Hrc). apply Hinv.
Qed.

(** [X10] In every state reached from the empty contract every candidate id
    below [candidateCount] has its [exists] flag set, so the last guard of
    [vote] never fires: no [vote] call reverts with "Candidate does not
    exist". *)
Theorem candidates_below_count_exist txs :
  (forall c i, i < candidateCount (room (run init txs) c) ->
               exists_ (candidate (run init txs) c i) = true) /\
  (forall c k ev pf e,
     vote c k ev pf e (run init txs) <> Revert "Candidate does not exist").
Proof.
  assert (Hinv : forall c i, i < candidateCount (room (run init txs) c) ->
                             exists_ (candidate (run init txs) c i) = true).
  { pose proof (run_ind (fun s s' =>
      (forall c i, i < candidateCount (room s c) -> exists_ (candidate s c i) = true) ->
      forall c i, i < candidateCount (room s' c) -> exists_ (candidate s' c i) = true))
      as Hrun.
    apply Hrun.
    - done.
    - intros s1 s2 s3 H12 H23 H1. eapply step_candidates_exist; eauto.
    - intros c i. rewrite room_init. cbn. lia. }
  split; [done|].
  intros c k ev pf e Hrev. unfold vote, isRoomParticipant, hasNotVoted in Hrev.
  apply bind_Revert_inv in Hrev as [Hrev|(? & _ & Hrev)];
    [unfold roomExists in Hrev; by apply require_Revert_inv in Hrev as [_ ?]|].
  apply bind_Revert_inv in Hrev as [Hrev|(? & _ & Hrev)];
    [by apply require_Revert_inv in Hrev as [_ ?]|].
  apply bind_Revert_inv in Hrev as [Hrev|(? & _ & Hrev)];
    [by apply require_Revert_inv in Hrev as [_ ?]|].
  apply bind_Revert_inv in Hrev as [Hrev|(? & _ & Hrev)];
    [by apply require_Revert_inv in Hrev as [_ ?]|].
  apply bind_Revert_inv in Hrev as [Hrev|(? & _ & Hrev)];
    [by apply require_Revert_inv in Hrev as [_ ?]|].
  apply bind_Revert_inv in Hrev as [Hrev|(? & Hk & Hrev)];
    [by apply require_Revert_inv in Hrev as [_ ?]|].
  apply require_Ok, N.ltb_lt in Hk.
  apply bind_Revert_inv in Hrev as [Hrev|(? & _ & Hrev)].
  { apply require_Revert_inv in Hrev as [Hno _]. rewrite Hinv in Hno by done. done. }
  apply bind_Revert_inv in Hrev as [Hrev|(? & _ & Hrev)].
  { unfold fromExternal in Hrev. by destruct (FHE_fromExternal _ _ _). }
  apply bind_Revert_inv in Hrev as [Hrev|(? & _ & Hrev)];
    [by apply checked_inc_Revert_inv in Hrev|].
  apply bind_Revert_inv in Hrev as [Hrev|(? & _ & Hrev)];
    [by apply checked_inc_Revert_inv in Hrev|].
  discriminate Hrev.
Qed.

(** ** Published results *)

Lemma published_table s (tbl : gmap string bool) c :
  resultsPublished s = tbl -> published s c = mapping_get false tbl c.
Proof. by intros <-. Qed.

Lemma step_published s s' c :
  step s s' ->
  (published s c = true -> published s' c = true) /\
  (published s' c = true ->
   published s c = true \/ (code (room s c) <> "" /\ isActive (room s c) = false)).
Proof.
  intros [ | rc t d m et hp ph e Hc Ht Hm
           | rc t d m et hp ph ns ds us e s1 Hc Ht Hm Hl1 Hl2 Hn Hp
           | rc ns ds us e s1 Hc Hs Ha Hl1 Hl2 Hp
           | rc e Hc Ha Ht Hcl Hnp Hfull
           | rc k v e Hc Hpa Hnv Ha Ht Hk
           | rc Hc Ha
           | rc counts e Hc Hs Ha Hl ].
  - tauto.
  - rewrite (published_table _ (resultsPublished s) c eq_refl).
    fold (published s c). tauto.
  - apply push_candidates_reads in Hp as (_ & _ & _ & _ & _ & _ & _ & Hrp); [|done..].
    rewrite (published_table (emit _ s1) (resultsPublished s) c Hrp).
    fold (published s c). tauto.
  - apply push_candidates_reads in Hp as (_ & _ & _ & _ & _ & _ & _ & Hrp); [|done..].
    rewrite (published_table s1 (resultsPublished s) c Hrp).
    fold (published s c). tauto.
  - destruct (joined_fields rc e s) as (_ & _ & _ & _ & _ & _ & Hrp).
    rewrite (published_table _ _ c Hrp). fold (published s c). tauto.
  - destruct (voted_for_fields rc k v e s) as (_ & _ & _ & _ & _ & _ & Hrp).
    rewrite (published_table _ _ c Hrp). fold (published s c). tauto.
  - rewrite (published_table _ (resultsPublished s) c eq_refl).
    fold (published s c). tauto.
  - destruct (store_results_reads rc counts 0 s) as (_ & _ & _ & _ & _ & _ & Hrp & _).
    assert (Htbl : resultsPublished (emit (ResultsPublished rc)
                     (store_published rc true (store_results rc 0 counts s)))
                   = <[rc := true]> (resultsPublished s))
      by (exact (f_equal (insert rc true) Hrp)).
    rewrite (published_table _ _ c Htbl).
    destruct (decide (rc = c)) as [<-|Hne].
    + rewrite mapping_get_insert_eq. split; [done|]. intros _. by right.
    + rewrite mapping_get_insert_ne by done. fold (published s c). tauto.
Qed.

(** [X13] Results are published only for ended rooms and never withdrawn.
    In every state reached from the empty contract, a room with
    [resultsPublished] set exists and is inactive; it stays published and
    rejects every vote after any further transactions; and while results are
    not published [getClearResults] reverts with "Results not published
    yet". *)
Theorem results_published_only_after_end txs c :
  let s := run init txs in
  (published s c = true -> code (room s c) <> "" /\ isActive (room s c) = false) /\
  (code (room s c) <> "" -> published s c = false ->
   forall i, getClearResults c i s = Revert "Results not published yet") /\
  (published s c = true ->
   forall txs2,
     areResultsPublished c (run s txs2) = Ok true /\
     forall k ev pf e, is_revert (vote c k ev pf e (run s txs2)) = true).
Proof.
  assert (Hinv : forall txs0, published (run init txs0) c = true ->
            code (room (run init txs0) c) <> "" /\
            isActive (room (run init txs0) c) = false).
  { intros txs0.
    pose proof (run_ind (fun s s' =>
      (published s c = true -> code (room s c) <> "" /\ isActive (room s c) = false) ->
      published s' c = true -> code (room s' c) <> "" /\ isActive (room s' c) = false))
      as Hrun.
    apply Hrun.
    - done.
    - intros s1 s2 s3 H12 H23 H1 Hp3.
      destruct (step_published s2 s3 c H23) as [_ Hback].
      destruct (Hback Hp3) as [Hp2|[Hex Hin]].
      + destruct (H12 H1 Hp2) as [Hex Hin].
        split; [by eapply step_exists|by eapply step_inactive].
      + split; [by eapply step_exists|by eapply step_inactive].
    - unfold published, init. cbn [resultsPublished]. by rewrite mapping_get_empty. }
  cbv zeta. split; [apply Hinv|]. split.
  - intros Hex Hnp i. unfold getClearResults. rewrite roomExists_pass by done.
    by rewrite Hnp.
  - intros Hp txs2. destruct (Hinv txs Hp) as [Hex Hin].
    assert (Hp2 : published (run (run init txs) txs2) c = true).
    { revert Hp. generalize (run init txs) as s0. revert txs2.
      apply (run_ind (fun s s' => published s c = true -> published s' c = true)).
      - done.
      - intros s1 s2 s3 H12 H23 H1. by apply (step_published s2 s3 c H23), H12. }
    split.
    + unfold areResultsPublished. rewrite roomExists_pass by (by apply run_exists).
      by rewrite Hp2.
    + intros k ev pf e. by apply vote_Revert_inactive, run_inactive.
Qed.

(** ** Adding candidates *)

Lemma getCandidate_read rc i s :
  code (room s rc) <> "" -> i < candidateCount (room s rc) ->
  getCandidate rc i s
  = Ok (name (candidate s rc i), cand_description (candidate s rc i),
        imageUrl (candidate s rc i)).
Proof.
  intros Hex Hi. unfold getCandidate. rewrite roomExists_pass by done.
  apply N.ltb_lt in Hi. by rewrite Hi.
Qed.

Lemma getCandidate_out_of_range rc i s :
  code (room s rc) <> "" -> candidateCount (room s rc) <= i ->
  getCandidate rc i s = Revert "Invalid candidate".
Proof.
  intros Hex Hi. unfold getCandidate. rewrite roomExists_pass by done.
  apply N.ltb_ge in Hi. by rewrite Hi.
Qed.

(** [X14] [addCandidate] reverts for a caller other than the creator and on
    an inactive room.  When it succeeds the new candidate takes the id
    [candidateCount] (which was out of range just before), reads back as
    supplied, starts from the encrypted zero, and every earlier candidate
    reads back as before. *)
Theorem addCandidate_appends rc n d u e s :
  (sender e <> creator (room s rc) -> is_revert (addCandidate rc n d u e s) = true) /\
  (isActive (room s rc) = false -> is_revert (addCandidate rc n d u e s) = true) /\
  (forall s', addCandidate rc n d u e s = Ok s' ->
     let k := candidateCount (room s rc) in
     getCandidate rc k s = Revert "Invalid candidate" /\
     candidateCount (room s' rc) = k + 1 /\
     getCandidate rc k s' = Ok (n, d, u) /\
     getCandidateVotes rc k s' = Ok (FHE_asEuint32 0) /\
     forall i, i < k -> getCandidate rc i s' = getCandidate rc i s).
Proof.
  split; [|split].
  - intros Hne. unfold addCandidate, roomExists. destruct (0 <? _); [|done].
    apply N.eqb_neq in Hne. by rewrite Hne.
  - intros Hin. unfold addCandidate, roomExists. destruct (0 <? _); [|done].
    destruct (sender e =? creator (room s rc)); [|done]. by rewrite Hin.
  - intros s' Hok k. apply addCandidate_Ok in Hok as (Hex & _ & _ & Hp).
    apply push_candidate_reads in Hp as (Hr & Hc & _).
    assert (Hr' : room s' rc = set_candidateCount (k + 1) (room s rc))
      by (by rewrite Hr, decide_True).
    assert (Hex' : code (room s' rc) <> "") by (by rewrite Hr').
    assert (Hcc : candidateCount (room s' rc) = k + 1) by (by rewrite Hr').
    split; [apply getCandidate_out_of_range; [done|subst k; lia]|].
    split; [done|]. split; [|split].
    + rewrite getCandidate_read by (done || lia).
      by rewrite Hc, decide_True.
    + unfold getCandidateVotes. rewrite roomExists_pass by done.
      replace (k <? candidateCount (room s' rc)) with true
        by (symmetry; apply N.ltb_lt; lia).
      by rewrite Hc, decide_True.
    + intros i Hi. rewrite !getCandidate_read by (done || lia).
      rewrite Hc, decide_False; [done|]. intros [= Heq]. subst k. lia.
Qed.

Lemma push_candidate_keeps rc n d u e s s' :
  push_candidate rc n d u e s = Ok s' ->
  code (room s' rc) = code (room s rc) /\ creator (room s' rc) = creator (room s rc) /\
  isActive (room s' rc) = isActive (room s rc).
Proof.
  intros Hp. apply push_candidate_reads in Hp as (Hr & _).
  by rewrite Hr, decide_True.
Qed.

Lemma push_candidates_as_singles rc ns : forall ds us e s s',
  code (room s rc) <> "" -> sender e = creator (room s rc) ->
  isActive (room s rc) = true ->
  push_candidates rc ns ds us e s = Ok s' ->
  run s (single_adds rc e ns ds us) = s'.
Proof.
  induction ns as [|n ns IH]; intros [|d ds] [|u us] e s s' Hex Hcr Hact Hok;
    try (by injection Hok as <-).
  cbn [push_candidates] in Hok. apply bind_Ok in Hok as (s1 & H1 & Hok).
  cbn [single_adds run fold_left].
  assert (Hadd : addCandidate rc n d u e s = Ok s1).
  { unfold addCandidate. rewrite roomExists_pass by done.
    by rewrite Hcr, N.eqb_refl, Hact. }
  rewrite (exec_Ok s e (AddCandidate rc n d u) s1 Hadd).
  destruct (push_candidate_keeps _ _ _ _ _ _ _ H1) as (Hc1 & Hcr1 & Ha1).
  apply (IH ds us e s1 s'); by rewrite ?Hc1, ?Hcr1, ?Ha1.
Qed.

(** [X15] A batch is the sequence of its single additions: when
    [addCandidatesBatch] succeeds, running one [addCandidate] transaction per
    entry, in order and from the same sender, succeeds at every step and
    ends in the very same state. *)
Theorem addCandidatesBatch_as_singles rc ns ds us e s s' :
  addCandidatesBatch rc ns ds us e s = Ok s' ->
  run s (single_adds rc e ns ds us) = s' /\
  candidateCount (room s' rc) = candidateCount (room s rc) + N.of_nat (length ns).
Proof.
  intros Hok.
  apply addCandidatesBatch_Ok in Hok as (Hex & Hcr & Hact & Hl1 & Hl2 & _ & Hp).
  split; [by eapply push_candidates_as_singles|].
  apply push_candidates_reads in Hp as (Hr & _); [|done..].
  by rewrite Hr, decide_True.
Qed.

(** ** The encrypted tally *)

Lemma candidate_store_candidate rc k c s :
  candidate (store_candidate rc k c s) rc k = c.
Proof. unfold candidate, store_candidate. cbn [roomCandidates]. apply mapping_get2_set2_eq. Qed.

Lemma allow_reads h a s :
  grants (allow h a s) = grants s ++ [(h, a)] /\
  (forall rc k, candidate (allow h a s) rc k = candidate s rc k) /\
  (forall rc, room (allow h a s) rc = room s rc).
Proof. done. Qed.

Lemma add_encrypted_vote_grants rc k v e s :
  grants (add_encrypted_vote rc k v e s)
  = grants s ++ [(FHE_add (votes (candidate s rc k)) v, this);
                 (FHE_add (votes (candidate s rc k)) v, sender e);
                 (FHE_add (votes (candidate s rc k)) v, creator (room s rc))].
Proof.
  unfold add_encrypted_vote. cbv zeta.
  set (c' := set_votes (FHE_add (votes (candidate s rc k)) v) (candidate s rc k)).
  set (s1 := store_candidate rc k c' s).
  assert (Hc1 : candidate s1 rc k = c') by apply candidate_store_candidate.
  assert (Hg1 : grants s1 = grants s) by done.
  assert (Hr1 : room s1 rc = room s rc) by done.
  destruct (allow_reads (votes (candidate s1 rc k)) this s1) as (Hg2 & Hc2 & Hr2).
  set (s2 := allow (votes (candidate s1 rc k)) this s1) in *.
  destruct (allow_reads (votes (candidate s2 rc k)) (sender e) s2) as (Hg3 & Hc3 & Hr3).
  set (s3 := allow (votes (candidate s2 rc k)) (sender e) s2) in *.
  destruct (allow_reads (votes (candidate s3 rc k)) (creator (room s3 rc)) s3)
    as (Hg4 & _ & _).
  rewrite Hg4, Hg3, Hg2, Hg1, !Hc3, !Hc2, !Hc1, Hr3, Hr2, Hr1.
  by rewrite <- !app_assoc.
Qed.

Lemma getCandidateVotes_read rc i s :
  code (room s rc) <> "" -> i < candidateCount (room s rc) ->
  getCandidateVotes rc i s = Ok (votes (candidate s rc i)).
Proof.
  intros Hex Hi. unfold getCandidateVotes. rewrite roomExists_pass by done.
  apply N.ltb_lt in Hi. by rewrite Hi.
Qed.

(** [X16] A successful [vote] folds the converted ciphertext into the
    encrypted total of the chosen candidate with one homomorphic addition,
    leaves the encrypted totals of the other candidates alone, and grants
    the new handle to the contract, to the voter and to the room creator, in
    that order. *)
Theorem vote_adds_to_encrypted_total rc k ev pf e s s' :
  vote rc k ev pf e s = Ok s' ->
  exists h v,
    getCandidateVotes rc k s = Ok h /\
    FHE_fromExternal (sender e) ev pf = Some v /\
    getCandidateVotes rc k s' = Ok (FHE_add h v) /\
    (forall i, i <> k -> getCandidateVotes rc i s' = getCandidateVotes rc i s) /\
    grants s' = grants s ++ [(FHE_add h v, this); (FHE_add h v, sender e);
                             (FHE_add h v, creator (room s rc))].
Proof.
  intros Hok.
  apply vote_Ok in Hok as (Hex & _ & _ & _ & _ & Hk & _ & v & Hv & ->).
  exists (votes (candidate s rc k)), v.
  destruct (voted_for_fields rc k v e s) as (_ & _ & _ & Hrc & _).
  assert (Hroom : candidateCount (room (voted_for rc k v e s) rc)
                  = candidateCount (room s rc) /\
                  code (room (voted_for rc k v e s) rc) = code (room s rc)).
  { rewrite room_voted_for, decide_True by done.
    unfold end_if_all_voted. by destruct (_ <=? _). }
  destruct Hroom as [Hcc Hcode].
  assert (Hcand : forall i, candidate (voted_for rc k v e s) rc i
            = if decide (k = i)
              then set_votes (FHE_add (votes (candidate s rc k)) v) (candidate s rc k)
              else candidate s rc i).
  { intros i. unfold candidate at 1. rewrite Hrc.
    destruct (decide (k = i)) as [<-|Hne].
    - by rewrite mapping_get2_set2_eq.
    - rewrite mapping_get2_set2_ne; [done|congruence]. }
  split; [by apply getCandidateVotes_read|]. split; [done|]. split; [|split].
  - rewrite getCandidateVotes_read by (by rewrite ?Hcode, ?Hcc).
    by rewrite Hcand, decide_True.
  - intros i Hne. unfold getCandidateVotes.
    rewrite !roomExists_pass by (by rewrite ?Hcode). rewrite Hcc.
    by rewrite Hcand, decide_False.
  - transitivity (grants (add_encrypted_vote rc k v e s)).
    + unfold voted_for. cbv zeta. by destruct (_ <=? _).
    + apply add_encrypted_vote_grants.
Qed.

(** ** The guards of a vote *)

Lemma vote_gates rc k ev pf e s m :
  vote_first_failure rc k e s = Some m -> vote rc k ev pf e s = Revert m.
Proof.
  unfold vote_first_failure, vote, isRoomParticipant, hasNotVoted. cbv zeta.
  destruct (decide (code (room s rc) = "")) as [Hno|Hex].
  { intros [= <-]. unfold roomExists. by rewrite Hno. }
  rewrite roomExists_pass by done.
  destruct (participant s rc (sender e)); [|by intros [= <-]].
  destruct (voted s rc (sender e)); [by intros [= <-]|].
  destruct (isActive (room s rc)); [|by intros [= <-]].
  destruct (timestamp e <? endTime (room s rc)); [|by intros [= <-]].
  destruct (k <? candidateCount (room s rc)); [|by intros [= <-]].
  destruct (exists_ (candidate s rc k)); [done|by intros [= <-]].
Qed.

Lemma vote_passed rc k e s :
  vote_first_failure rc k e s = None ->
  code (room s rc) <> "" /\ participant s rc (sender e) = true /\
  voted s rc (sender e) = false /\ isActive (room s rc) = true /\
  timestamp e < endTime (room s rc) /\ k < candidateCount (room s rc) /\
  exists_ (candidate s rc k) = true.
Proof.
  unfold vote_first_failure. cbv zeta.
  destruct (decide (code (room s rc) = "")); [done|].
  destruct (participant s rc (sender e)); [|done].
  destruct (voted s rc (sender e)); [done|].
  destruct (isActive (room s rc)); [|done].
  destruct (N.ltb_spec (timestamp e) (endTime (room s rc))); [|done].
  destruct (N.ltb_spec k (candidateCount (room s rc))); [|done].
  destruct (exists_ (candidate s rc k)); done.
Qed.

(** [X17] [vote] tries its guards in the order room exists, caller is a
    participant, caller has not voted, room is active, [endTime] is ahead,
    candidate id is in range, candidate exists, and reverts with the message
    of the first one that fails.  Past the guards, a rejected input proof
    still reverts the call and leaves the caller's [hasVoted] flag unset, so
    the vote can be resubmitted; with an accepted proof and counters below
    the [uint256] maximum the call succeeds. *)
Theorem vote_guards rc k ev pf e s :
  (forall m, vote_first_failure rc k e s = Some m ->
             vote rc k ev pf e s = Revert m) /\
  (vote_first_failure rc k e s = None ->
   FHE_fromExternal (sender e) ev pf = None ->
   is_revert (vote rc k ev pf e s) = true /\
   voted (exec s (mkTx e (Vote rc k ev pf))) rc (sender e) = false) /\
  (vote_first_failure rc k e s = None ->
   forall v, FHE_fromExternal (sender e) ev pf = Some v ->
   total_votes s rc < uint256_max -> candidate_votes s rc k < uint256_max ->
   vote rc k ev pf e s = Ok (voted_for rc k v e s)).
Proof.
  split; [intros m; apply vote_gates|]. split.
  - intros Hpass Hrej.
    apply (vote_passed rc k e s) in Hpass
      as (Hex & Hp & Hnv & Ha & Ht & Hk & Hcx).
    destruct (vote rc k ev pf e s) as [s'|m] eqn:Hv.
    + apply vote_Ok in Hv as (_ & _ & _ & _ & _ & _ & _ & v & Hv & _). congruence.
    + split; [done|]. by rewrite (exec_Revert s e (Vote rc k ev pf) m Hv).
  - intros Hpass v Hacc Htv Hcv.
    apply (vote_passed rc k e s) in Hpass
      as (Hex & Hp & Hnv & Ha & Ht & Hk & Hcx).
    destruct (vote rc k ev pf e s) as [s'|m] eqn:Hv.
    + apply vote_Ok in Hv as (_ & _ & _ & _ & _ & _ & _ & v' & Hv' & ->). congruence.
    + exfalso. unfold vote, isRoomParticipant, hasNotVoted in Hv.
      rewrite roomExists_pass in Hv by done.
      apply N.ltb_lt in Ht, Hk. rewrite Hp, Hnv, Ha, Ht, Hk, Hcx in Hv.
      apply bind_Revert_inv in Hv as [Hv|(? & _ & Hv)]; [discriminate|].
      apply bind_Revert_inv in Hv as [Hv|(? & _ & Hv)]; [discriminate|].
      apply bind_Revert_inv in Hv as [Hv|(? & _ & Hv)]; [discriminate|].
      apply bind_Revert_inv in Hv as [Hv|(? & _ & Hv)]; [discriminate|].
      apply bind_Revert_inv in Hv as [Hv|(? & _ & Hv)]; [discriminate|].
      apply bind_Revert_inv in Hv as [Hv|(? & _ & Hv)]; [discriminate|].
      apply bind_Revert_inv in Hv as [Hv|(? & _ & Hv)].
      { unfold fromExternal in Hv. by rewrite Hacc in Hv. }
      apply bind_Revert_inv in Hv as [Hv|(? & _ & Hv)].
      { apply N.ltb_lt in Htv. unfold checked_inc in Hv.
        change (total_votes (store_voted ?a ?b ?c (add_encrypted_vote ?r ?i ?w ?e' ?s0)) ?rc')
          with (total_votes s0 rc') in Hv.
        by rewrite Htv in Hv. }
      apply bind_Revert_inv in Hv as [Hv|(? & _ & Hv)].
      { apply N.ltb_lt in Hcv. unfold checked_inc in Hv.
        change (candidate_votes (store_total_votes ?a0 ?n0
                  (store_voted ?a ?b ?c (add_encrypted_vote ?r ?i ?w ?e' ?s0))) ?rc' ?k')
          with (candidate_votes s0 rc' k') in Hv.
        by rewrite Hcv in Hv. }
      discriminate Hv.
Qed.

(** ** Ending, then publishing *)

Lemma joinRoom_Revert_inactive rc pw e s :
  isActive (room s rc) = false -> is_revert (joinRoom rc pw e s) = true.
Proof.
  intros Hin. unfold joinRoom, roomExists, roomActive. rewrite Hin.
  by destruct (0 <? _).
Qed.

Lemma addCandidate_Revert_inactive rc n d u e s :
  isActive (room s rc) = false -> is_revert (addCandidate rc n d u e s) = true.
Proof.
  intros Hin. unfold addCandidate, roomExists. destruct (0 <? _); [|done].
  destruct (sender e =? creator (room s rc)); [|done]. by rewrite Hin.
Qed.

(** [X18] [endRoom] is for the creator only: on an existing room any other
    caller gets "Only creator can end room".  Once it has succeeded the room
    is closed for business after any further transactions ([joinRoom],
    [vote], [addCandidate] and [endRoom] all revert), while the creator can
    publish results at once with any array of [candidateCount] numbers. *)
Theorem endRoom_then_publish rc e s :
  (code (room s rc) <> "" -> sender e <> creator (room s rc) ->
   endRoom rc e s = Revert "Only creator can end room") /\
  (forall s1, endRoom rc e s = Ok s1 ->
     isActive (room s1 rc) = false /\
     (forall txs e2 pw k ev pf n d u,
        is_revert (joinRoom rc pw e2 (run s1 txs)) = true /\
        is_revert (vote rc k ev pf e2 (run s1 txs)) = true /\
        is_revert (addCandidate rc n d u e2 (run s1 txs)) = true /\
        is_revert (endRoom rc e2 (run s1 txs)) = true) /\
     (forall counts, N.of_nat (length counts) = candidateCount (room s rc) ->
        is_ok (publishResults rc counts e s1) = true)).
Proof.
  split.
  - intros Hex Hne. unfold endRoom. rewrite roomExists_pass by done.
    apply N.eqb_neq in Hne. by rewrite Hne.
  - intros s1 Hok. apply endRoom_Ok in Hok as (Hex & Hcr & Hact & ->).
    set (s1 := emit (RoomEnded rc)
                 (store_room rc (set_isActive false (room s rc)) s)).
    assert (Hr1 : room s1 rc = set_isActive false (room s rc))
      by (subst s1; by rewrite room_emit, room_store_room, decide_True).
    assert (Hex1 : code (room s1 rc) <> "") by (by rewrite Hr1).
    assert (Hin1 : isActive (room s1 rc) = false) by (by rewrite Hr1).
    split; [done|]. split.
    + intros txs e2 pw k ev pf n d u.
      pose proof (run_inactive s1 txs rc Hex1 Hin1) as Hin2.
      split; [by apply joinRoom_Revert_inactive|].
      split; [by apply vote_Revert_inactive|].
      split; [by apply addCandidate_Revert_inactive|by apply endRoom_Revert_inactive].
    + intros counts Hlen. rewrite publishResults_pass; try done.
      * by rewrite Hr1.
      * by rewrite Hr1.
Qed.

(** ** Taking a seat *)

Lemma room_step_closed_stays c r r' :
  room_step c r r' -> code r <> "" -> isClosed r = true -> isClosed r' = true.
Proof. intros [ | | | | ] Hex Hcl; try done; congruence. Qed.

Lemma run_closed s txs c :
  code (room s c) <> "" -> isClosed (room s c) = true ->
  isClosed (room (run s txs) c) = true.
Proof.
  revert txs s.
  apply (run_ind (fun s s' => code (room s c) <> "" -> isClosed (room s c) = true ->
                              code (room s' c) <> "" /\ isClosed (room s' c) = true)).
  - done.
  - intros s1 s2 s3 H12 H23 Hex Hcl. destruct (H12 Hex Hcl) as [Hex2 Hcl2].
    split; [by eapply step_exists|].
    eapply room_step_closed_stays; [eapply step_room_step, H23|done..].
Qed.

Lemma joinRoom_Revert_closed rc pw e s :
  isClosed (room s rc) = true -> is_revert (joinRoom rc pw e s) = true.
Proof.
  intros Hcl. unfold joinRoom, roomExists, roomActive. rewrite Hcl.
  destruct (0 <? _); [|done]. destruct (isActive _); [|done].
  by destruct (timestamp e <? _).
Qed.

(** [X19] A successful [joinRoom] takes exactly one seat and enrols the
    caller.  It closes the room exactly when that seat was the last one, and
    a closed room stays closed: after any further transactions every
    [joinRoom] on it reverts. *)
Theorem joinRoom_takes_seat rc pw e s s' :
  joinRoom rc pw e s = Ok s' ->
  participantCount (room s' rc) = participantCount (room s rc) + 1 /\
  isUserParticipant rc (sender e) s' = Ok true /\
  (isClosed (room s' rc) = true <->
   participantCount (room s' rc) = maxParticipants (room s' rc)) /\
  (isClosed (room s' rc) = true ->
   forall txs pw2 e2, is_revert (joinRoom rc pw2 e2 (run s' txs)) = true).
Proof.
  intros Hok.
  apply joinRoom_Ok in Hok as (Hex & _ & _ & Hcl & _ & Hfull & _ & ->).
  destruct (joined_fields rc e s) as (Hip & _).
  assert (Hr : room (joined rc e s) rc
               = close_if_full (set_participantCount
                                  (participantCount (room s rc) + 1) (room s rc)))
    by (by rewrite room_joined, decide_True).
  assert (Hex' : code (room (joined rc e s) rc) <> "").
  { rewrite Hr. unfold close_if_full. by destruct (_ <=? _). }
  split; [|split; [|split]].
  - rewrite Hr. unfold close_if_full. by destruct (_ <=? _).
  - unfold isUserParticipant. rewrite roomExists_pass by done.
    unfold participant. by rewrite Hip, mapping_get2_set2_eq.
  - rewrite Hr. unfold close_if_full.
    cbn [set_participantCount maxParticipants participantCount].
    destruct (N.leb_spec (maxParticipants (room s rc))
                         (participantCount (room s rc) + 1)); cbn.
    + split; [lia|done].
    + rewrite Hcl. split; [done|lia].
  - intros Hcl' txs pw2 e2. by apply joinRoom_Revert_closed, run_closed.
Qed.

(** ** Rooms do not interfere *)





End VotingRoom.

(** ** The contract run on concrete transactions *)

Local Abbreviation demo_exec :=
  (exec demo_keccak256 demo_this demo_asEuint32 demo_add demo_fromExternal).
Local Abbreviation demo_run :=
  (run demo_keccak256 demo_this demo_asEuint32 demo_add demo_fromExternal).
Local Abbreviation demo_vote := (vote demo_this demo_add demo_fromExternal).
Local Abbreviation demo_joinRoom := (joinRoom demo_keccak256).

(** The walk-through of the specification: two seats, two candidates, both
    participants vote, the room ends by itself. *)
Example scenario_R1 :
  let s := demo_run init [tx_create_R1; tx_join_R1; tx_vote_alice; tx_vote_bob] in
  isActive (room s "R1") = false /\ isClosed (room s "R1") = true /\
  participantCount (room s "R1") = 2 /\ total_votes s "R1" = 2 /\
  candidate_votes s "R1" 0 = 1 /\ candidate_votes s "R1" 1 = 1.
Proof. vm_compute. by repeat split. Qed.

Example scenario_R1_first_vote :
  let s := demo_run init [tx_create_R1; tx_join_R1; tx_vote_alice] in
  isActive (room s "R1") = true /\ total_votes s "R1" = 1.
Proof. vm_compute. by repeat split. Qed.

Example scenario_P1_wrong_password :
  let s := demo_run init [tx_create_P1] in
  demo_joinRoom "P1" "guess" (mkEnv bob 11) s = Revert "Invalid password" /\
  participantCount (room (demo_exec s tx_join_P1_wrong) "P1") = 1.
Proof. vm_compute. by repeat split. Qed.

(** [C3] A room created with a single seat is full from the start
    ([participantCount = maxParticipants = 1]) and yet not closed, through
    [createRoom] and through [createRoomWithCandidatesBatch] alike: the
    closing test runs in [joinRoom] only. *)
Theorem single_seat_room_full_not_closed :
  let s1 := demo_run init [tx_create_S1] in
  let s2 := demo_run init [tx_create_S2] in
  (code (room s1 "S1") = "S1" /\
   participantCount (room s1 "S1") = maxParticipants (room s1 "S1") /\
   isClosed (room s1 "S1") = false) /\
  (code (room s2 "S2") = "S2" /\
   participantCount (room s2 "S2") = maxParticipants (room s2 "S2") /\
   isClosed (room s2 "S2") = false).
Proof. vm_compute. by repeat split. Qed.

(** [C9] A batch creation under the empty room code succeeds, and the
    candidates it stored cannot be read back: [getCandidate] reverts with
    "Room does not exist" at every index. *)
Theorem getCandidate_empty_code_reverts :
  is_ok (call demo_keccak256 demo_this demo_asEuint32 demo_add demo_fromExternal
           (tx_call tx_create_empty_code) (tx_env tx_create_empty_code) init)
  = true /\
  let s := demo_run init [tx_create_empty_code] in
  candidateCount (room s "") = 2 /\
  name (candidate s "" 0) = "A" /\
  forall i, getCandidate "" i s = Revert "Room does not exist".
Proof.
  split; [by vm_compute|]. cbv zeta.
  split; [by vm_compute|]. split; [by vm_compute|].
  intros i. unfold getCandidate.
  rewrite roomExists_Revert by (vm_compute; reflexivity). reflexivity.
Qed.

(** ** The theorems at concrete inputs *)

Lemma vote_at_most_once_witness :
  let s := demo_run init [tx_create_R1; tx_join_R1] in
  let s1 := demo_exec s tx_vote_alice in
  let s2 := demo_run s1 [tx_publish_R1] in
  demo_vote "R1" 0 1 [1] (mkEnv alice 12) s = Ok s1 /\
  demo_vote "R1" 1 1 [1] (mkEnv alice 14) s2 = Revert "Already voted in this room" /\
  demo_exec s2 tx_revote_alice = s2.
Proof.
  cbv zeta.
  assert (Hok : demo_vote "R1" 0 1 [1] (mkEnv alice 12)
                  (demo_run init [tx_create_R1; tx_join_R1])
                = Ok (demo_exec (demo_run init [tx_create_R1; tx_join_R1])
                        tx_vote_alice))
    by (vm_compute; reflexivity).
  split; [exact Hok|].
  destruct (vote_at_most_once demo_keccak256 demo_this demo_asEuint32 demo_add
              demo_fromExternal "R1" 0 1 [1] (mkEnv alice 12) _ _
              [tx_publish_R1] (mkEnv alice 14) 1 1 [1] Hok eq_refl)
    as (Hrev & Hsame & _).
  split; [exact Hrev|exact Hsame].
Defined.

Lemma vote_auto_close_witness :
  let s := demo_run init [tx_create_R1; tx_join_R1; tx_vote_alice] in
  let s1 := demo_exec s tx_vote_bob in
  demo_vote "R1" 1 1 [1] (mkEnv bob 13) s = Ok s1 /\
  maxParticipants (room s1 "R1") <= total_votes s1 "R1" /\
  isActive (room s1 "R1") = false /\
  is_revert (demo_vote "R1" 0 1 [1] (mkEnv carol 20) (demo_run s1 [tx_publish_R1]))
  = true.
Proof.
  cbv zeta.
  assert (Hok : demo_vote "R1" 1 1 [1] (mkEnv bob 13)
                  (demo_run init [tx_create_R1; tx_join_R1; tx_vote_alice])
                = Ok (demo_exec (demo_run init [tx_create_R1; tx_join_R1; tx_vote_alice])
                        tx_vote_bob))
    by (vm_compute; reflexivity).
  assert (Hfull : maxParticipants
                    (room (demo_exec (demo_run init
                             [tx_create_R1; tx_join_R1; tx_vote_alice]) tx_vote_bob) "R1")
                  <= total_votes
                       (demo_exec (demo_run init
                          [tx_create_R1; tx_join_R1; tx_vote_alice]) tx_vote_bob) "R1")
    by (vm_compute; discriminate).
  split; [exact Hok|]. split; [exact Hfull|].
  destruct (vote_auto_close demo_keccak256 demo_this demo_asEuint32 demo_add
              demo_fromExternal "R1" 1 1 [1] (mkEnv bob 13) _ _ Hok Hfull)
    as (Hin & Hrev).
  split; [exact Hin|]. apply Hrev.
Defined.

Lemma participantCount_le_maxParticipants_witness :
  let s := demo_run init [tx_create_R1] in
  participantCount (room s "R1") <= maxParticipants (room s "R1") /\
  participantCount (room (demo_exec s tx_join_R1) "R1")
  <= maxParticipants (room (demo_exec s tx_join_R1) "R1").
Proof.
  cbv zeta.
  assert (Hle : participantCount (room (demo_run init [tx_create_R1]) "R1")
                <= maxParticipants (room (demo_run init [tx_create_R1]) "R1"))
    by (vm_compute; discriminate).
  split; [exact Hle|].
  exact (proj2 (participantCount_le_maxParticipants demo_keccak256 demo_this
                  demo_asEuint32 demo_add demo_fromExternal) _ tx_join_R1 "R1" Hle).
Defined.

Lemma joinRoom_invalid_password_witness :
  let s := demo_run init [tx_create_P1] in
  demo_joinRoom "P1" "guess" (mkEnv bob 11) s = Revert "Invalid password" /\
  participantCount (room (demo_exec s tx_join_P1_wrong) "P1")
  = participantCount (room s "P1") /\
  demo_joinRoom "P1" "guess" (mkEnv alice 11) s = Revert "Already a participant".
Proof.
  cbv zeta.
  destruct (joinRoom_invalid_password demo_keccak256 demo_this demo_asEuint32
              demo_add demo_fromExternal "P1" "guess" (mkEnv bob 11)
              (demo_run init [tx_create_P1])) as (Hiff & _ & Hrev).
  assert (Hbad : demo_joinRoom "P1" "guess" (mkEnv bob 11)
                   (demo_run init [tx_create_P1]) = Revert "Invalid password").
  { apply Hiff. vm_compute. repeat split; discriminate. }
  split; [exact Hbad|]. split; [exact (proj2 (Hrev _ Hbad))|].
  destruct (joinRoom_invalid_password demo_keccak256 demo_this demo_asEuint32
              demo_add demo_fromExternal "P1" "guess" (mkEnv alice 11)
              (demo_run init [tx_create_P1])) as (_ & Hgate & _).
  apply Hgate. vm_compute. reflexivity.
Defined.

Lemma isActive_falls_once_witness :
  let txs := [tx_vote_alice; tx_vote_bob; tx_create_R1; tx_publish_R1] in
  let s := demo_run init [tx_create_R1; tx_join_R1] in
  let s' := demo_run s txs in
  isActive (room s "R1") = true /\
  (falls (flags demo_keccak256 demo_this demo_asEuint32 demo_add demo_fromExternal
            s txs "R1") <= 1)%nat /\
  rises (flags demo_keccak256 demo_this demo_asEuint32 demo_add demo_fromExternal
           s txs "R1") = 0%nat /\
  isActive (room s' "R1") = false /\
  isActive (room (demo_run s' [tx_create_R1; tx_join_R1]) "R1") = false /\
  is_revert (endRoom "R1" (mkEnv alice 20) s') = true.
Proof.
  cbv zeta.
  assert (Hact : isActive (room (demo_run init [tx_create_R1; tx_join_R1]) "R1") = true)
    by (vm_compute; reflexivity).
  assert (Hin : isActive (room (demo_run (demo_run init [tx_create_R1; tx_join_R1])
                    [tx_vote_alice; tx_vote_bob; tx_create_R1; tx_publish_R1]) "R1")
                = false)
    by (vm_compute; reflexivity).
  assert (Hex : code (room (demo_run (demo_run init [tx_create_R1; tx_join_R1])
                    [tx_vote_alice; tx_vote_bob; tx_create_R1; tx_publish_R1]) "R1")
                <> "")
    by (vm_compute; discriminate).
  destruct (isActive_falls_once demo_keccak256 demo_this demo_asEuint32 demo_add
              demo_fromExternal (demo_run init [tx_create_R1; tx_join_R1])
              [tx_vote_alice; tx_vote_bob; tx_create_R1; tx_publish_R1] "R1")
    as (Hfalls & Hrises & _ & _).
  destruct (isActive_falls_once demo_keccak256 demo_this demo_asEuint32 demo_add
              demo_fromExternal
              (demo_run (demo_run init [tx_create_R1; tx_join_R1])
                 [tx_vote_alice; tx_vote_bob; tx_create_R1; tx_publish_R1])
              [tx_create_R1; tx_join_R1] "R1")
    as (_ & _ & Hstay & Hrev).
  split; [exact Hact|]. split; [exact Hfalls|]. split; [exact (Hrises Hact)|].
  split; [exact Hin|]. split; [exact (Hstay Hex Hin)|].
  exact (proj1 (proj2 (Hrev Hin (mkEnv alice 20) 0 0 []))).
Defined.

Lemma checkAndEndRoom_after_endTime_witness :
  let s := demo_run init [tx_create_P1] in
  code (room s "P1") <> "" /\ isActive (room s "P1") = true /\
  checkAndEndRoom "P1" (mkEnv carol 50) s = Revert "Room has not ended yet" /\
  exists s', checkAndEndRoom "P1" (mkEnv carol 100) s = Ok s' /\
    isActive (room s' "P1") = false /\
    checkAndEndRoom "P1" (mkEnv bob 101) (demo_run s' [tx_join_P1_wrong])
    = Revert "Room already ended".
Proof.
  cbv zeta.
  assert (Hex : code (room (demo_run init [tx_create_P1]) "P1") <> "")
    by (vm_compute; discriminate).
  assert (Hact : isActive (room (demo_run init [tx_create_P1]) "P1") = true)
    by (vm_compute; reflexivity).
  split; [exact Hex|]. split; [exact Hact|].
  destruct (checkAndEndRoom_after_endTime demo_keccak256 demo_this demo_asEuint32
              demo_add demo_fromExternal "P1" (mkEnv carol 50) _ Hex Hact)
    as (Hearly & _).
  destruct (checkAndEndRoom_after_endTime demo_keccak256 demo_this demo_asEuint32
              demo_add demo_fromExternal "P1" (mkEnv carol 100) _ Hex Hact)
    as (_ & Hlate).
  split; [apply Hearly; vm_compute; reflexivity|].
  destruct Hlate as (s' & Hok & Hin & Hrev); [vm_compute; discriminate|].
  exists s'. split; [exact Hok|]. split; [exact Hin|]. apply Hrev.
Defined.

Lemma publishResults_stores_witness :
  let s := demo_run init [tx_create_R1; tx_join_R1; tx_vote_alice; tx_vote_bob] in
  is_revert (publishResults "R1" [7; 9] (mkEnv bob 15) s) = true /\
  is_revert (publishResults "R1" [7] (mkEnv alice 15) s) = true /\
  exists s',
    publishResults "R1" [7; 9] (mkEnv alice 15) s = Ok s' /\
    getClearResults "R1" 0 s' = Ok 7 /\ getClearResults "R1" 1 s' = Ok 9 /\
    exists s'',
      publishResults "R1" [0; 40] (mkEnv alice 15) s' = Ok s'' /\
      getClearResults "R1" 1 s'' = Ok 40.
Proof.
  cbv zeta.
  set (s := demo_run init [tx_create_R1; tx_join_R1; tx_vote_alice; tx_vote_bob]).
  assert (Hcc : candidateCount (room s "R1") = 2) by (vm_compute; reflexivity).
  destruct (publishResults_stores demo_keccak256 demo_this demo_asEuint32 demo_add
              demo_fromExternal "R1" [7; 9] (mkEnv bob 15) s) as (Hcreator & _).
  destruct (publishResults_stores demo_keccak256 demo_this demo_asEuint32 demo_add
              demo_fromExternal "R1" [7] (mkEnv alice 15) s) as (_ & _ & Hlen & _).
  destruct (publishResults_stores demo_keccak256 demo_this demo_asEuint32 demo_add
              demo_fromExternal "R1" [7; 9] (mkEnv alice 15) s) as (_ & _ & _ & Hok).
  split; [apply Hcreator; vm_compute; discriminate|].
  split; [apply Hlen; vm_compute; discriminate|].
  destruct Hok as (s' & Hpub & _ & Hget & Hagain);
    [vm_compute; discriminate|vm_compute; reflexivity|vm_compute; reflexivity
    |vm_compute; reflexivity|].
  exists s'. split; [exact Hpub|].
  split; [apply (Hget 0); rewrite Hcc; reflexivity|].
  split; [apply (Hget 1); rewrite Hcc; reflexivity|].
  destruct (Hagain [0; 40]) as (s'' & Hpub2 & _ & Hget2); [vm_compute; reflexivity|].
  exists s''. split; [exact Hpub2|]. apply (Hget2 1). rewrite Hcc. reflexivity.
Defined.

Lemma vote_accounting_witness :
  let s := demo_run init [tx_create_R1; tx_join_R1] in
  let s1 := demo_exec s tx_vote_alice in
  demo_vote "R1" 0 1 [1] (mkEnv alice 12) s = Ok s1 /\
  total_votes s1 "R1" = total_votes s "R1" + 1 /\
  candidate_votes s1 "R1" 0 = candidate_votes s "R1" 0 + 1 /\
  candidate_votes s1 "R1" 1 = candidate_votes s "R1" 1 /\
  size (voters s1 "R1") = S (size (voters s "R1")) /\
  totalVotes (demo_exec s1 tx_publish_R1) = totalVotes s1 /\
  total_votes s1 "R1"
  = sum_candidate_votes s1 "R1" (N.to_nat (candidateCount (room s1 "R1"))).
Proof.
  cbv zeta.
  destruct (vote_accounting demo_keccak256 demo_this demo_asEuint32 demo_add
              demo_fromExternal) as (Hinv & Hvote & Hother & _).
  assert (Hok : demo_vote "R1" 0 1 [1] (mkEnv alice 12)
                  (demo_run init [tx_create_R1; tx_join_R1])
                = Ok (demo_exec (demo_run init [tx_create_R1; tx_join_R1])
                        tx_vote_alice))
    by (vm_compute; reflexivity).
  destruct (Hvote _ _ _ _ _ _ _ Hok) as (Htv & Hcv & Hoth & Hsz & _).
  split; [exact Hok|]. split; [exact Htv|]. split; [exact Hcv|].
  split; [apply Hoth; discriminate|]. split; [exact Hsz|].
  split; [apply Hother; intros rc k ev pf; discriminate|].
  exact (proj1 (Hinv [tx_create_R1; tx_join_R1; tx_vote_alice] "R1")).
Defined.

(** ** The further theorems at concrete inputs *)

Local Abbreviation with_demo f :=
  (f demo_keccak256 demo_this demo_asEuint32 demo_add demo_fromExternal).
Local Abbreviation three_rooms := (demo_run init [tx_create_R1; tx_create_P1; tx_create_R2]).
Local Abbreviation room_R1_joined := (demo_run init [tx_create_R1; tx_join_R1]).
Local Abbreviation room_P1 := (demo_run init [tx_create_P1]).

(** Room "R2" ends at 60 and nobody has flipped its flag: at time 70 it is
    still marked active but no longer listed. *)
Lemma getActiveRooms_filter_witness :
  isActive (room three_rooms "R2") = true /\
  getActiveRooms (mkEnv carol 70) three_rooms = Ok ["R1"; "P1"] /\
  getActiveRooms (mkEnv carol 30) three_rooms = Ok ["R1"; "P1"; "R2"].
Proof.
  split; [vm_compute; reflexivity|]. split.
  - rewrite (proj1 (getActiveRooms_filter (mkEnv carol 70) three_rooms)).
    vm_compute. reflexivity.
  - rewrite (proj1 (getActiveRooms_filter (mkEnv carol 30) three_rooms)).
    vm_compute. reflexivity.
Defined.

Lemma getRoomsPaginated_slice_witness :
  getRoomsPaginated 1 0 three_rooms = Revert "Limit must be greater than 0" /\
  exists page hasMore,
    getRoomsPaginated 1 1 three_rooms = Ok (page, hasMore) /\
    page = take 1 (drop 1 (getAllRoomCodes three_rooms)) /\
    (hasMore = true <-> 1 + 1 < getTotalRoomsCount three_rooms) /\
    (getTotalRoomsCount three_rooms <= 1 -> page = [] /\ hasMore = false).
Proof.
  split.
  - exact (proj1 (getRoomsPaginated_slice 1 0 three_rooms) eq_refl).
  - exact (proj2 (getRoomsPaginated_slice 1 1 three_rooms) eq_refl).
Defined.

Lemma getRoomsPaginated_concat_witness :
  getRoomsPaginated 0 1 three_rooms = Ok (["R1"], true) /\
  getRoomsPaginated (0 + 1) 2 three_rooms = Ok (["P1"; "R2"], false) /\
  getRoomsPaginated 0 (1 + 2) three_rooms = Ok (["R1"] ++ ["P1"; "R2"], false).
Proof.
  assert (H1 : getRoomsPaginated 0 1 three_rooms = Ok (["R1"], true))
    by (vm_compute; reflexivity).
  assert (H2 : getRoomsPaginated (0 + 1) 2 three_rooms = Ok (["P1"; "R2"], false))
    by (vm_compute; reflexivity).
  split; [exact H1|]. split; [exact H2|].
  exact (getRoomsPaginated_concat 0 1 2 three_rooms _ _ _ _ eq_refl eq_refl H1 H2).
Defined.

Lemma getAllVotingResults_table_witness :
  let s := demo_run init [tx_create_R1; tx_join_R1; tx_vote_alice] in
  code (room s "R1") <> "" /\
  getAllVotingResults "R1" s = Ok ([0; 1], ["A"; "B"], [1; 0], 1) /\
  sum_list [1; 0] = total_votes s "R1".
Proof.
  cbv zeta.
  set (s := demo_run init [tx_create_R1; tx_join_R1; tx_vote_alice]).
  assert (Hex : code (room s "R1") <> "") by (vm_compute; discriminate).
  destruct (with_demo getAllVotingResults_table "R1" s Hex) as [Htab Hsum].
  split; [exact Hex|]. split.
  - rewrite Htab. vm_compute. reflexivity.
  - rewrite <- Hsum by (by exists [tx_create_R1; tx_join_R1; tx_vote_alice]).
    vm_compute. reflexivity.
Defined.

Lemma roomCodes_append_only_witness :
  let s := demo_run init [tx_create_R1] in
  let s' := demo_run s [tx_create_P1; tx_join_R1] in
  getAllRoomCodes s !! 0%nat = Some "R1" /\
  getAllRoomCodes s' !! 0%nat = Some "R1" /\
  getTotalRoomsCount s <= getTotalRoomsCount s' /\
  getAllRoomCodes (demo_exec s tx_vote_bob) = getAllRoomCodes s.
Proof.
  cbv zeta.
  destruct (with_demo roomCodes_append_only (demo_run init [tx_create_R1])
              [tx_create_P1; tx_join_R1]) as (_ & Hcount & Hkeep & _ & Hrev).
  assert (H0 : getAllRoomCodes (demo_run init [tx_create_R1]) !! 0%nat = Some "R1")
    by (vm_compute; reflexivity).
  split; [exact H0|]. split; [exact (Hkeep _ _ H0)|]. split; [exact Hcount|].
  apply (Hrev (mkEnv bob 13) (Vote "R1" 1 1 [1]) "Not a participant in this room").
  vm_compute. reflexivity.
Defined.

Lemma registry_consistent_reachable_witness :
  let s := demo_run init [tx_create_R1; tx_create_P1; tx_create_R1] in
  code (room s "P1") <> "" /\
  roomCodes s !! N.to_nat (mapping_get 0 (roomCodeIndex s) "P1") = Some "P1" /\
  getTotalRoomsCount s = 2.
Proof.
  cbv zeta.
  destruct (with_demo registry_consistent_reachable
              [tx_create_R1; tx_create_P1; tx_create_R1]) as (_ & Hidx & _ & _).
  assert (Hex : code (room (demo_run init [tx_create_R1; tx_create_P1; tx_create_R1])
                        "P1") <> "") by (vm_compute; discriminate).
  split; [exact Hex|]. split; [exact (Hidx "P1" Hex)|]. vm_compute. reflexivity.
Defined.

Lemma participantCount_counts_participants_witness :
  let s := demo_run init [tx_create_R1; tx_join_R1; tx_vote_alice] in
  hasUserVoted "R1" alice s = Ok true /\
  isUserParticipant "R1" alice s = Ok true /\
  N.of_nat (size (participants s "R1")) = participantCount (room s "R1").
Proof.
  cbv zeta.
  destruct (with_demo participantCount_counts_participants
              [tx_create_R1; tx_join_R1; tx_vote_alice] "R1") as [Hvp Hcount].
  assert (Hv : hasUserVoted "R1" alice
                 (demo_run init [tx_create_R1; tx_join_R1; tx_vote_alice]) = Ok true)
    by (vm_compute; reflexivity).
  split; [exact Hv|]. split; [exact (Hvp alice Hv)|].
  apply Hcount. vm_compute. discriminate.
Defined.

Lemma totalVotes_le_participantCount_witness :
  let s := demo_run init [tx_create_R1; tx_join_R1; tx_vote_alice] in
  let s' := demo_exec s tx_vote_bob in
  total_votes s "R1" <= participantCount (room s "R1") /\
  demo_vote "R1" 1 1 [1] (mkEnv bob 13) s = Ok s' /\
  isActive (room s' "R1") = false /\
  total_votes s' "R1" = maxParticipants (room s' "R1") /\
  participantCount (room s' "R1") = maxParticipants (room s' "R1").
Proof.
  cbv zeta.
  destruct (with_demo totalVotes_le_participantCount
              [tx_create_R1; tx_join_R1; tx_vote_alice] "R1") as [[Hle _] Hclose].
  assert (Hok : demo_vote "R1" 1 1 [1] (mkEnv bob 13)
                  (demo_run init [tx_create_R1; tx_join_R1; tx_vote_alice])
                = Ok (demo_exec (demo_run init [tx_create_R1; tx_join_R1; tx_vote_alice])
                        tx_vote_bob)) by (vm_compute; reflexivity).
  assert (Hin : isActive (room (demo_exec (demo_run init
                    [tx_create_R1; tx_join_R1; tx_vote_alice]) tx_vote_bob) "R1")
                = false) by (vm_compute; reflexivity).
  split; [exact Hle|]. split; [exact Hok|]. split; [exact Hin|].
  exact (Hclose _ _ _ _ _ Hok Hin).
Defined.

Lemma joinRoom_at_most_once_witness :
  let s1 := demo_exec room_P1 tx_join_P1 in
  let s2 := demo_run s1 [tx_add_P1; tx_create_R2] in
  demo_joinRoom "P1" "secret" (mkEnv bob 12) room_P1 = Ok s1 /\
  isUserParticipant "P1" bob s2 = Ok true /\
  demo_joinRoom "P1" "secret" (mkEnv bob 20) s2 = Revert "Already a participant".
Proof.
  cbv zeta.
  assert (Hok : demo_joinRoom "P1" "secret" (mkEnv bob 12) room_P1
                = Ok (demo_exec room_P1 tx_join_P1)) by (vm_compute; reflexivity).
  destruct (with_demo joinRoom_at_most_once "P1" "secret" (mkEnv bob 12) _ _
              [tx_add_P1; tx_create_R2] (mkEnv bob 20) "secret" Hok eq_refl)
    as (Hpart & _ & Hmsg).
  split; [exact Hok|]. split; [exact Hpart|].
  apply Hmsg; vm_compute; reflexivity.
Defined.

Lemma createRoom_fixes_identity_witness :
  let s1 := demo_exec init tx_create_P1 in
  let s2 := demo_run s1 [tx_join_P1; tx_end_P1] in
  createRoom "P1" "Board" "Members only" 3 100 true (demo_keccak256 "secret")
    (mkEnv alice 10) init = Ok s1 /\
  (exists r, getRoom "P1" s2 = Ok r /\ creator r = alice /\ maxParticipants r = 3) /\
  createRoom "P1" "Other" "Other" 9 900 false 0 (mkEnv bob 40) s2
  = Revert "Room code already exists".
Proof.
  cbv zeta.
  assert (Hok : createRoom "P1" "Board" "Members only" 3 100 true
                  (demo_keccak256 "secret") (mkEnv alice 10) init
                = Ok (demo_exec init tx_create_P1)) by (vm_compute; reflexivity).
  assert (Hne : "P1" <> "") by discriminate.
  destruct (with_demo createRoom_fixes_identity _ _ _ _ _ _ _ _ _ _
              [tx_join_P1; tx_end_P1] Hok Hne)
    as ((r & Hget & _ & _ & _ & Hcr & Hm & _) & _ & Hdup & _).
  split; [exact Hok|]. split; [by exists r|]. apply Hdup.
Defined.

Lemma candidates_below_count_exist_witness :
  let s := demo_run init [tx_create_R1] in
  1 < candidateCount (room s "R1") /\
  exists_ (candidate s "R1" 1) = true /\
  demo_vote "R1" 1 1 [1] (mkEnv alice 12) s <> Revert "Candidate does not exist".
Proof.
  cbv zeta.
  destruct (with_demo candidates_below_count_exist [tx_create_R1]) as [Hex Hnever].
  assert (Hlt : 1 < candidateCount (room (demo_run init [tx_create_R1]) "R1"))
    by (vm_compute; reflexivity).
  split; [exact Hlt|]. split; [exact (Hex "R1" 1 Hlt)|]. apply Hnever.
Defined.

Lemma results_published_only_after_end_witness :
  let s := demo_run init
             [tx_create_R1; tx_join_R1; tx_vote_alice; tx_vote_bob; tx_publish_R1] in
  published s "R1" = true /\
  isActive (room s "R1") = false /\
  areResultsPublished "R1" (demo_run s [tx_create_P1]) = Ok true /\
  getClearResults "P1" 0 (demo_run init [tx_create_P1])
  = Revert "Results not published yet".
Proof.
  cbv zeta.
  destruct (with_demo results_published_only_after_end
              [tx_create_R1; tx_join_R1; tx_vote_alice; tx_vote_bob; tx_publish_R1]
              "R1") as (Hended & _ & Hstay).
  destruct (with_demo results_published_only_after_end [tx_create_P1] "P1")
    as (_ & Hnot & _).
  assert (Hp : published (demo_run init
                 [tx_create_R1; tx_join_R1; tx_vote_alice; tx_vote_bob; tx_publish_R1])
                 "R1" = true) by (vm_compute; reflexivity).
  split; [exact Hp|]. split; [exact (proj2 (Hended Hp))|].
  split; [exact (proj1 (Hstay Hp [tx_create_P1]))|].
  apply Hnot; vm_compute; (reflexivity || discriminate).
Defined.

Lemma addCandidate_appends_witness :
  let s' := demo_exec room_P1 tx_add_P1 in
  addCandidate demo_this demo_asEuint32 "P1" "X" "first" "x.png" (mkEnv alice 14) room_P1
  = Ok s' /\
  getCandidate "P1" 0 room_P1 = Revert "Invalid candidate" /\
  getCandidate "P1" 0 s' = Ok ("X", "first", "x.png") /\
  getCandidateVotes "P1" 0 s' = Ok (demo_asEuint32 0) /\
  is_revert (addCandidate demo_this demo_asEuint32 "P1" "X" "first" "x.png"
               (mkEnv bob 14) room_P1) = true.
Proof.
  cbv zeta.
  assert (Hok : addCandidate demo_this demo_asEuint32 "P1" "X" "first" "x.png"
                  (mkEnv alice 14) room_P1 = Ok (demo_exec room_P1 tx_add_P1))
    by (vm_compute; reflexivity).
  destruct (addCandidate_appends demo_this demo_asEuint32 "P1" "X" "first" "x.png"
              (mkEnv alice 14) room_P1) as (_ & _ & Happ).
  destruct (Happ _ Hok) as (Hbefore & _ & Hget & Hvotes & _).
  destruct (addCandidate_appends demo_this demo_asEuint32 "P1" "X" "first" "x.png"
              (mkEnv bob 14) room_P1) as (Hcreator & _ & _).
  split; [exact Hok|]. split; [exact Hbefore|]. split; [exact Hget|].
  split; [exact Hvotes|]. apply Hcreator. vm_compute. discriminate.
Defined.

Lemma addCandidatesBatch_as_singles_witness :
  let s' := demo_exec room_P1 tx_add_batch_P1 in
  addCandidatesBatch demo_this demo_asEuint32 "P1" ["Y"; "Z"] ["second"; "third"]
    ["y.png"; "z.png"] (mkEnv alice 15) room_P1 = Ok s' /\
  demo_run room_P1
    (single_adds "P1" (mkEnv alice 15) ["Y"; "Z"] ["second"; "third"] ["y.png"; "z.png"])
  = s'.
Proof.
  cbv zeta.
  assert (Hok : addCandidatesBatch demo_this demo_asEuint32 "P1" ["Y"; "Z"]
                  ["second"; "third"] ["y.png"; "z.png"] (mkEnv alice 15) room_P1
                = Ok (demo_exec room_P1 tx_add_batch_P1)) by (vm_compute; reflexivity).
  split; [exact Hok|].
  exact (proj1 (with_demo addCandidatesBatch_as_singles _ _ _ _ _ _ _ Hok)).
Defined.

Lemma vote_adds_to_encrypted_total_witness :
  let s' := demo_exec room_R1_joined tx_vote_alice in
  demo_vote "R1" 0 1 [1] (mkEnv alice 12) room_R1_joined = Ok s' /\
  exists h v,
    getCandidateVotes "R1" 0 room_R1_joined = Ok h /\
    demo_fromExternal alice 1 [1] = Some v /\
    getCandidateVotes "R1" 0 s' = Ok (demo_add h v) /\
    In (demo_add h v, alice) (grants s').
Proof.
  cbv zeta.
  assert (Hok : demo_vote "R1" 0 1 [1] (mkEnv alice 12) room_R1_joined
                = Ok (demo_exec room_R1_joined tx_vote_alice))
    by (vm_compute; reflexivity).
  split; [exact Hok|].
  destruct (vote_adds_to_encrypted_total demo_this demo_add demo_fromExternal
              _ _ _ _ _ _ _ Hok) as (h & v & Hh & Hv & Hh' & _ & Hg).
  exists h, v. split; [exact Hh|]. split; [exact Hv|]. split; [exact Hh'|].
  rewrite Hg. apply in_or_app. right. right. left. reflexivity.
Defined.

Lemma vote_guards_witness :
  vote_first_failure "R1" 0 (mkEnv carol 12) room_R1_joined
  = Some "Not a participant in this room" /\
  demo_vote "R1" 0 1 [1] (mkEnv carol 12) room_R1_joined
  = Revert "Not a participant in this room" /\
  vote_first_failure "R1" 0 (mkEnv alice 12) room_R1_joined = None /\
  is_revert (demo_vote "R1" 0 1 [] (mkEnv alice 12) room_R1_joined) = true /\
  demo_vote "R1" 0 1 [1] (mkEnv alice 12) room_R1_joined
  = Ok (voted_for demo_this demo_add "R1" 0 1 (mkEnv alice 12) room_R1_joined).
Proof.
  assert (Hfail : vote_first_failure "R1" 0 (mkEnv carol 12) room_R1_joined
                  = Some "Not a participant in this room") by (vm_compute; reflexivity).
  assert (Hpass : vote_first_failure "R1" 0 (mkEnv alice 12) room_R1_joined = None)
    by (vm_compute; reflexivity).
  split; [exact Hfail|]. split.
  { exact (proj1 (with_demo vote_guards "R1" 0 1 [1] (mkEnv carol 12) room_R1_joined)
             _ Hfail). }
  split; [exact Hpass|]. split.
  { exact (proj1 (proj1 (proj2 (with_demo vote_guards "R1" 0 1 []
                                  (mkEnv alice 12) room_R1_joined)) Hpass eq_refl)). }
  apply (proj2 (proj2 (with_demo vote_guards "R1" 0 1 [1] (mkEnv alice 12)
                         room_R1_joined)) Hpass 1 eq_refl);
    vm_compute; reflexivity.
Defined.

Lemma endRoom_then_publish_witness :
  let s1 := demo_exec room_P1 tx_end_P1 in
  endRoom "P1" (mkEnv bob 30) room_P1 = Revert "Only creator can end room" /\
  endRoom "P1" (mkEnv alice 30) room_P1 = Ok s1 /\
  isActive (room s1 "P1") = false /\
  is_revert (demo_joinRoom "P1" "secret" (mkEnv bob 31) (demo_run s1 [tx_create_R2]))
  = true /\
  is_ok (publishResults "P1" [] (mkEnv alice 30) s1) = true.
Proof.
  cbv zeta.
  destruct (with_demo endRoom_then_publish "P1" (mkEnv bob 30) room_P1) as [Hother _].
  destruct (with_demo endRoom_then_publish "P1" (mkEnv alice 30) room_P1) as [_ Hend].
  assert (Hok : endRoom "P1" (mkEnv alice 30) room_P1 = Ok (demo_exec room_P1 tx_end_P1))
    by (vm_compute; reflexivity).
  destruct (Hend _ Hok) as (Hin & Hdead & Hpub).
  split; [apply Hother; vm_compute; discriminate|].
  split; [exact Hok|]. split; [exact Hin|]. split.
  - exact (proj1 (Hdead [tx_create_R2] (mkEnv bob 31) "secret" 0 0 [] "" "" "")).
  - apply Hpub. vm_compute. reflexivity.
Defined.

Lemma joinRoom_takes_seat_witness :
  let s := demo_run init [tx_create_R1] in
  let s' := demo_exec s tx_join_R1 in
  demo_joinRoom "R1" "" (mkEnv bob 11) s = Ok s' /\
  participantCount (room s' "R1") = participantCount (room s "R1") + 1 /\
  isClosed (room s' "R1") = true /\
  is_revert (demo_joinRoom "R1" "" (mkEnv carol 12) (demo_run s' [tx_vote_alice])) = true.
Proof.
  cbv zeta.
  assert (Hok : demo_joinRoom "R1" "" (mkEnv bob 11) (demo_run init [tx_create_R1])
                = Ok (demo_exec (demo_run init [tx_create_R1]) tx_join_R1))
    by (vm_compute; reflexivity).
  destruct (with_demo joinRoom_takes_seat _ _ _ _ _ Hok) as (Hseat & _ & Hiff & Hstay).
  assert (Hcl : isClosed (room (demo_exec (demo_run init [tx_create_R1]) tx_join_R1)
                  "R1") = true) by (apply Hiff; vm_compute; reflexivity).
  split; [exact Hok|]. split; [exact Hseat|]. split; [exact Hcl|].
  apply (Hstay Hcl).
Defined.

